(** * create_digest.py: the newsletter digest generator

    A shallow embedding of [src/create_digest.py] (the dataclass [Article]
    and the class [SubstackDigest]), the properties its specification
    states about it (Part II) and further properties of the code (Part III).

    Conventions of the embedding:
    - a Python [int] is a [Z]; a Python [float] is a [pyfloat]: an IEEE-754
      binary64 value given by its exact rational value, an infinity or a
      NaN.  An arithmetic operation is the exact operation followed by
      rounding to nearest, ties to even; the two zeros are not told apart;
    - a Python [str] is a [string]; of [str.lower] and [str.split] the ASCII
      part is modelled;
    - a call that may raise returns a [result]; [try ... except Exception]
      catches every exception but [KeyboardInterrupt] and [SystemExit];
    - what the script gets from outside (the clock, feedparser, requests and
      BeautifulSoup, the summarisation client, the formatting of dates and
      numbers) is a field of the record [Externals];
    - the values [json.load] returns and [json.dump] accepts are [pyval]
      trees; a file written by [json.dump] holds a [json] document, the text
      of which is the business of the json library;
    - an object that the script updates in place ([article.quality_score],
      [article.summary], the ledger) is a value that is replaced by the
      updated one;
    - the working directory is a map from file names to contents; writing a
      file succeeds;
    - of the regular expressions of [scrape_comments] the ASCII part is
      modelled ([\d], [\s] and the letters without case). *)

From Stdlib Require Import ZArith QArith Qround Qpower Lqa Lia.
From Stdlib Require Import List String Ascii Bool Permutation Sorted.
From Stdlib Require Import SpecFloat DecimalString.
Import ListNotations.
Open Scope string_scope.
Open Scope list_scope.

Set Warnings "-register-all".

(* ================================================================== *)
(** * Part I: the model *)
(* ================================================================== *)

(** ** Exceptions *)

Inductive exn : Type :=
| ZeroDivisionError
| OverflowError
| KeyError
| IndexError
| AttributeError
| TypeError
| ConnectionError
| APIError
| JSONDecodeError
| ValueError
| KeyboardInterrupt
| SystemExit.

(** [except Exception] does not catch the two exceptions that derive from
    [BaseException] only. *)
Definition is_Exception (e : exn) : bool :=
  match e with
  | KeyboardInterrupt | SystemExit => false
  | _ => true
  end.

Inductive result (A : Type) : Type :=
| Ok (a : A)
| Raise (e : exn).

Arguments Ok {A} a.
Arguments Raise {A} e.

Definition bind {A B : Type} (r : result A) (k : A -> result B) : result B :=
  match r with
  | Ok a => k a
  | Raise e => Raise e
  end.

Notation "x <- r ;; k" := (bind r (fun x => k))
  (at level 61, r at next level, right associativity).

Fixpoint mapM {A B : Type} (f : A -> result B) (l : list A) : result (list B) :=
  match l with
  | [] => Ok []
  | a :: l' => b <- f a ;; bs <- mapM f l' ;; Ok (b :: bs)
  end.

(** ** Python floats: IEEE-754 binary64 *)

Module Float64.

Open Scope Z_scope.

(** Round a rational to the nearest integer, ties to the even one. *)
Definition round_half_even (q : Q) : Z :=
  let f := Qfloor q in
  match Qcompare (q - inject_Z f) (1 # 2) with
  | Lt => f
  | Gt => f + 1
  | Eq => if Z.even f then f else f + 1
  end.

Definition pow2 (e : Z) : Q := Qpower 2 e.

(** [floor (log2 q)] of a positive rational. *)
Definition ilog2 (q : Q) : Z :=
  let l := Z.log2 (Qnum q) - Z.log2 (Zpos (Qden q)) in
  if Qle_bool (pow2 l) q then l else l - 1.

(** The exponent of the unit in the last place: 53 bits of precision,
    subnormal numbers below [2^-1022]. *)
Definition ulp_exp (q : Q) : Z := Z.max (ilog2 q - 52) (-1074).

Definition rnd_pos (q : Q) : Q :=
  let e := ulp_exp q in
  inject_Z (round_half_even (q / pow2 e)) * pow2 e.

(** Round to nearest, ties to even, with an unbounded exponent. *)
Definition rnd (q : Q) : Q :=
  match Qcompare q 0 with
  | Eq => 0
  | Gt => rnd_pos q
  | Lt => - rnd_pos (- q)
  end.

(** A binary64 value.  The two zeros are identified. *)
Inductive pyfloat : Type :=
| Fin (q : Q)
| PInf
| NInf
| NaN.

(** The rounded result of an exact operation; it overflows to an infinity
    from [2^1024] on. *)
Definition of_Q (q : Q) : pyfloat :=
  let r := Qred (rnd q) in
  if Qle_bool (pow2 1024) r then PInf
  else if Qle_bool r (- pow2 1024) then NInf
  else Fin r.

Definition is_inf (x : pyfloat) : bool :=
  match x with PInf | NInf => true | _ => false end.

(** [x < y] *)
Definition flt (x y : pyfloat) : bool :=
  match x, y with
  | NaN, _ | _, NaN => false
  | Fin a, Fin b => negb (Qle_bool b a)
  | Fin _, PInf => true
  | Fin _, NInf => false
  | PInf, _ => false
  | NInf, NInf => false
  | NInf, _ => true
  end.

(** [x <= y] *)
Definition fle (x y : pyfloat) : bool :=
  match x, y with
  | NaN, _ | _, NaN => false
  | Fin a, Fin b => Qle_bool a b
  | _, PInf => true
  | NInf, _ => true
  | PInf, _ => false
  | Fin _, NInf => false
  end.

(** [x == y] *)
Definition feq (x y : pyfloat) : bool :=
  match x, y with
  | Fin a, Fin b => Qeq_bool a b
  | PInf, PInf | NInf, NInf => true
  | _, _ => false
  end.

Definition is_nan (x : pyfloat) : bool :=
  match x with NaN => true | _ => false end.

Definition fopp (x : pyfloat) : pyfloat :=
  match x with
  | Fin a => Fin (Qred (- a))
  | PInf => NInf
  | NInf => PInf
  | NaN => NaN
  end.

(** An infinity times [a]. *)
Definition inf_times (pos_inf : bool) (a : Q) : pyfloat :=
  match Qcompare a 0 with
  | Eq => NaN
  | Gt => if pos_inf then PInf else NInf
  | Lt => if pos_inf then NInf else PInf
  end.

(** [x * y] *)
Definition fmul (x y : pyfloat) : pyfloat :=
  match x, y with
  | NaN, _ | _, NaN => NaN
  | Fin a, Fin b => of_Q (a * b)
  | Fin a, PInf | PInf, Fin a => inf_times true a
  | Fin a, NInf | NInf, Fin a => inf_times false a
  | PInf, PInf | NInf, NInf => PInf
  | PInf, NInf | NInf, PInf => NInf
  end.

(** [x + y] *)
Definition fadd (x y : pyfloat) : pyfloat :=
  match x, y with
  | NaN, _ | _, NaN => NaN
  | Fin a, Fin b => of_Q (a + b)
  | PInf, NInf | NInf, PInf => NaN
  | PInf, _ | _, PInf => PInf
  | NInf, _ | _, NInf => NInf
  end.

(** [float(z)] of an int; it raises rather than return an infinity. *)
Definition float_of_int (z : Z) : result pyfloat :=
  let x := of_Q (inject_Z z) in
  if is_inf x then Raise OverflowError else Ok x.

(** [a / b] of two ints: the correctly rounded quotient. *)
Definition int_truediv (a b : Z) : result pyfloat :=
  if b =? 0 then Raise ZeroDivisionError
  else
    let x := of_Q (inject_Z a / inject_Z b) in
    if is_inf x then Raise OverflowError else Ok x.

(** [round(x, ndigits)] of a float, [0 <= ndigits]: the exact value is
    rounded to [ndigits] decimals, ties to even, and the decimal is read
    back as a float. *)
Definition py_round (x : pyfloat) (ndigits : Z) : result pyfloat :=
  match x with
  | Fin q =>
      let s := inject_Z (10 ^ ndigits) in
      let r := of_Q (inject_Z (round_half_even (q * s)) / s) in
      if is_inf r then Raise OverflowError else Ok r
  | _ => Ok x
  end.

(** [min(x, y)] as the builtin computes it: the first argument is kept
    unless a later one is smaller. *)
Definition py_min (x y : pyfloat) : pyfloat := if flt y x then y else x.

(** The same value read from Stdlib's bit-level model of binary64. *)
Definition of_spec_float (x : spec_float) : pyfloat :=
  match x with
  | S754_zero _ => Fin 0
  | S754_infinity s => if s then NInf else PInf
  | S754_nan => NaN
  | S754_finite s m e =>
      Fin (Qred ((if s then -1 else 1) * inject_Z (Zpos m) * pow2 e))
  end.

Definition Z2SF (z : Z) : spec_float := binary_normalize 53 1024 z 0 false.

End Float64.

Import Float64.

Definition py_min_int (x y : Z) : Z := if (y <? x)%Z then y else x.

(** ** Articles *)

(** A datetime counts the microseconds since [datetime.min]. *)
Definition datetime : Type := Z.

Record Article : Type := mkArticle {
  title : string;
  link : string;
  published : datetime;
  author : string;
  content : string;
  source : string;
  word_count : Z;
  comments : Z;
  quality_score : pyfloat;
  summary : string;
  is_paywalled : bool
}.

Definition set_quality_score (a : Article) (s : pyfloat) : Article :=
  mkArticle (title a) (link a) (published a) (author a) (content a) (source a)
            (word_count a) (comments a) s (summary a) (is_paywalled a).

Definition set_summary (a : Article) (s : string) : Article :=
  mkArticle (title a) (link a) (published a) (author a) (content a) (source a)
            (word_count a) (comments a) (quality_score a) s (is_paywalled a).

(** ** Scoring *)

(** [calculate_quality_score] *)
Definition calculate_quality_score (article : Article) : result pyfloat :=
  q <- int_truediv (word_count article) 2000 ;;
  c50 <- float_of_int 50 ;;
  let length_score := fmul (py_min q (Fin 1)) c50 in
  let comment_score :=
    if (0 <? comments article)%Z
    then py_min_int (comments article * 5) 50
    else 0%Z in
  cs <- float_of_int comment_score ;;
  let total_score := fadd length_score cs in
  py_round total_score 2.

(** The formula as the specification words it, with no guard on the
    comment count. *)
Definition spec_quality_score (article : Article) : result pyfloat :=
  q <- int_truediv (word_count article) 2000 ;;
  c50 <- float_of_int 50 ;;
  cs <- float_of_int (py_min_int (comments article * 5) 50) ;;
  py_round (fadd (fmul (py_min q (Fin 1)) c50) cs) 2.

(** ** Selection *)

Section SortedReverse.

Variables (A K : Type) (lt : K -> K -> bool) (key : A -> K).

(** [x] goes in front of the first element whose key is not greater
    than its own. *)
Fixpoint insert_desc (x : A) (l : list A) : list A :=
  match l with
  | [] => [x]
  | y :: l' => if lt (key x) (key y) then y :: insert_desc x l' else x :: l
  end.

(** [sorted(l, key=key, reverse=True)]: descending keys, elements of equal
    keys in the order of [l]. *)
Definition sorted_reverse (l : list A) : list A :=
  fold_right insert_desc [] l.

(** [a] may stand before [b]: the key of [a] is not smaller. *)
Definition not_below (a b : A) : Prop := lt (key a) (key b) = false.

(** The key of [a] is neither below nor above [k]. *)
Definition same_class (k : K) (a : A) : bool :=
  negb (lt (key a) k) && negb (lt k (key a)).

End SortedReverse.

Arguments insert_desc {A K} lt key x l.
Arguments sorted_reverse {A K} lt key l.
Arguments not_below {A K} lt key a b.
Arguments same_class {A K} lt key k a.

(** The index a slice bound [i] denotes in a list of [len] elements. *)
Definition slice_index (len : nat) (i : Z) : nat :=
  if (i <? 0)%Z then Z.to_nat (Z.max 0 (Z.of_nat len + i))
  else Z.to_nat (Z.min i (Z.of_nat len)).

(** [l[:i]] and [l[i:]] *)
Definition slice_to {A : Type} (l : list A) (i : Z) : list A :=
  firstn (slice_index (List.length l) i) l.

Definition slice_from {A : Type} (l : list A) (i : Z) : list A :=
  skipn (slice_index (List.length l) i) l.

(** The loop [for article in articles: article.quality_score = ...]: every
    article of the list gets its score; the first score that raises ends the
    call. *)
Definition score_article (article : Article) : result Article :=
  s <- calculate_quality_score article ;;
  Ok (set_quality_score article s).

(** [select_top_articles] *)
Definition select_top_articles (articles : list Article) (count : Z)
  : result (list Article * list Article) :=
  scored <- mapM score_article articles ;;
  let sorted_articles := sorted_reverse flt quality_score scored in
  let featured := slice_to sorted_articles count in
  let others := slice_from sorted_articles count in
  Ok (featured, others).

(** The score [select_top_articles] gives [a] is the one [b] carries. *)
Definition scored_as (a b : Article) : Prop := score_article a = Ok b.

(** [a] may stand before [b] in a list of descending scores. *)
Definition by_score_desc (a b : Article) : Prop :=
  fle (quality_score b) (quality_score a) = true.

(** The articles whose score is [k]. *)
Definition has_score (k : pyfloat) (a : Article) : bool :=
  feq (quality_score a) k.

(** A word count as [len] returns one, within the range of floats. *)
Definition word_count_in_range (a : Article) : Prop :=
  (0 <= word_count a < 2 ^ 1024)%Z.

(** ** Strings *)

(** [c.lower()] on the ASCII letters. *)
Definition lower_ascii (c : ascii) : ascii :=
  let n := nat_of_ascii c in
  if (65 <=? n)%nat && (n <=? 90)%nat then ascii_of_nat (n + 32) else c.

(** [s.lower()] *)
Fixpoint lower (s : string) : string :=
  match s with
  | EmptyString => EmptyString
  | String c s' => String (lower_ascii c) (lower s')
  end.

Fixpoint starts_with (p s : string) : bool :=
  match p, s with
  | EmptyString, _ => true
  | String a p', String b s' => Ascii.eqb a b && starts_with p' s'
  | String _ _, EmptyString => false
  end.

(** [needle in hay] *)
Fixpoint str_in (needle hay : string) : bool :=
  starts_with needle hay ||
  match hay with
  | EmptyString => false
  | String _ hay' => str_in needle hay'
  end.

(** The ASCII characters [str.split] takes for white space. *)
Definition is_space (c : ascii) : bool :=
  let n := nat_of_ascii c in
  ((9 <=? n)%nat && (n <=? 13)%nat) || ((28 <=? n)%nat && (n <=? 32)%nat).

(** [s.split()]: the maximal runs of characters that are not white space.
    [cur] is the run being read, if any. *)
Fixpoint split_from (cur : option string) (s : string) : list string :=
  match s with
  | EmptyString =>
      match cur with
      | Some w => [w]
      | None => []
      end
  | String c s' =>
      if is_space c then
        match cur with
        | Some w => w :: split_from None s'
        | None => split_from None s'
        end
      else
        match cur with
        | Some w => split_from (Some (w ++ String c EmptyString)%string) s'
        | None => split_from (Some (String c EmptyString)) s'
        end
  end.

Definition split (s : string) : list string := split_from None s.

(** ** The paywall heuristic *)

Definition paywall_indicators : list string :=
  [ "subscribe to continue reading";
    "this post is for paid subscribers";
    "upgrade to paid";
    "become a paid subscriber";
    "this content is for subscribers only";
    "premium subscribers only";
    "subscribe now to read more";
    "paywall";
    "members only";
    "paid tier" ].

(** [detect_paywall] *)
Definition detect_paywall (content title : string) : bool :=
  let content_lower := lower content in
  let title_lower := lower title in
  if existsb (fun indicator =>
                str_in indicator content_lower || str_in indicator title_lower)
             paywall_indicators
  then true
  else if (Z.of_nat (List.length (split content)) <? 50)%Z then true
  else false.

(** [needle] occurs in [hay]. *)
Definition occurs_in (needle hay : string) : Prop :=
  exists pre post, hay = (pre ++ needle ++ post)%string.

(** ** Categories *)

(** [d.get(k, default)] of a dict given by its items. *)
Fixpoint dict_get {V : Type} (d : list (string * V)) (k : string) (default : V) : V :=
  match d with
  | [] => default
  | (k', v) :: d' => if String.eqb k' k then v else dict_get d' k default
  end.

Definition source_categories : list (string * string) :=
  [
    ("4IR - Daily AI News", "AI News & Updates");
    ("The Strategy Stack", "Strategy & Business");
    ("The Business Engineer", "Strategy & Business");
    ("AI Cadence", "Strategy & Business");
    ("Inference by Sequoia Capital", "AI Research & Technical");
    ("AI Governance, Ethics and Leadership", "AI Governance & Ethics");
    ("Luiza's Newsletter", "AI Governance & Ethics");
    ("AI For Humanity", "AI Governance & Ethics");
    ("AI Newsletter", "AI Research & Technical");
    ("The Algorithmic Bridge", "AI Research & Technical");
    ("Lenny's Newsletter", "Product & Entrepreneurship");
    ("The Founders Corner¬Æ", "Product & Entrepreneurship");
    ("Design with AI", "Product & Entrepreneurship");
    ("The Product Compass", "Product & Entrepreneurship");
    ("Build to Launch", "Product & Entrepreneurship");
    ("Product with Attitude", "Product & Entrepreneurship");
    ("Leadership in Change", "Leadership & Career");
    ("AI Can Do That? üîç", "Leadership & Career");
    ("KP's Column", "Leadership & Career");
    ("The AI Creator Drop", "Development & Tools");
    ("Sabrina Ramonov üçÑ", "Development & Tools");
    ("Tech World With Milan Newsletter", "Development & Tools");
    ("The Design System Guide", "Development & Tools");
    ("AI blew my mind", "AI Research & Technical");
    ("The AI Maker", "AI Research & Technical");
    ("6 'P's in AI Pods (AI6P)", "AI Analysis & Insights")
  ].

(** [categorize_newsletter] *)
Definition categorize_newsletter (source : string) : string :=
  dict_get source_categories source "Other".

(** ** Python values and JSON documents *)

(** The values the ledger is made of.  A dict is the list of its items, in
    insertion order; its keys are strings. *)
Inductive pyval : Type :=
| VNone
| VBool (b : bool)
| VInt (z : Z)
| VFloat (x : pyfloat)
| VStr (s : string)
| VList (l : list pyval)
| VDict (d : list (string * pyval))
| VDatetime (t : datetime).

(** A JSON document, as [json.dump] writes it and [json.load] reads it. *)
Inductive json : Type :=
| JNull
| JBool (b : bool)
| JInt (z : Z)
| JFloat (x : pyfloat)
| JString (s : string)
| JArray (l : list json)
| JObject (members : list (string * json)).

(** [d[k]], if [k] is a key of [d]. *)
Fixpoint dict_lookup {V : Type} (d : list (string * V)) (k : string) : option V :=
  match d with
  | [] => None
  | (k', v) :: d' => if String.eqb k' k then Some v else dict_lookup d' k
  end.

(** [d[k] = v]: the value of an existing key is replaced where it stands, a
    new key goes last. *)
Fixpoint dict_set {V : Type} (d : list (string * V)) (k : string) (v : V)
  : list (string * V) :=
  match d with
  | [] => [(k, v)]
  | (k', v') :: d' =>
      if String.eqb k' k then (k, v) :: d' else (k', v') :: dict_set d' k v
  end.

(** The dict built from the members of a JSON object, read in order. *)
Definition dict_of_items {V : Type} (items : list (string * V)) : list (string * V) :=
  fold_left (fun d kv => dict_set d (fst kv) (snd kv)) items [].

(** An entry of a feed, as feedparser gives it.  An attribute that the
    entry does not have is [None]; [published_parsed] may be there and hold
    [None]. *)
Record Entry : Type := mkEntry {
  entry_title : option string;
  entry_link : option string;
  entry_published_parsed : option (option datetime);
  entry_author : option string;
  entry_content : option (list string);
  entry_summary : option string;
  entry_description : option string
}.

Record Feed : Type := mkFeed {
  feed_title : option string;
  feed_entries : list Entry
}.

(** The reply of the summarisation service: a list of content blocks, of
    which a text block has a [text]. *)
Record ContentBlock : Type := mkContentBlock {
  block_text : option string
}.

Record Message : Type := mkMessage {
  message_content : list ContentBlock
}.

(** The externals of the script: the clock, the network and the formatting
    functions of the Python library. *)
Record Externals : Type := mkExternals {
  (** [datetime.now()] *)
  now : datetime;
  (** [str(t)] of a datetime *)
  datetime_str : datetime -> string;
  (** [t.isoformat()] *)
  isoformat : datetime -> string;
  (** [feedparser.parse(feed_url)] *)
  parse_feed : string -> result Feed;
  (** [BeautifulSoup(content, 'html.parser').get_text().strip()] *)
  html_text : string -> string;
  (** the body of the [try] of [scrape_comments]: the page is fetched and
      searched for a comment count *)
  scrape_page : string -> result Z;
  (** [claude_client.messages.create(model=..., max_tokens=..., messages=
      [{"role": "user", "content": prompt}])] *)
  create_message : string -> Z -> string -> result Message;
  (** [t.strftime('%B %d, %Y')] *)
  format_date : datetime -> string;
  (** [t.strftime('%Y%m%d_%H%M%S')] *)
  format_timestamp : datetime -> string;
  (** the text an f-string gives for a float *)
  float_str : pyfloat -> string;
  (** the text of [{n:,}] for an int *)
  format_thousands : Z -> string;
  (** [os.getenv('CLAUDE_API_KEY')] *)
  claude_api_key : option string
}.

Section Ledger.

Variable ext : Externals.

(** The document [json.dump(v, f, indent=2, default=str)] writes: a value
    that is not JSON-native (a datetime) is replaced by its [str]. *)
Fixpoint to_json (v : pyval) : json :=
  match v with
  | VNone => JNull
  | VBool b => JBool b
  | VInt z => JInt z
  | VFloat x => JFloat x
  | VStr s => JString s
  | VList l => JArray (map to_json l)
  | VDict d => JObject (map (fun kv => (fst kv, to_json (snd kv))) d)
  | VDatetime t => JString (datetime_str ext t)
  end.

(** The value [json.load(f)] returns. *)
Fixpoint of_json (j : json) : pyval :=
  match j with
  | JNull => VNone
  | JBool b => VBool b
  | JInt z => VInt z
  | JFloat x => VFloat x
  | JString s => VStr s
  | JArray l => VList (map of_json l)
  | JObject m => VDict (dict_of_items (map (fun kv => (fst kv, of_json (snd kv))) m))
  end.

End Ledger.

(** The files of the working directory. *)
Inductive file_text : Type :=
| JsonText (j : json)
| PlainText (s : string).

Definition filesystem : Type := string -> option file_text.

Definition write_file (fs : filesystem) (name : string) (t : file_text) : filesystem :=
  fun n => if String.eqb n name then Some t else fs n.

(** A [SubstackDigest] object and the files it reads and writes. *)
Record state : Type := mkState {
  processed_file : string;
  processed_articles : pyval;
  files : filesystem
}.

Definition empty_ledger : pyval :=
  VDict [("featured", VList []); ("reviewed", VList [])].

(** [load_processed_articles] *)
Definition load_processed_articles (ext : Externals) (st : state) : result pyval :=
  match files st (processed_file st) with
  | Some (JsonText j) => Ok (of_json j)
  | Some (PlainText _) => Raise JSONDecodeError
  | None => Ok empty_ledger
  end.

(** [save_processed_articles] *)
Definition save_processed_articles (ext : Externals) (st : state) : state :=
  mkState (processed_file st) (processed_articles st)
          (write_file (files st) (processed_file st)
                      (JsonText (to_json ext (processed_articles st)))).

(** [__init__]: the object made for the ledger file
    [processed_articles_file] in the working directory [fs]. *)
Definition init_digest (ext : Externals) (processed_articles_file : string)
  (fs : filesystem) : result state :=
  match claude_api_key ext with
  | None | Some EmptyString => Raise ValueError
  | Some _ =>
      processed <-
        load_processed_articles ext (mkState processed_articles_file VNone fs) ;;
      Ok (mkState processed_articles_file processed fs)
  end.

(** A value [json.dump] writes as it is: no datetime in it, and no key
    twice in a dict. *)
Fixpoint json_native (v : pyval) : Prop :=
  match v with
  | VList l => fold_right (fun x P => json_native x /\ P) True l
  | VDict d =>
      NoDup (map fst d) /\
      fold_right (fun kv P => json_native (snd kv) /\ P) True d
  | VDatetime _ => False
  | _ => True
  end.

(** A record of the ledger, as [run_digest] appends it. *)
Definition ledger_record (title link date_processed : string) (score : pyfloat)
  : pyval :=
  VDict [("title", VStr title); ("link", VStr link);
         ("date_processed", VStr date_processed);
         ("quality_score", VFloat score)].

Definition is_ledger_record (v : pyval) : Prop :=
  exists t l d s, v = ledger_record t l d s.

(** A well-formed ledger: the two lists of records. *)
Definition well_formed_ledger (v : pyval) : Prop :=
  exists featured reviewed,
    v = VDict [("featured", VList featured); ("reviewed", VList reviewed)] /\
    Forall is_ledger_record featured /\ Forall is_ledger_record reviewed.

(** ** Fetching the feeds *)

Definition newsletter_feeds : list string :=
  [
    "https://karozieminski.substack.com/feed";
    "https://designwithai.substack.com/feed";
    "https://thestrategystack.substack.com/feed";
    "https://www.lennysnewsletter.com/feed";
    "https://kp.substack.com/feed";
    "https://inferencebysequoia.substack.com/feed";
    "https://aimaker.substack.com/feed";
    "https://www.buildtolaunch.ai/feed";
    "https://leadershipinchange10.substack.com/feed";
    "https://aiblewmymind.substack.com/feed";
    "https://ileanamarcut.substack.com/feed";
    "https://sixpeas.substack.com/feed";
    "https://aigovernancelead.substack.com/feed";
    "https://aihumanity.substack.com/feed";
    "https://ab2ai.substack.com/feed";
    "https://aicadence.co/feed";
    "https://betteconnects.substack.com/feed";
    "https://www.sabrina.dev/feed";
    "https://businessengineer.ai/feed";
    "https://www.thealgorithmicbridge.com/feed";
    "https://nlp.elvissaravia.com/feed";
    "https://www.4ir.news/feed";
    "https://techtiff.substack.com/feed";
    "https://www.luizasnewsletter.com/feed";
    "https://www.productcompass.pm/feed";
    "https://www.the-founders-corner.com/feed";
    "https://newsletter.techworld-with-milan.com/feed";
    "https://learn.thedesignsystem.guide/feed"
  ].

(** [datetime.max] *)
Definition datetime_max : Z := 3652059 * 86400000000 - 1.

(** [timedelta(days=d)] *)
Definition timedelta_days (d : Z) : result Z :=
  if (Z.abs d <=? 999999999)%Z then Ok (d * 86400000000)%Z
  else Raise OverflowError.

(** [t - delta] of a datetime and a timedelta *)
Definition datetime_sub (t : datetime) (delta : Z) : result datetime :=
  let r := (t - delta)%Z in
  if (0 <=? r)%Z && (r <=? datetime_max)%Z then Ok r else Raise OverflowError.

(** [v.get(k, default)] *)
Definition py_get (v : pyval) (k : string) (default : pyval) : result pyval :=
  match v with
  | VDict d => Ok (dict_get d k default)
  | _ => Raise AttributeError
  end.

(** The elements [for art in v] goes through. *)
Definition py_iter (v : pyval) : result (list pyval) :=
  match v with
  | VList l => Ok l
  | VDict d => Ok (map (fun kv => VStr (fst kv)) d)
  | VStr s => Ok (map (fun c => VStr (String c EmptyString)) (list_ascii_of_string s))
  | _ => Raise TypeError
  end.

(** [v[k]] for a string [k] *)
Definition py_getitem (v : pyval) (k : string) : result pyval :=
  match v with
  | VDict d =>
      match dict_lookup d k with
      | Some x => Ok x
      | None => Raise KeyError
      end
  | _ => Raise TypeError
  end.

(** [[art['link'] for art in processed_articles.get(bucket, [])]] *)
Definition ledger_links (processed : pyval) (bucket : string)
  : result (list pyval) :=
  recs <- py_get processed bucket (VList []) ;;
  arts <- py_iter recs ;;
  mapM (fun art => py_getitem art "link") arts.

(** [s in l] for a string [s] *)
Definition str_in_list (s : string) (l : list pyval) : bool :=
  existsb (fun v => match v with VStr s' => String.eqb s' s | _ => false end) l.

(** An attribute of an entry, [AttributeError] if it is not there. *)
Definition getattr {A : Type} (a : option A) : result A :=
  match a with
  | Some x => Ok x
  | None => Raise AttributeError
  end.

(** [extract_content] *)
Definition extract_content (ext : Externals) (entry : Entry) : result string :=
  content <-
    match entry_content entry with
    | Some values =>
        match values with
        | value :: _ => Ok value
        | [] => Raise IndexError
        end
    | None =>
        match entry_summary entry with
        | Some s => Ok s
        | None =>
            match entry_description entry with
            | Some d => Ok d
            | None => Ok ""
            end
        end
    end ;;
  Ok (html_text ext content).

(** [scrape_comments] *)
Definition scrape_comments (ext : Externals) (url : string) : result Z :=
  match scrape_page ext url with
  | Ok n => Ok n
  | Raise e => if is_Exception e then Ok 0%Z else Raise e
  end.

(** The body of the loop over the entries of a feed: [Ok None] when the
    entry is skipped, [Ok (Some article)] when an article is appended. *)
Definition fetch_entry (ext : Externals) (processed : pyval) (cutoff_date : datetime)
  (source_name : string) (entry : Entry) : result (option Article) :=
  pub_date <-
    match entry_published_parsed entry with
    | Some (Some t) => Ok t
    | Some None => Raise TypeError
    | None => Ok (now ext)
    end ;;
  if (pub_date <? cutoff_date)%Z then Ok None
  else
    entry_link' <- getattr (entry_link entry) ;;
    featured_links <- ledger_links processed "featured" ;;
    reviewed_links <- ledger_links processed "reviewed" ;;
    if str_in_list entry_link' (featured_links ++ reviewed_links) then Ok None
    else
      content <- extract_content ext entry ;;
      entry_title' <- getattr (entry_title entry) ;;
      comments <- scrape_comments ext entry_link' ;;
      let is_paywalled := detect_paywall content entry_title' in
      Ok (Some (mkArticle entry_title' entry_link' pub_date
                  (match entry_author entry with
                   | Some a => a
                   | None => "Unknown"
                   end)
                  content source_name
                  (Z.of_nat (List.length (split content)))
                  comments (Fin 0) "" is_paywalled)).

(** The loop over the entries: the articles appended so far, and the
    exception that ended the loop, if one did. *)
Fixpoint fetch_entries (ext : Externals) (processed : pyval) (cutoff_date : datetime)
  (source_name : string) (entries : list Entry) (articles : list Article)
  : list Article * option exn :=
  match entries with
  | [] => (articles, None)
  | entry :: entries' =>
      match fetch_entry ext processed cutoff_date source_name entry with
      | Raise e => (articles, Some e)
      | Ok None =>
          fetch_entries ext processed cutoff_date source_name entries' articles
      | Ok (Some article) =>
          fetch_entries ext processed cutoff_date source_name entries'
                        (articles ++ [article])
      end
  end.

(** The [try] block of one feed. *)
Definition fetch_feed (ext : Externals) (processed : pyval) (cutoff_date : datetime)
  (feed_url : string) (articles : list Article) : list Article * option exn :=
  match parse_feed ext feed_url with
  | Raise e => (articles, Some e)
  | Ok feed =>
      let source_name :=
        match feed_title feed with
        | Some t => t
        | None => feed_url
        end in
      fetch_entries ext processed cutoff_date source_name (feed_entries feed) articles
  end.

(** The loop over the feeds; [except Exception] goes on with the next feed. *)
Fixpoint fetch_feeds (ext : Externals) (processed : pyval) (cutoff_date : datetime)
  (feeds : list string) (articles : list Article) : result (list Article) :=
  match feeds with
  | [] => Ok articles
  | feed_url :: feeds' =>
      match fetch_feed ext processed cutoff_date feed_url articles with
      | (articles', None) =>
          fetch_feeds ext processed cutoff_date feeds' articles'
      | (articles', Some e) =>
          if is_Exception e
          then fetch_feeds ext processed cutoff_date feeds' articles'
          else Raise e
      end
  end.

(** [fetch_recent_articles] *)
Definition fetch_recent_articles (ext : Externals) (st : state) (days_back : Z)
  : result (list Article) :=
  delta <- timedelta_days days_back ;;
  cutoff_date <- datetime_sub (now ext) delta ;;
  fetch_feeds ext (processed_articles st) cutoff_date newsletter_feeds [].

(** The ledger holds the link [l], in a record of one of its two lists. *)
Definition ledger_has_link (processed : pyval) (l : string) : Prop :=
  exists d bucket recs r,
    processed = VDict d /\
    (bucket = "featured" \/ bucket = "reviewed") /\
    dict_lookup d bucket = Some (VList recs) /\
    In (VDict r) recs /\
    dict_lookup r "link" = Some (VStr l).

(** ** Summaries *)

(** The double quote. *)
Definition dq : string := String (ascii_of_nat 34) EmptyString.

Definition str_of_int (z : Z) : string := NilZero.string_of_int (Z.to_int z).

Definition str_of_nat (n : nat) : string := NilZero.string_of_uint (Nat.to_uint n).

Definition summary_prompt (article : Article) : string :=
  ("
            Please provide a concise 2-3 sentence summary of this AI/tech article:
            
            Title: " ++ title article ++ "
            Author: " ++ author article ++ "
            Source: " ++ source article ++ "
            
            Content: " ++ substring 0 4000 (content article) ++ "...
            
            Focus on the key insights, developments, or arguments presented.
            ")%string.

Definition summary_unavailable : string := "Summary unavailable.".

(** The body of the [try] of [summarize_article]. *)
Definition request_summary (ext : Externals) (article : Article) : result string :=
  let prompt := summary_prompt article in
  message <- create_message ext "claude-3-5-sonnet-20241022" 200 prompt ;;
  block <-
    match message_content message with
    | b :: _ => Ok b
    | [] => Raise IndexError
    end ;;
  getattr (block_text block).

(** [summarize_article] *)
Definition summarize_article (ext : Externals) (article : Article) : result string :=
  match request_summary ext article with
  | Ok text => Ok text
  | Raise e => if is_Exception e then Ok summary_unavailable else Raise e
  end.

(** ** The digest page *)

Definition page_head (ext : Externals) (featured_articles other_articles : list Article)
  : string :=
  ("
        <!DOCTYPE html>
        <html>
        <head>
            <title>AI Newsletter Digest - " ++ format_date ext (now ext) ++ "</title>
            <style>
                body { font-family: -apple-system, BlinkMacSystemFont, 'Segoe UI', Roboto, sans-serif; max-width: 900px; margin: 0 auto; padding: 20px; line-height: 1.6; color: #333; }
                .header { border-bottom: 2px solid #333; margin-bottom: 30px; padding-bottom: 20px; }
                .featured { background: #f8f9fa; padding: 25px; margin: 25px 0; border-radius: 10px; box-shadow: 0 2px 4px rgba(0,0,0,0.1); }
                .article { margin-bottom: 25px; }
                .title { font-size: 20px; font-weight: bold; margin-bottom: 12px; }
                .title a { text-decoration: none; color: #333; }
                .title a:hover { color: #007acc; }
                .meta { color: #666; font-size: 14px; margin-bottom: 15px; }
                .summary { line-height: 1.6; margin-bottom: 15px; font-size: 16px; }
                .metrics { font-size: 13px; color: #888; background: #f0f0f0; padding: 10px; border-radius: 5px; }
                .paywall-indicator { color: #ff6b35; font-weight: bold; font-size: 12px; }
                .other-articles { margin-top: 50px; }
                .category-section { margin-bottom: 35px; }
                .category-title { font-size: 22px; font-weight: bold; color: #333; margin-bottom: 15px; border-bottom: 2px solid #007acc; padding-bottom: 8px; text-transform: uppercase; letter-spacing: 1px; }
                .category-articles { display: grid; gap: 12px; }
                .other-article-item { padding: 15px; background: #f8f9fa; border-radius: 6px; }
                .other-article-item:hover { background: #f0f0f0; }
                .other-title { font-weight: bold; margin-bottom: 5px; }
                .other-title a { text-decoration: none; color: #333; }
                .other-title a:hover { color: #007acc; }
                .other-meta { font-size: 12px; color: #666; }
                .footer { margin-top: 50px; padding-top: 20px; border-top: 1px solid #ddd; color: #666; font-size: 14px; text-align: center; }
            </style>
        </head>
        <body>
            <div class=" ++ dq ++ "header" ++ dq ++ ">
                <h1>ü§ñ AI Newsletter Digest</h1>
                <p><strong>" ++ format_date ext (now ext) ++ "</strong> | " ++ str_of_nat (List.length featured_articles) ++ " Featured Articles | " ++ str_of_nat (List.length other_articles) ++ " Additional Articles</p>
                <p><small>Automatically curated from leading AI newsletters based on content quality and engagement</small></p>
            </div>
        ")%string.

Definition featured_heading : string :=
  ("<h2>üìö Featured Articles</h2>")%string.

Definition render_featured (ext : Externals) (article : Article) : string :=
  let paywall_indicator :=
    if is_paywalled article
    then ("<span class=" ++ dq ++ "paywall-indicator" ++ dq ++ ">üîí PAYWALLED</span>")%string
    else "" in
  ("
            <div class=" ++ dq ++ "featured" ++ dq ++ ">
                <div class=" ++ dq ++ "article" ++ dq ++ ">
                    <div class=" ++ dq ++ "title" ++ dq ++ "><a href=" ++ dq ++ link article ++ dq ++ " target=" ++ dq ++ "_blank" ++ dq ++ ">" ++ title article ++ "</a> " ++ paywall_indicator ++ "</div>
                    <div class=" ++ dq ++ "meta" ++ dq ++ ">By " ++ author article ++ " | " ++ source article ++ " | " ++ format_date ext (published article) ++ "</div>
                    <div class=" ++ dq ++ "summary" ++ dq ++ ">" ++ summary article ++ "</div>
                    <div class=" ++ dq ++ "metrics" ++ dq ++ ">Quality Score: " ++ float_str ext (quality_score article) ++ " | Words: " ++ format_thousands ext (word_count article) ++ " | üí¨ " ++ str_of_int (comments article) ++ " comments</div>
                </div>
            </div>
            ")%string.

Definition other_open : string :=
  ("
            <div class=" ++ dq ++ "other-articles" ++ dq ++ ">
                <h2>üìù Additional Articles by Category</h2>
            ")%string.

Definition section_head (category : string) (articles : list Article) : string :=
  ("
                <div class=" ++ dq ++ "category-section" ++ dq ++ ">
                    <div class=" ++ dq ++ "category-title" ++ dq ++ ">" ++ category ++ " (" ++ str_of_nat (List.length articles) ++ " articles)</div>
                    <div class=" ++ dq ++ "category-articles" ++ dq ++ ">
                ")%string.

Definition render_other (article : Article) : string :=
  let paywall_indicator :=
    if is_paywalled article
    then (" üîí")%string
    else "" in
  ("
                    <div class=" ++ dq ++ "other-article-item" ++ dq ++ ">
                        <div class=" ++ dq ++ "other-title" ++ dq ++ "><a href=" ++ dq ++ link article ++ dq ++ " target=" ++ dq ++ "_blank" ++ dq ++ ">" ++ title article ++ "</a>" ++ paywall_indicator ++ "</div>
                        <div class=" ++ dq ++ "other-meta" ++ dq ++ ">" ++ author article ++ " | " ++ source article ++ " | üí¨ " ++ str_of_int (comments article) ++ " comments</div>
                    </div>
                    ")%string.

Definition page_foot : string :=
  ("
        <div class=" ++ dq ++ "footer" ++ dq ++ ">
            <p>Generated automatically by AI Newsletter Digest</p>
            <p><small>Quality scoring based on content length and community engagement</small></p>
        </div>
        </body>
        </html>
        ")%string.

Definition concat_strings (l : list string) : string :=
  fold_right append "" l.

(** The two statements on [categorized] in the loop over the other
    articles: the list of [category], empty if [category] is new, gets
    [article] appended. *)
Fixpoint group_add (categorized : list (string * list Article)) (category : string)
  (article : Article) : list (string * list Article) :=
  match categorized with
  | [] => [(category, [article])]
  | (c, l) :: rest =>
      if String.eqb c category then (c, l ++ [article]) :: rest
      else (c, l) :: group_add rest category article
  end.

(** The dict [categorized] after the loop. *)
Definition categorize_all (other_articles : list Article)
  : list (string * list Article) :=
  fold_left (fun categorized article =>
               group_add categorized (categorize_newsletter (source article)) article)
            other_articles [].

Definition section_size (item : string * list Article) : nat :=
  List.length (snd item).

(** [sorted(categorized.items(), key=lambda x: len(x[1]), reverse=True)] *)
Definition sorted_categories (other_articles : list Article)
  : list (string * list Article) :=
  sorted_reverse Nat.ltb section_size (categorize_all other_articles).

(** [articles.sort(key=lambda x: x.quality_score, reverse=True)] *)
Definition sort_by_score (articles : list Article) : list Article :=
  sorted_reverse flt quality_score articles.

(** The sections of the page: each category with its articles in the order
    they are written. *)
Definition rendered_sections (other_articles : list Article)
  : list (string * list Article) :=
  map (fun item => (fst item, sort_by_score (snd item)))
      (sorted_categories other_articles).

(** The body of the loop over [sorted_categories]. *)
Definition render_section (item : string * list Article) : string :=
  let category := fst item in
  let articles := snd item in
  (section_head category articles
     ++ concat_strings (map render_other (sort_by_score articles))
     ++ "</div></div>")%string.

(** [generate_digest_html] *)
Definition generate_digest_html (ext : Externals)
  (featured_articles other_articles : list Article) : string :=
  (page_head ext featured_articles other_articles
     ++ featured_heading
     ++ concat_strings (map (render_featured ext) featured_articles)
     ++ match other_articles with
        | [] => ""
        | _ :: _ =>
            other_open
              ++ concat_strings
                   (map render_section (sorted_categories other_articles))
              ++ "</div>"
        end
     ++ page_foot)%string.

(** An item of [categorized] is sound: it has an article, and its articles
    are of its category. *)
Definition sound_item (item : string * list Article) : Prop :=
  snd item <> [] /\
  Forall (fun a => categorize_newsletter (source a) = fst item) (snd item).

(** The text of a section whose articles stand in the order they are
    written. *)
Definition render_sorted_section (item : string * list Article) : string :=
  (section_head (fst item) (snd item)
     ++ concat_strings (map render_other (snd item))
     ++ "</div></div>")%string.

(** The reply of the service has no text to give. *)
Definition malformed (message : Message) : Prop :=
  match message_content message with
  | [] => True
  | block :: _ => block_text block = None
  end.

(** The sections may stand in this order: the first has at least as many
    articles as the second. *)
Definition by_size_desc (a b : string * list Article) : Prop :=
  (List.length (snd b) <= List.length (snd a))%nat.

(** ** The run *)

(** [processed[bucket].append(record)] *)
Definition ledger_append (processed : pyval) (bucket : string) (record : pyval)
  : result pyval :=
  match processed with
  | VDict d =>
      match dict_lookup d bucket with
      | Some (VList l) => Ok (VDict (dict_set d bucket (VList (l ++ [record]))))
      | Some _ => Raise AttributeError
      | None => Raise KeyError
      end
  | _ => Raise TypeError
  end.

(** The record [run_digest] keeps of an article. *)
Definition record_of (ext : Externals) (article : Article) : pyval :=
  ledger_record (title article) (link article) (isoformat ext (now ext))
                (quality_score article).

(** One of the two loops that update the ledger: the ledger as the loop
    leaves it, and the exception that ended it, if one did. *)
Fixpoint record_all (ext : Externals) (processed : pyval) (bucket : string)
  (articles : list Article) : pyval * option exn :=
  match articles with
  | [] => (processed, None)
  | article :: articles' =>
      match ledger_append processed bucket (record_of ext article) with
      | Ok processed' => record_all ext processed' bucket articles'
      | Raise e => (processed, Some e)
      end
  end.

(** The loop [for article in featured: article.summary = ...]. *)
Definition summarize_all (ext : Externals) (featured : list Article)
  : result (list Article) :=
  mapM (fun article =>
          s <- summarize_article ext article ;;
          Ok (set_summary article s))
       featured.

Definition set_processed_articles (st : state) (processed : pyval) : state :=
  mkState (processed_file st) processed (files st).

Definition set_files (st : state) (fs : filesystem) : state :=
  mkState (processed_file st) (processed_articles st) fs.

(** [run_digest]: the state it leaves, and the file name it returns
    ([None] when it ends early) or the exception it raises. *)
Definition run_digest (ext : Externals) (st : state) (days_back featured_count : Z)
  : state * result (option string) :=
  match fetch_recent_articles ext st days_back with
  | Raise e => (st, Raise e)
  | Ok [] => (st, Ok None)
  | Ok ((_ :: _) as articles) =>
      match select_top_articles articles featured_count with
      | Raise e => (st, Raise e)
      | Ok (featured, others) =>
          match summarize_all ext featured with
          | Raise e => (st, Raise e)
          | Ok featured' =>
              let html_digest := generate_digest_html ext featured' others in
              let timestamp := format_timestamp ext (now ext) in
              let digest_filename := ("ai_digest_" ++ timestamp ++ ".html")%string in
              let st1 :=
                set_files st (write_file (files st) digest_filename
                                         (PlainText html_digest)) in
              match record_all ext (processed_articles st1) "featured" featured' with
              | (processed, Some e) => (set_processed_articles st1 processed, Raise e)
              | (processed, None) =>
                  match record_all ext processed "reviewed" others with
                  | (processed', Some e) =>
                      (set_processed_articles st1 processed', Raise e)
                  | (processed', None) =>
                      (save_processed_articles ext
                         (set_processed_articles st1 processed'),
                       Ok (Some digest_filename))
                  end
              end
          end
      end
  end.

(** Sample data for the closed instances of the theorems. *)
Definition sample_article (wc c : Z) : Article :=
  mkArticle "t" "l" 0 "a" "c" "s" wc c (Fin 0) "" false.

Definition sample_named (t : string) (wc c : Z) : Article :=
  mkArticle t "l" 0 "a" "c" "s" wc c (Fin 0) "" false.

Definition sample_articles : list Article :=
  [sample_named "a" 100 0; sample_named "b" 2000 10;
   sample_named "c" 100 0; sample_named "d" 500 2].

Definition sample_now : datetime := 63900000000000000.

Definition sample_entry (l : string) : Entry :=
  mkEntry (Some "An entry") (Some l) (Some (Some sample_now)) (Some "An author")
          None (Some "a summary of the entry") None.

Definition sample_feed : Feed :=
  mkFeed (Some "The Strategy Stack")
         [sample_entry "https://example.com/seen";
          sample_entry "https://example.com/new"].

(** Externals for the closed instances: one feed answers, the others fail;
    the summarisation service gives [reply]. *)
Definition sample_ext (reply : result Message) : Externals :=
  mkExternals sample_now
    (fun _ => "2025-01-01 00:00:00")
    (fun _ => "2025-01-01T00:00:00")
    (fun url =>
       if String.eqb url "https://thestrategystack.substack.com/feed"
       then Ok sample_feed else Raise ConnectionError)
    (fun s => s)
    (fun _ => Ok 3%Z)
    (fun _ _ _ => reply)
    (fun _ => "January 01, 2025")
    (fun _ => "20250101_000000")
    (fun _ => "0.0")
    str_of_int
    (Some "a key").

Definition offline : Externals := sample_ext (Raise ConnectionError).

Definition online : Externals :=
  sample_ext (Ok (mkMessage [mkContentBlock (Some "A summary.")])).

Definition sample_ledger : pyval :=
  VDict [("featured",
          VList [ledger_record "Seen" "https://example.com/seen"
                               "2024-12-25T00:00:00" (Fin 50)]);
         ("reviewed", VList [])].

Definition full_ledger : pyval :=
  VDict [("featured",
          VList [ledger_record "Seen" "https://example.com/seen"
                               "2024-12-25T00:00:00" (Fin 50)]);
         ("reviewed",
          VList [ledger_record "New" "https://example.com/new"
                               "2024-12-25T00:00:00" (Fin 5)])].

Definition no_files : filesystem := fun _ => None.

Definition sample_state : state :=
  mkState "processed_articles.json" sample_ledger no_files.

Definition idle_state : state :=
  mkState "processed_articles.json" full_ledger no_files.

Definition sample_other (t src : string) (score : Q) : Article :=
  mkArticle t "l" 0 "a" "c" src 0 0 (Fin score) "" false.

Definition sample_others : list Article :=
  [sample_other "a" "AI Cadence" 10; sample_other "b" "An unlisted source" 30;
   sample_other "c" "The Strategy Stack" 20; sample_other "d" "Another one" 30;
   sample_other "e" "The Algorithmic Bridge" 40; sample_other "f" "Last" 5].

(** The externals raise only what [except Exception] catches: nothing
    interrupts the run. *)
Definition uninterrupted (ext : Externals) : Prop :=
  (forall url e, parse_feed ext url = Raise e -> is_Exception e = true) /\
  (forall url e, scrape_page ext url = Raise e -> is_Exception e = true).

(** The division of two small ints, as Stdlib's bit-level binary64
    computes it. *)
Definition spec_float_div (a b : Z) : pyfloat :=
  of_spec_float (SFdiv 53 1024 (Z2SF a) (Z2SF b)).

Definition spec_float_mul (a b : Z) (c : Z) : pyfloat :=
  of_spec_float (SFmul 53 1024 (SFdiv 53 1024 (Z2SF a) (Z2SF b)) (Z2SF c)).

Definition same_float (x y : pyfloat) : bool :=
  match x, y with
  | NaN, NaN => true
  | _, _ => feq x y
  end.

Definition agree_on (wc : Z) : bool :=
  match int_truediv wc 2000, float_of_int 50 with
  | Ok q, Ok c50 =>
      same_float q (spec_float_div wc 2000)
      && same_float (fmul q c50) (spec_float_mul wc 2000 50)
  | _, _ => false
  end.

(** ** The comment count of a page *)

(** What [scrape_comments] gets of a page: the text [soup.get_text()] and,
    for the links [soup.find_all('a', href=re.compile(r'#?comments?',
    re.IGNORECASE))] finds, their texts [link.get_text()] in the order of the
    page. *)
Record Page : Type := mkPage {
  page_text : string;
  comment_link_texts : list string
}.

(** The externals of [scrape_comments]: the page [requests.get] and
    BeautifulSoup give for a URL, and [sys.get_int_max_str_digits()], the
    number of digits from which [int] refuses a string (0: no limit). *)
Record Scraper : Type := mkScraper {
  get_page : string -> result Page;
  int_max_str_digits : nat
}.

(** [\d], on ASCII *)
Definition is_digit (c : ascii) : bool :=
  let n := nat_of_ascii c in (48 <=? n)%nat && (n <=? 57)%nat.

(** The longest run of digits [s] starts with, and what follows it. *)
Fixpoint span_digits (s : string) : string * string :=
  match s with
  | String c s' =>
      if is_digit c then let (d, r) := span_digits s' in (String c d, r)
      else (EmptyString, s)
  | EmptyString => (EmptyString, EmptyString)
  end.

(** [s] without the white space it starts with. *)
Fixpoint skip_spaces (s : string) : string :=
  match s with
  | String c s' => if is_space c then skip_spaces s' else s
  | EmptyString => EmptyString
  end.

(** [s] without the prefix [word], letters compared without case; [word] is
    in lower case. *)
Fixpoint strip_word (word s : string) : option string :=
  match word, s with
  | EmptyString, _ => Some s
  | String w word', String c s' =>
      if Ascii.eqb (lower_ascii c) w then strip_word word' s' else None
  | String _ _, EmptyString => None
  end.

(** [s?] *)
Definition strip_optional_s (s : string) : string :=
  match s with
  | String c s' => if Ascii.eqb (lower_ascii c) "s" then s' else s
  | EmptyString => s
  end.

Definition starts_with_space (s : string) : bool :=
  match s with
  | String c _ => is_space c
  | EmptyString => false
  end.

(** A match of [(\d+)\s+<word>s?(?:\s|$)] at the start of [s], without case:
    the group and the length of the match.  Each repetition of the pattern
    can match in one way only, so no other way is tried. *)
Definition match_count_word (word s : string) : option (string * nat) :=
  let (d, r1) := span_digits s in
  match d with
  | EmptyString => None
  | String _ _ =>
      if starts_with_space r1 then
        match strip_word word (skip_spaces r1) with
        | Some r3 =>
            match strip_optional_s r3 with
            | EmptyString => Some (d, String.length s)
            | String c r5 =>
                if is_space c
                then Some (d, (String.length s - String.length r5)%nat)
                else None
            end
        | None => None
        end
      else None
  end.

(** A match of [<word>s?\s*\((\d+)\)] at the start of [s], without case. *)
Definition match_word_count (word s : string) : option (string * nat) :=
  match strip_word word s with
  | Some r1 =>
      match skip_spaces (strip_optional_s r1) with
      | String "(" r3 =>
          let (d, r4) := span_digits r3 in
          match d, r4 with
          | String _ _, String ")" r5 =>
              Some (d, (String.length s - String.length r5)%nat)
          | _, _ => None
          end
      | _ => None
      end
  | None => None
  end.

(** [re.findall]: the groups of the matches met from left to right, the
    search going on where a match ends; [skip] characters are still to pass
    from the last match. *)
Fixpoint findall_from (pattern : string -> option (string * nat)) (skip : nat)
  (s : string) : list string :=
  match s with
  | EmptyString => []
  | String _ s' =>
      match skip with
      | S k => findall_from pattern k s'
      | O =>
          match pattern s with
          | Some (d, len) => d :: findall_from pattern (len - 1) s'
          | None => findall_from pattern 0 s'
          end
      end
  end.

Definition findall (pattern : string -> option (string * nat)) (s : string)
  : list string :=
  findall_from pattern 0 s.

(** [re.search(r'(\d+)', s)]: the first run of digits. *)
Fixpoint search_digits (s : string) : option string :=
  match s with
  | EmptyString => None
  | String c s' => if is_digit c then Some (fst (span_digits s)) else search_digits s'
  end.

Definition comment_patterns : list (string -> option (string * nat)) :=
  [ match_count_word "comment";
    match_count_word "replie";
    match_word_count "comment";
    match_word_count "replie" ].

Definition digit_value (c : ascii) : Z := Z.of_nat (nat_of_ascii c - 48).

(** The number a string of digits writes. *)
Definition int_of_digits (s : string) : Z :=
  fold_left (fun n c => (10 * n + digit_value c)%Z) (list_ascii_of_string s) 0%Z.

(** [int(s)] of a string of digits *)
Definition py_int (limit : nat) (s : string) : result Z :=
  if (0 <? limit)%nat && (limit <? String.length s)%nat then Raise ValueError
  else Ok (int_of_digits s).

(** [max] of a list that is not empty *)
Definition py_max_int (x : Z) (l : list Z) : Z :=
  fold_left (fun m y => if (m <? y)%Z then y else m) l x.

(** The loop over [comment_patterns]: the count of the first pattern that
    matches, if one does. *)
Fixpoint first_pattern_count (limit : nat)
  (patterns : list (string -> option (string * nat))) (text : string)
  : result (option Z) :=
  match patterns with
  | [] => Ok None
  | pattern :: patterns' =>
      match findall pattern text with
      | [] => first_pattern_count limit patterns' text
      | m :: ms =>
          n <- py_int limit m ;;
          ns <- mapM (py_int limit) ms ;;
          Ok (Some (py_max_int n ns))
      end
  end.

(** The loop over [comment_links]: the number of the first link text that
    has one. *)
Fixpoint first_link_count (limit : nat) (texts : list string) : result (option Z) :=
  match texts with
  | [] => Ok None
  | link_text :: texts' =>
      match search_digits link_text with
      | Some d => n <- py_int limit d ;; Ok (Some n)
      | None => first_link_count limit texts'
      end
  end.

(** The body of the [try] of [scrape_comments]. *)
Definition scrape_try (scraper : Scraper) (url : string) : result Z :=
  page <- get_page scraper url ;;
  found <- first_pattern_count (int_max_str_digits scraper) comment_patterns
                               (page_text page) ;;
  match found with
  | Some comments => Ok comments
  | None =>
      linked <- first_link_count (int_max_str_digits scraper)
                                 (comment_link_texts page) ;;
      match linked with
      | Some comments => Ok comments
      | None => Ok 0%Z
      end
  end.

(** The externals scrape with [scraper]. *)
Definition scrapes (ext : Externals) (scraper : Scraper) : Prop :=
  forall url, scrape_page ext url = scrape_try scraper url.

(** [ext] with the pages of [scraper]. *)
Definition with_scraper (ext : Externals) (scraper : Scraper) : Externals :=
  mkExternals (now ext) (datetime_str ext) (isoformat ext) (parse_feed ext)
              (html_text ext) (scrape_try scraper) (create_message ext)
              (format_date ext) (format_timestamp ext) (float_str ext)
              (format_thousands ext) (claude_api_key ext).

Definition all_digits (s : string) : Prop :=
  Forall (fun c => is_digit c = true) (list_ascii_of_string s).

(** [d] is a run of digits that stands in [s]. *)
Definition digits_of (s d : string) : Prop := all_digits d /\ occurs_in d s.

(** ** What a fetched article is made of *)

(** The name [fetch_recent_articles] gives the source of a feed. *)
Definition source_name_of (feed : Feed) (feed_url : string) : string :=
  match feed_title feed with
  | Some t => t
  | None => feed_url
  end.

(** The fields of [a] that are read from [entry]. *)
Definition made_from (ext : Externals) (source_name : string) (entry : Entry)
  (a : Article) : Prop :=
  entry_link entry = Some (link a) /\
  entry_title entry = Some (title a) /\
  author a = match entry_author entry with
             | Some x => x
             | None => "Unknown"
             end /\
  source a = source_name /\
  published a = match entry_published_parsed entry with
                | Some (Some t) => t
                | _ => now ext
                end /\
  extract_content ext entry = Ok (content a).

(** The fields of [a] that are computed, and the age of [a]. *)
Definition as_fetched (ext : Externals) (cutoff_date : datetime) (a : Article)
  : Prop :=
  word_count a = Z.of_nat (List.length (split (content a))) /\
  scrape_comments ext (link a) = Ok (comments a) /\
  is_paywalled a = detect_paywall (content a) (title a) /\
  quality_score a = Fin 0 /\
  summary a = "" /\
  (cutoff_date <= published a)%Z.

(** An entry of one of the feeds, whose feed was read. *)
Definition entry_of_feeds (ext : Externals) (feeds : list string)
  (source_name : string) (entry : Entry) : Prop :=
  exists feed_url feed,
    In feed_url feeds /\ parse_feed ext feed_url = Ok feed /\
    In entry (feed_entries feed) /\ source_name = source_name_of feed feed_url.

(** A feed whose second entry has a date that was not parsed. *)
Definition undated_entry : Entry :=
  mkEntry (Some "Undated") (Some "https://example.com/undated") (Some None)
          None None (Some "a summary") None.

Definition undated_feed : Feed :=
  mkFeed (Some "The Strategy Stack")
         [sample_entry "https://example.com/first"; undated_entry;
          sample_entry "https://example.com/last"].

Definition undated : Externals :=
  mkExternals sample_now
    (fun _ => "2025-01-01 00:00:00")
    (fun _ => "2025-01-01T00:00:00")
    (fun url =>
       if String.eqb url "https://thestrategystack.substack.com/feed"
       then Ok undated_feed else Raise ConnectionError)
    (fun s => s)
    (fun _ => Ok 3%Z)
    (fun _ _ _ => Raise ConnectionError)
    (fun _ => "January 01, 2025")
    (fun _ => "20250101_000000")
    (fun _ => "0.0")
    str_of_int
    (Some "a key").

(** ** The link of an article in the page *)

(** The anchor that the page writes for an article, its link and its title
    as they are. *)
Definition anchor (a : Article) : string :=
  ("<a href=" ++ dq ++ link a ++ dq ++ " target=" ++ dq ++ "_blank" ++ dq ++ ">"
     ++ title a ++ "</a>")%string.

(** The block of the summary of a featured article. *)
Definition summary_block (a : Article) : string :=
  ("<div class=" ++ dq ++ "summary" ++ dq ++ ">" ++ summary a ++ "</div>")%string.

(** A ledger file that holds the empty object. *)
Definition bare_state : state :=
  mkState "processed_articles.json" (VDict []) no_files.

(** ** Summaries, categories and entries, for the statements *)

(** [b] is [a] with a summary: the text of the first block of the reply to
    the prompt of [a], or the placeholder. *)
Definition summarised (ext : Externals) (a b : Article) : Prop :=
  b = set_summary a (summary b) /\
  (summary b = summary_unavailable \/
   exists message block blocks,
     create_message ext "claude-3-5-sonnet-20241022" 200 (summary_prompt a)
     = Ok message /\
     message_content message = block :: blocks /\
     block_text block = Some (summary b)).

(** The service raises nothing but what [except Exception] catches. *)
Definition quiet_service (ext : Externals) : Prop :=
  forall model max_tokens prompt e,
    create_message ext model max_tokens prompt = Raise e -> is_Exception e = true.

(** The categories of the table, and the default. *)
Definition all_categories : list string :=
  ["AI News & Updates"; "Strategy & Business"; "AI Research & Technical";
   "AI Governance & Ethics"; "Product & Entrepreneurship"; "Leadership & Career";
   "Development & Tools"; "AI Analysis & Insights"; "Other"].

(** The articles one entry adds to the list. *)
Definition articles_of_entry (ext : Externals) (processed : pyval)
  (cutoff_date : datetime) (source_name : string) (entry : Entry) : list Article :=
  match fetch_entry ext processed cutoff_date source_name entry with
  | Ok (Some article) => [article]
  | _ => []
  end.

(** A ledger file with a key that stands twice. *)
Definition twice_files : filesystem :=
  write_file no_files "processed_articles.json"
    (JsonText (JObject [("featured", JArray [JInt 1]); ("extra", JNull);
                        ("featured", JString "twice")])).

(** [int] takes the string [m] of digits: it is within the limit on the
    number of digits, or there is no limit. *)
Definition within_int_limit (limit : nat) (m : string) : Prop :=
  limit = 0%nat \/ (String.length m <= limit)%nat.

(** [pattern] is the first of the patterns of [scrape_comments] that
    matches in [text], and [matches] is what [re.findall] gives for it. *)
Definition first_matching (pattern : string -> option (string * nat))
  (text : string) (matches : list string) : Prop :=
  exists before after,
    comment_patterns = before ++ pattern :: after /\
    Forall (fun p => findall p text = []) before /\
    findall pattern text = matches /\ matches <> [].



Definition sample_page : Page :=
  mkPage "A post. 12 Comments (3) and then 7 comments" ["5 replies"].

(** A scraper for the closed instances: one page answers, the others fail. *)
Definition sample_scraper : Scraper :=
  mkScraper (fun url =>
               if String.eqb url "https://example.com/new" then Ok sample_page
               else Raise ConnectionError)
            4300.

Definition scraping : Externals := with_scraper online sample_scraper.

(** A content of sixty words. *)
Definition long_text : string :=
  concat_strings (repeat "word " 60).

(* ================================================================== *)
(** * Part II: properties *)
(* ================================================================== *)

(** ** Rounding to binary64 is monotone *)

Module Float64Facts.

Import Float64.
Open Scope Q_scope.

Lemma pow2_pos e : 0 < pow2 e.
Proof. apply Qpower_0_lt. reflexivity. Qed.

Lemma pow2_add a b : pow2 (a + b) == pow2 a * pow2 b.
Proof. apply Qpower_plus. discriminate. Qed.

Lemma pow2_le a b : (a <= b)%Z -> pow2 a <= pow2 b.
Proof. intros. apply Qpower_le_compat_l; [assumption | discriminate]. Qed.

Lemma pow2_lt a b : (a < b)%Z -> pow2 a < pow2 b.
Proof. intros. apply Qpower_lt_compat_l; [assumption | reflexivity]. Qed.

Lemma pow2_succ a : pow2 (a + 1) == 2 * pow2 a.
Proof. rewrite pow2_add. unfold pow2 at 2. rewrite Qpower_1_r. ring. Qed.

Lemma pow2_inject k : (0 <= k)%Z -> inject_Z (2 ^ k) == pow2 k.
Proof. intros. unfold pow2. rewrite Zpower_Qpower by assumption. reflexivity. Qed.

Lemma floor_bounds q : inject_Z (Qfloor q) <= q < inject_Z (Qfloor q) + 1.
Proof.
  split. apply Qfloor_le.
  pose proof (Qlt_floor q). rewrite inject_Z_plus in H. exact H.
Qed.

Lemma round_half_even_bounds q :
  (Qfloor q <= round_half_even q <= Qfloor q + 1)%Z.
Proof.
  unfold round_half_even.
  destruct (Qcompare _ _); try destruct (Z.even _); lia.
Qed.

Lemma round_half_even_mono x y : x <= y -> (round_half_even x <= round_half_even y)%Z.
Proof.
  intros Hxy.
  pose proof (Qfloor_resp_le _ _ Hxy) as Hf.
  destruct (Z.eq_dec (Qfloor x) (Qfloor y)) as [E|N].
  - unfold round_half_even. rewrite <- E.
    destruct (Qcompare_spec (x - inject_Z (Qfloor x)) (1#2)) as [H1|H1|H1];
    destruct (Qcompare_spec (y - inject_Z (Qfloor x)) (1#2)) as [H2|H2|H2];
    try destruct (Z.even (Qfloor x)); try lia; exfalso; lra.
  - assert (Qfloor x + 1 <= Qfloor y)%Z by lia.
    pose proof (round_half_even_bounds x) as [_ Hx].
    pose proof (round_half_even_bounds y) as [Hy _]. lia.
Qed.

Lemma round_half_even_inject n : round_half_even (inject_Z n) = n.
Proof.
  unfold round_half_even. rewrite Qfloor_Z.
  destruct (Qcompare_spec (inject_Z n - inject_Z n) (1#2)) as [H|H|H]; try reflexivity; exfalso; lra.
Qed.

Lemma ilog2_spec q : 0 < q -> pow2 (ilog2 q) <= q < pow2 (ilog2 q + 1).
Proof.
  intros Hq. destruct q as [n d]. unfold ilog2. cbn [Qnum Qden].
  assert (Hn : (0 < n)%Z) by (unfold Qlt in Hq; simpl in Hq; lia).
  set (ln := Z.log2 n). set (ld := Z.log2 (Z.pos d)).
  assert (Hln : (2 ^ ln <= n < 2 ^ (ln + 1))%Z).
  { pose proof (Z.log2_spec n Hn). unfold ln. replace (Z.log2 n + 1)%Z with (Z.succ (Z.log2 n)) by lia. lia. }
  assert (Hld : (2 ^ ld <= Z.pos d < 2 ^ (ld + 1))%Z).
  { pose proof (Z.log2_spec (Z.pos d) eq_refl). unfold ld. replace (Z.log2 (Z.pos d) + 1)%Z with (Z.succ (Z.log2 (Z.pos d))) by lia. lia. }
  assert (Hln0 : (0 <= ln)%Z) by apply Z.log2_nonneg.
  assert (Hld0 : (0 <= ld)%Z) by apply Z.log2_nonneg.
  assert (Qn : pow2 ln <= inject_Z n < pow2 (ln + 1)).
  { rewrite <- !pow2_inject by lia. split; [rewrite <- Zle_Qle | rewrite <- Zlt_Qlt]; lia. }
  assert (Qd : pow2 ld <= inject_Z (Z.pos d) < pow2 (ld + 1)).
  { rewrite <- !pow2_inject by lia. split; [rewrite <- Zle_Qle | rewrite <- Zlt_Qlt]; lia. }
  assert (Hq' : n # d == inject_Z n / inject_Z (Z.pos d)) by apply Qmake_Qdiv.
  assert (Hdpos : 0 < inject_Z (Z.pos d)) by (rewrite <- (Zlt_Qlt 0); lia).
  assert (Hmul : (n # d) * inject_Z (Z.pos d) == inject_Z n).
  { rewrite Hq'. field. lra. }
  pose proof (pow2_pos ln). pose proof (pow2_pos ld). pose proof (pow2_pos (ln - ld)).
  pose proof (pow2_pos (ln - ld - 1)).
  assert (E1 : pow2 ln == pow2 (ln - ld) * pow2 ld).
  { rewrite <- pow2_add. replace (ln - ld + ld)%Z with ln by lia. reflexivity. }
  assert (E2 : pow2 (ln - ld + 1) == 2 * pow2 (ln - ld)) by apply pow2_succ.
  assert (E3 : pow2 (ln - ld) == 2 * pow2 (ln - ld - 1)).
  { rewrite <- pow2_succ. replace (ln - ld - 1 + 1)%Z with (ln - ld)%Z by lia. reflexivity. }
  assert (E4 : pow2 (ld + 1) == 2 * pow2 ld) by apply pow2_succ.
  assert (E5 : pow2 (ln + 1) == 2 * pow2 ln) by apply pow2_succ.
  destruct (Qle_bool (pow2 (ln - ld)) (n # d)) eqn:Hb.
  - apply Qle_bool_iff in Hb. split; [exact Hb|].
    rewrite E2. apply Qnot_le_lt. intro Hc.
    assert (2 * pow2 (ln - ld) * pow2 ld <= (n # d) * inject_Z (Z.pos d)).
    { apply Qmult_le_compat_nonneg; split; lra. }
    rewrite Hmul in H3. lra.
  - assert (Hlt : (n # d) < pow2 (ln - ld)).
    { apply Qnot_le_lt. intro Hc. apply Qle_bool_iff in Hc. congruence. }
    replace (ln - ld - 1 + 1)%Z with (ln - ld)%Z by lia. split; [|exact Hlt].
    apply Qnot_lt_le. intro Hc.
    assert ((n # d) * inject_Z (Z.pos d) <= pow2 (ln - ld - 1) * pow2 (ld + 1)).
    { apply Qmult_le_compat_nonneg; split; lra. }
    rewrite Hmul in H3.
    assert (inject_Z n < pow2 ln); [|lra].
    assert (pow2 (ln - ld - 1) * pow2 (ld + 1) == pow2 ln).
    { rewrite <- pow2_add. replace (ln - ld - 1 + (ld + 1))%Z with ln by lia. reflexivity. }
    (* need strictness *)
    apply Qle_lt_trans with ((n # d) * pow2 (ld + 1)).
    + rewrite <- Hmul. apply Qmult_le_l. exact Hq. lra.
    + rewrite <- H4. apply Qmult_lt_compat_r. apply pow2_pos. exact Hc.
Qed.

Lemma ilog2_mono x y : 0 < x -> x <= y -> (ilog2 x <= ilog2 y)%Z.
Proof.
  intros Hx Hxy.
  destruct (ilog2_spec x Hx) as [Lx _].
  assert (Hy : 0 < y) by lra.
  destruct (ilog2_spec y Hy) as [_ Uy].
  destruct (Z_le_gt_dec (ilog2 x) (ilog2 y)) as [L|G]; [exact L|exfalso].
  assert (pow2 (ilog2 y + 1) <= pow2 (ilog2 x)) by (apply pow2_le; lia).
  lra.
Qed.

Lemma ulp_exp_mono x y : 0 < x -> x <= y -> (ulp_exp x <= ulp_exp y)%Z.
Proof. intros. unfold ulp_exp. pose proof (ilog2_mono x y H H0). lia. Qed.

Lemma Qdiv_pow2_le x y e : x <= y -> x / pow2 e <= y / pow2 e.
Proof.
  intros. unfold Qdiv. apply Qmult_le_compat_r. exact H.
  apply Qlt_le_weak, Qinv_lt_0_compat, pow2_pos.
Qed.

Lemma Qdiv_pow2_shift x a b : x < pow2 (a + b) -> x / pow2 a < pow2 b.
Proof.
  intros. apply Qlt_shift_div_r. apply pow2_pos.
  rewrite Z.add_comm, pow2_add in H. exact H.
Qed.

Lemma Qdiv_pow2_shift_ge x a b : pow2 (a + b) <= x -> pow2 b <= x / pow2 a.
Proof.
  intros. apply Qle_shift_div_l. apply pow2_pos.
  rewrite Z.add_comm, pow2_add in H. exact H.
Qed.

(** The scaled significand is below 2^53, and at least 2^52 in the normal range. *)
Lemma significand_upper x : 0 < x ->
  (round_half_even (x / pow2 (ulp_exp x)) <= 2 ^ 53)%Z.
Proof.
  intros Hx. destruct (ilog2_spec x Hx) as [_ U].
  rewrite <- (round_half_even_inject (2 ^ 53)). apply round_half_even_mono.
  rewrite pow2_inject by lia. apply Qlt_le_weak, Qdiv_pow2_shift.
  eapply Qlt_le_trans; [exact U|]. apply pow2_le. unfold ulp_exp. lia.
Qed.

Lemma significand_lower x : 0 < x -> (-1074 < ulp_exp x)%Z ->
  (2 ^ 52 <= round_half_even (x / pow2 (ulp_exp x)))%Z.
Proof.
  intros Hx He. destruct (ilog2_spec x Hx) as [L _].
  rewrite <- (round_half_even_inject (2 ^ 52)) at 1. apply round_half_even_mono.
  rewrite pow2_inject by lia. apply Qdiv_pow2_shift_ge.
  eapply Qle_trans; [|exact L]. apply pow2_le. unfold ulp_exp in *. lia.
Qed.

Lemma rnd_pos_mono x y : 0 < x -> x <= y -> rnd_pos x <= rnd_pos y.
Proof.
  intros Hx Hxy. assert (Hy : 0 < y) by lra.
  pose proof (ulp_exp_mono x y Hx Hxy) as He.
  unfold rnd_pos.
  destruct (Z.eq_dec (ulp_exp x) (ulp_exp y)) as [E|N].
  - rewrite E. apply Qmult_le_compat_r; [|apply Qlt_le_weak, pow2_pos].
    rewrite <- Zle_Qle. apply round_half_even_mono, Qdiv_pow2_le, Hxy.
  - assert (He' : (ulp_exp x + 1 <= ulp_exp y)%Z) by lia.
    pose proof (significand_upper x Hx) as Ux.
    assert (Ly : (2 ^ 52 <= round_half_even (y / pow2 (ulp_exp y)))%Z).
    { apply significand_lower; [exact Hy|]. unfold ulp_exp in *. lia. }
    rewrite Zle_Qle in Ux, Ly. rewrite pow2_inject in Ux, Ly by lia.
    pose proof (pow2_pos (ulp_exp x)). pose proof (pow2_pos (ulp_exp y)).
    apply Qle_trans with (pow2 53 * pow2 (ulp_exp x)).
    { apply Qmult_le_compat_r; lra. }
    apply Qle_trans with (pow2 52 * pow2 (ulp_exp y)).
    { rewrite <- !pow2_add. apply pow2_le. lia. }
    apply Qmult_le_compat_r; lra.
Qed.

Lemma rnd_pos_nonneg x : 0 < x -> 0 <= rnd_pos x.
Proof.
  intros Hx. unfold rnd_pos. apply Qmult_le_0_compat; [|apply Qlt_le_weak, pow2_pos].
  rewrite <- (Zle_Qle 0). rewrite <- (round_half_even_inject 0).
  apply round_half_even_mono. apply Qle_shift_div_l. apply pow2_pos.
  change (inject_Z 0) with 0. lra.
Qed.

Lemma rnd_nonneg x : 0 <= x -> 0 <= rnd x.
Proof.
  intros Hx. unfold rnd.
  destruct (Qcompare_spec x 0) as [E|L|G]; [lra | lra | apply rnd_pos_nonneg, G].
Qed.

Lemma rnd_mono x y : 0 <= x -> x <= y -> rnd x <= rnd y.
Proof.
  intros Hx Hxy. unfold rnd at 1.
  destruct (Qcompare_spec x 0) as [E|L|G].
  - apply rnd_nonneg. lra.
  - lra.
  - unfold rnd. destruct (Qcompare_spec y 0) as [E'|L'|G']; try lra.
    apply rnd_pos_mono; assumption.
Qed.

(** A value between two representable bounds rounds between them. *)
Lemma of_Q_between lo hi q :
  0 <= lo -> lo <= q -> q <= hi ->
  rnd lo == lo -> rnd hi == hi -> hi < pow2 1024 ->
  exists r, of_Q q = Fin r /\ lo <= r <= hi.
Proof.
  intros Hlo Hq1 Hq2 Elo Ehi Hhi.
  assert (H1 : lo <= rnd q) by (rewrite <- Elo; apply rnd_mono; assumption).
  assert (H2 : rnd q <= hi) by (rewrite <- Ehi; apply rnd_mono; lra).
  pose proof (Qred_correct (rnd q)) as Er.
  pose proof (pow2_pos 1024) as Hp.
  unfold of_Q. cbv zeta.
  destruct (Qle_bool (pow2 1024) (Qred (rnd q))) eqn:B1.
  { apply Qle_bool_iff in B1. rewrite Er in B1. lra. }
  destruct (Qle_bool (Qred (rnd q)) (- pow2 1024)) eqn:B2.
  { apply Qle_bool_iff in B2. rewrite Er in B2. lra. }
  exists (Qred (rnd q)). split; [reflexivity|]. rewrite Er. split; assumption.
Qed.

Lemma rnd_0 : rnd 0 == 0.
Proof. reflexivity. Qed.

Lemma rnd_1 : rnd 1 == 1.
Proof. vm_compute. reflexivity. Qed.

Lemma rnd_50 : rnd 50 == 50.
Proof. vm_compute. reflexivity. Qed.

Lemma rnd_100 : rnd 100 == 100.
Proof. vm_compute. reflexivity. Qed.

Lemma rnd_pow2_1014 : rnd (pow2 1014) == pow2 1014.
Proof. vm_compute. reflexivity. Qed.

Lemma lt_50_max : 50 < pow2 1024.
Proof. vm_compute. reflexivity. Qed.

Lemma lt_100_max : 100 < pow2 1024.
Proof. vm_compute. reflexivity. Qed.

Lemma lt_1014_max : pow2 1014 < pow2 1024.
Proof. apply pow2_lt. lia. Qed.

End Float64Facts.

(** The rounding of this file and the bit-level binary64 of the Standard
    Library give the same quotient [wc / 2000] and the same product
    [wc / 2000 * 50] for the word counts up to 2500. *)
Example float_model_agrees_with_spec_float :
  forallb agree_on (map Z.of_nat (seq 0 2501)) = true.
Proof. vm_compute. reflexivity. Qed.

(** ** The quality score *)

Section QualityScore.

Import Float64Facts.
Open Scope Q_scope.

Lemma of_Q_nonneg q :
  0 <= q -> of_Q q = PInf \/ exists r, of_Q q = Fin r /\ 0 <= r.
Proof.
  intros Hq. pose proof (rnd_nonneg q Hq) as Hr.
  pose proof (Qred_correct (rnd q)) as Er. pose proof (pow2_pos 1024) as Hp.
  unfold of_Q. cbv zeta.
  destruct (Qle_bool (pow2 1024) (Qred (rnd q))); [left; reflexivity|].
  destruct (Qle_bool (Qred (rnd q)) (- pow2 1024)) eqn:B2.
  { apply Qle_bool_iff in B2. rewrite Er in B2. lra. }
  right. exists (Qred (rnd q)). split; [reflexivity | rewrite Er; exact Hr].
Qed.

Lemma inject_Z_div_nonneg a b :
  (0 <= a)%Z -> (0 < b)%Z -> 0 <= inject_Z a / inject_Z b.
Proof.
  intros Ha Hb. apply Qle_shift_div_l.
  - rewrite <- (Zlt_Qlt 0). exact Hb.
  - rewrite Qmult_0_l. rewrite <- (Zle_Qle 0). exact Ha.
Qed.

Lemma int_truediv_nonneg a x :
  (0 <= a)%Z -> int_truediv a 2000 = Ok x -> exists r, x = Fin r /\ 0 <= r.
Proof.
  intros Ha. unfold int_truediv. cbn [Z.eqb]. cbv zeta.
  destruct (of_Q_nonneg (inject_Z a / inject_Z 2000)) as [E|[r [E Hr]]].
  - apply inject_Z_div_nonneg; lia.
  - rewrite E. discriminate.
  - rewrite E. cbn [is_inf]. intros [= <-]. exists r. split; [reflexivity | exact Hr].
Qed.

Lemma int_truediv_returns a :
  (0 <= a < 2 ^ 1024)%Z -> exists r, int_truediv a 2000 = Ok (Fin r).
Proof.
  intros [Ha Hb]. unfold int_truediv. cbn [Z.eqb]. cbv zeta.
  destruct (of_Q_between 0 (pow2 1014) (inject_Z a / inject_Z 2000))
    as [r [E _]].
  - lra.
  - apply inject_Z_div_nonneg; lia.
  - apply Qle_shift_div_r; [reflexivity|].
    apply Qle_trans with (pow2 1024).
    + rewrite <- pow2_inject by lia. rewrite <- Zle_Qle. lia.
    + replace 1024%Z with (1014 + 10)%Z by reflexivity. rewrite pow2_add.
      apply Qmult_le_l; [apply pow2_pos | vm_compute; discriminate].
  - exact rnd_0.
  - exact rnd_pow2_1014.
  - exact lt_1014_max.
  - rewrite E. cbn [is_inf]. exists r. reflexivity.
Qed.

Lemma py_min_unit r :
  0 <= r -> exists m, py_min (Fin r) (Fin 1) = Fin m /\ 0 <= m <= 1.
Proof.
  intros Hr. unfold py_min, flt.
  destruct (Qle_bool r 1) eqn:B; cbn [negb].
  - apply Qle_bool_iff in B. exists r. split; [reflexivity | split; assumption].
  - exists 1. split; [reflexivity | lra].
Qed.

Lemma float_of_int_50 : float_of_int 50 = Ok (Fin 50).
Proof. vm_compute. reflexivity. Qed.

Lemma float_of_int_between z :
  (0 <= z <= 50)%Z -> exists v, float_of_int z = Ok (Fin v) /\ 0 <= v <= 50.
Proof.
  intros [Hz1 Hz2]. unfold float_of_int. cbv zeta.
  destruct (of_Q_between 0 50 (inject_Z z)) as [r [E Hr]].
  - lra.
  - rewrite <- (Zle_Qle 0). exact Hz1.
  - change (inject_Z z <= inject_Z 50). rewrite <- Zle_Qle. exact Hz2.
  - exact rnd_0.
  - exact rnd_50.
  - exact lt_50_max.
  - rewrite E. cbn [is_inf]. exists r. split; [reflexivity | exact Hr].
Qed.

Lemma py_round_between t :
  0 <= t <= 100 -> exists s, py_round (Fin t) 2 = Ok (Fin s) /\ 0 <= s <= 100.
Proof.
  intros [Ht1 Ht2]. unfold py_round. cbv zeta.
  change (inject_Z (10 ^ 2)) with 100.
  assert (H1 : (0 <= round_half_even (t * 100))%Z).
  { rewrite <- (round_half_even_inject 0) at 1. apply round_half_even_mono.
    change (inject_Z 0) with 0. lra. }
  assert (H2 : (round_half_even (t * 100) <= 10000)%Z).
  { rewrite <- (round_half_even_inject 10000). apply round_half_even_mono.
    change (inject_Z 10000) with 10000. lra. }
  rewrite Zle_Qle in H1, H2.
  change (inject_Z 0) with 0 in H1. change (inject_Z 10000) with 10000 in H2.
  destruct (of_Q_between 0 100 (inject_Z (round_half_even (t * 100)) / 100))
    as [r [E Hr]].
  - lra.
  - apply Qle_shift_div_l; [reflexivity | lra].
  - apply Qle_shift_div_r; [reflexivity | lra].
  - exact rnd_0.
  - exact rnd_100.
  - exact lt_100_max.
  - rewrite E. cbn [is_inf]. exists r. split; [reflexivity | exact Hr].
Qed.

Lemma comment_score_range c :
  (0 <= (if (0 <? c)%Z then py_min_int (c * 5) 50 else 0%Z) <= 50)%Z.
Proof.
  unfold py_min_int.
  destruct (Z.ltb_spec 0 c); [|lia].
  destruct (Z.ltb_spec 50 (c * 5)); lia.
Qed.

Lemma comment_score_guard c :
  (0 <= c)%Z ->
  (if (0 <? c)%Z then py_min_int (c * 5) 50 else 0%Z) = py_min_int (c * 5) 50.
Proof.
  intros Hc. destruct (Z.ltb_spec 0 c) as [H|H]; [reflexivity|].
  assert (c = 0%Z) by lia. subst c. reflexivity.
Qed.

(** Once the division has returned, the rest of the score is computed
    without an exception and lies within 0 and 100. *)
Lemma score_after_division article r :
  int_truediv (word_count article) 2000 = Ok (Fin r) -> 0 <= r ->
  exists s, calculate_quality_score article = Ok (Fin s) /\ 0 <= s <= 100.
Proof.
  intros Hdiv Hr. unfold calculate_quality_score.
  rewrite Hdiv. cbn [bind]. rewrite float_of_int_50. cbn [bind].
  destruct (py_min_unit r Hr) as [m [Em Hm]]. rewrite Em.
  destruct (float_of_int_between _ (comment_score_range (comments article)))
    as [v [Ev Hv]].
  rewrite Ev. cbn [bind fmul fadd].
  destruct (of_Q_between 0 50 (m * 50)) as [l [El Hl]];
    try lra; try exact rnd_0; try exact rnd_50; try exact lt_50_max.
  rewrite El. cbn [fadd].
  destruct (of_Q_between 0 100 (l + v)) as [t [Et Ht]];
    try lra; try exact rnd_0; try exact rnd_100; try exact lt_100_max.
  rewrite Et. apply py_round_between. exact Ht.
Qed.

End QualityScore.

(** C1. For an article whose word count and comment count are counts (not
    negative), [calculate_quality_score] computes
    [round(min(word_count/2000, 1.0)*50 + min(comments*5, 50), 2)]; a score it
    returns lies between 0 and 100; it returns one for every word count below
    [2^1024] (the division raises OverflowError beyond the range of floats);
    and the score is 100.0 for 2000 words and 10 comments, 0.0 for no word and
    no comment, 25.0 for 1000 words and no comment. *)
Theorem calculate_quality_score_spec (article : Article) :
  (0 <= word_count article)%Z -> (0 <= comments article)%Z ->
  calculate_quality_score article = spec_quality_score article /\
  (forall s, calculate_quality_score article = Ok s ->
             exists q, s = Fin q /\ (0 <= q <= 100)%Q) /\
  ((word_count article < 2 ^ 1024)%Z ->
   exists q, calculate_quality_score article = Ok (Fin q)) /\
  (word_count article = 2000%Z -> comments article = 10%Z ->
   calculate_quality_score article = Ok (Fin 100)) /\
  (word_count article = 0%Z -> comments article = 0%Z ->
   calculate_quality_score article = Ok (Fin 0)) /\
  (word_count article = 1000%Z -> comments article = 0%Z ->
   calculate_quality_score article = Ok (Fin 25)).
Proof.
  intros Hw Hc. repeat split.
  - unfold calculate_quality_score, spec_quality_score.
    rewrite (comment_score_guard _ Hc). reflexivity.
  - intros s Hs.
    destruct (int_truediv (word_count article) 2000) as [x|e] eqn:Hdiv.
    + destruct (int_truediv_nonneg _ _ Hw Hdiv) as [r [-> Hr]].
      destruct (score_after_division article _ Hdiv Hr) as [q [Eq Hq]].
      rewrite Eq in Hs. injection Hs as <-. exists q. split; [reflexivity | exact Hq].
    + unfold calculate_quality_score in Hs. rewrite Hdiv in Hs. discriminate.
  - intros Hb. destruct (int_truediv_returns (word_count article)) as [r Hdiv].
    { split; assumption. }
    destruct (int_truediv_nonneg _ _ Hw Hdiv) as [r' [[= <-] Hr]].
    destruct (score_after_division article _ Hdiv Hr) as [q [Eq _]].
    exists q. exact Eq.
  - intros E1 E2. unfold calculate_quality_score. rewrite E1, E2.
    vm_compute. reflexivity.
  - intros E1 E2. unfold calculate_quality_score. rewrite E1, E2.
    vm_compute. reflexivity.
  - intros E1 E2. unfold calculate_quality_score. rewrite E1, E2.
    vm_compute. reflexivity.
Qed.

Lemma calculate_quality_score_spec_witness :
  calculate_quality_score (sample_article 1501 3) =
    spec_quality_score (sample_article 1501 3) /\
  calculate_quality_score (sample_article 1501 3) =
    Ok (Fin (7391532888421827 # 140737488355328)%Q).
Proof.
  split.
  - apply (calculate_quality_score_spec (sample_article 1501 3)); simpl; lia.
  - vm_compute. reflexivity.
Defined.

(** ** Sorting by a key, in descending order *)

Section SortedReverseFacts.

Variables (A K : Type) (lt : K -> K -> bool) (key : A -> K).

(** The keys met are strictly weakly ordered by [lt]. *)
Variable good : K -> Prop.
Hypothesis lt_asym :
  forall x y, good x -> good y -> lt x y = true -> lt y x = false.
Hypothesis lt_negtrans :
  forall x y z, good x -> good y -> good z ->
    lt x y = false -> lt y z = false -> lt x z = false.

Lemma insert_desc_perm x l : Permutation (insert_desc lt key x l) (x :: l).
Proof.
  induction l as [|y l IH]; cbn [insert_desc].
  - apply Permutation_refl.
  - destruct (lt (key x) (key y)).
    + eapply perm_trans; [apply perm_skip, IH | apply perm_swap].
    + apply Permutation_refl.
Qed.

Lemma sorted_reverse_perm l : Permutation (sorted_reverse lt key l) l.
Proof.
  induction l as [|x l IH]; cbn [sorted_reverse fold_right].
  - apply perm_nil.
  - eapply perm_trans; [apply insert_desc_perm | apply perm_skip, IH].
Qed.

Lemma sorted_reverse_length l :
  List.length (sorted_reverse lt key l) = List.length l.
Proof. apply Permutation_length, sorted_reverse_perm. Qed.

Lemma insert_desc_sorted x l :
  good (key x) -> Forall (fun a => good (key a)) l ->
  StronglySorted (not_below lt key) l ->
  StronglySorted (not_below lt key) (insert_desc lt key x l).
Proof.
  intros Gx Gl Hs. induction Hs as [|y l Hs IH Hy]; cbn [insert_desc].
  - constructor; [constructor | constructor].
  - inversion Gl as [|? ? Gy Gl']; subst.
    destruct (lt (key x) (key y)) eqn:E.
    + constructor; [apply IH, Gl'|].
      eapply Permutation_Forall; [apply Permutation_sym, insert_desc_perm|].
      constructor; [|exact Hy].
      unfold not_below. apply lt_asym; assumption.
    + constructor; [constructor; assumption|].
      constructor; [exact E|].
      rewrite Forall_forall in Hy, Gl'. apply Forall_forall. intros z Hz.
      unfold not_below in *.
      apply (lt_negtrans (key x) (key y) (key z)); auto.
Qed.

Lemma sorted_reverse_sorted l :
  Forall (fun a => good (key a)) l ->
  StronglySorted (not_below lt key) (sorted_reverse lt key l).
Proof.
  induction l as [|x l IH]; intros Gl; cbn [sorted_reverse fold_right].
  - constructor.
  - inversion Gl; subst. apply insert_desc_sorted; [assumption | | apply IH; assumption].
    eapply Permutation_Forall; [apply Permutation_sym, sorted_reverse_perm | assumption].
Qed.

(** Stability: a class of elements none of which is below another keeps the
    order it has in the input. *)
Lemma insert_desc_filter (p : A -> bool) x l :
  (forall a b, p a = true -> p b = true -> lt (key a) (key b) = false) ->
  filter p (insert_desc lt key x l) = filter p (x :: l).
Proof.
  intros Hp. induction l as [|y l IH]; cbn [insert_desc]; [reflexivity|].
  destruct (lt (key x) (key y)) eqn:E; [|reflexivity].
  cbn [filter] in *. rewrite IH.
  destruct (p x) eqn:Px, (p y) eqn:Py; try reflexivity.
  rewrite (Hp x y Px Py) in E. discriminate.
Qed.

Lemma sorted_reverse_stable (p : A -> bool) l :
  (forall a b, p a = true -> p b = true -> lt (key a) (key b) = false) ->
  filter p (sorted_reverse lt key l) = filter p l.
Proof.
  intros Hp. induction l as [|x l IH]; cbn [sorted_reverse fold_right]; [reflexivity|].
  rewrite insert_desc_filter by exact Hp. cbn [filter].
  fold (sorted_reverse lt key l). rewrite IH. reflexivity.
Qed.

(** [sorted] is a stable sort, whatever the algorithm: two lists in
    descending order that hold the elements of each class of keys in the same
    order are the same list.  So [sorted_reverse] is the list every stable
    sort gives. *)
Lemma stable_sort_unique l1 l2 :
  (forall k, lt k k = false) ->
  StronglySorted (not_below lt key) l1 ->
  StronglySorted (not_below lt key) l2 ->
  (forall k, filter (same_class lt key k) l1 = filter (same_class lt key k) l2) ->
  l1 = l2.
Proof.
  intros Hirr Hs1. revert l2.
  assert (Hself : forall a, same_class lt key (key a) a = true).
  { intros a. unfold same_class. rewrite Hirr. reflexivity. }
  induction Hs1 as [|x t1 Hs1 IH Hx]; intros l2 Hs2 Hf.
  - destruct l2 as [|y t2]; [reflexivity|].
    specialize (Hf (key y)). cbn [filter] in Hf. rewrite Hself in Hf. discriminate.
  - destruct l2 as [|y t2].
    { specialize (Hf (key x)). cbn [filter] in Hf. rewrite Hself in Hf. discriminate. }
    inversion Hs2 as [|? ? Hs2' Hy]; subst.
    assert (Hxy : lt (key x) (key y) = false).
    { assert (Hin : In y (filter (same_class lt key (key y)) (x :: t1))).
      { rewrite Hf. cbn [filter]. rewrite Hself. left. reflexivity. }
      apply filter_In in Hin. destruct Hin as [[->|Hin] _]; [apply Hirr|].
      rewrite Forall_forall in Hx. apply Hx, Hin. }
    assert (Hyx : lt (key y) (key x) = false).
    { assert (Hin : In x (filter (same_class lt key (key x)) (y :: t2))).
      { rewrite <- Hf. cbn [filter]. rewrite Hself. left. reflexivity. }
      apply filter_In in Hin. destruct Hin as [[->|Hin] _]; [apply Hirr|].
      rewrite Forall_forall in Hy. apply Hy, Hin. }
    assert (E : x = y).
    { pose proof (Hf (key x)) as H. cbn [filter] in H. rewrite Hself in H.
      unfold same_class in H at 2. rewrite Hxy, Hyx in H. cbn [negb andb] in H.
      injection H as H _. exact H. }
    subst y. f_equal. apply IH; [exact Hs2'|].
    intros k. specialize (Hf k). cbn [filter] in Hf.
    destruct (same_class lt key k x); [injection Hf as Hf|]; exact Hf.
Qed.

End SortedReverseFacts.

(** ** Comparisons of floats *)

Section FloatOrder.

Open Scope Q_scope.

Lemma flt_asym x y : flt x y = true -> flt y x = false.
Proof.
  destruct x as [a| | |], y as [b| | |]; cbn [flt]; try congruence.
  intros H. apply negb_true_iff in H. apply negb_false_iff.
  apply Qle_bool_iff. destruct (Qlt_le_dec b a) as [L|L]; [|exact L].
  apply Qlt_le_weak in L. apply Qle_bool_iff in L. congruence.
Qed.

Lemma flt_negtrans x y z :
  is_nan y = false -> flt x y = false -> flt y z = false -> flt x z = false.
Proof.
  destruct x as [a| | |], y as [b| | |], z as [c| | |];
    cbn [flt is_nan]; try congruence.
  intros _ H1 H2. apply negb_false_iff in H1, H2. apply negb_false_iff.
  apply Qle_bool_iff in H1, H2. apply Qle_bool_iff. lra.
Qed.

Lemma flt_false_fle x y :
  is_nan x = false -> is_nan y = false -> flt x y = false -> fle y x = true.
Proof.
  destruct x as [a| | |], y as [b| | |]; cbn [flt fle is_nan]; try congruence.
  intros _ _ H. apply negb_false_iff in H. exact H.
Qed.

Lemma feq_not_flt x y k :
  feq x k = true -> feq y k = true -> flt x y = false.
Proof.
  destruct x as [a| | |], y as [b| | |], k as [c| | |];
    cbn [flt feq]; try congruence.
  intros H1 H2. apply Qeq_bool_iff in H1, H2. apply negb_false_iff.
  apply Qle_bool_iff. lra.
Qed.

Lemma of_Q_not_nan q : is_nan (of_Q q) = false.
Proof.
  unfold of_Q. cbv zeta.
  destruct (Qle_bool _ _); [reflexivity|]. destruct (Qle_bool _ _); reflexivity.
Qed.

Lemma of_Q_finite q : is_inf (of_Q q) = false -> exists r, of_Q q = Fin r.
Proof.
  unfold of_Q. cbv zeta.
  destruct (Qle_bool _ _); [discriminate|]. destruct (Qle_bool _ _); [discriminate|].
  intros _. eexists. reflexivity.
Qed.

Lemma int_truediv_finite a b x :
  int_truediv a b = Ok x -> exists r, x = Fin r.
Proof.
  unfold int_truediv. destruct (b =? 0)%Z; [discriminate|]. cbv zeta.
  destruct (is_inf _) eqn:E; [discriminate|].
  intros [= <-]. apply of_Q_finite, E.
Qed.

Lemma float_of_int_finite z x : float_of_int z = Ok x -> exists r, x = Fin r.
Proof.
  unfold float_of_int. cbv zeta. destruct (is_inf _) eqn:E; [discriminate|].
  intros [= <-]. apply of_Q_finite, E.
Qed.

Lemma py_round_not_nan x n y :
  is_nan x = false -> py_round x n = Ok y -> is_nan y = false.
Proof.
  destruct x as [q| | |]; cbn [py_round is_nan];
    try (intros _ [= <-]; reflexivity); try discriminate.
  cbv zeta. destruct (is_inf _); [discriminate|].
  intros _ [= <-]. apply of_Q_not_nan.
Qed.

(** No score is a NaN. *)
Lemma calculate_quality_score_not_nan article s :
  calculate_quality_score article = Ok s -> is_nan s = false.
Proof.
  unfold calculate_quality_score.
  destruct (int_truediv (word_count article) 2000) as [x|e] eqn:Hdiv;
    [|discriminate].
  destruct (int_truediv_finite _ _ _ Hdiv) as [r ->]. cbn [bind].
  rewrite float_of_int_50. cbn [bind].
  set (cscore := if (0 <? comments article)%Z
                 then py_min_int (comments article * 5) 50 else 0%Z).
  destruct (float_of_int cscore) as [cs|e] eqn:Hcs; [|discriminate].
  destruct (float_of_int_finite _ _ Hcs) as [v ->]. cbn [bind].
  apply py_round_not_nan.
  assert (Hm : exists m, py_min (Fin r) (Fin 1) = Fin m).
  { unfold py_min. destruct (flt _ _); eexists; reflexivity. }
  destruct Hm as [m ->]. cbn [fmul].
  pose proof (of_Q_not_nan (m * 50)) as Hn.
  destruct (of_Q (m * 50)); cbn [fadd is_nan] in *;
    [apply of_Q_not_nan | reflexivity | reflexivity | discriminate].
Qed.

End FloatOrder.

(** ** Selection of the featured articles *)

Lemma StronglySorted_impl_In {A : Type} (R S : A -> A -> Prop) l :
  (forall a b, In a l -> In b l -> R a b -> S a b) ->
  StronglySorted R l -> StronglySorted S l.
Proof.
  intros H Hs. induction Hs as [|a l Hs IH Ha]; constructor.
  - apply IH. intros x y Hx Hy. apply H; right; assumption.
  - rewrite Forall_forall in *. intros b Hb.
    apply H; [left; reflexivity | right; exact Hb | apply Ha, Hb].
Qed.

Lemma mapM_Forall2 {A B : Type} (f : A -> result B) l l' :
  mapM f l = Ok l' -> Forall2 (fun a b => f a = Ok b) l l'.
Proof.
  revert l'. induction l as [|a l IH]; cbn [mapM]; intros l' H.
  - injection H as <-. constructor.
  - destruct (f a) as [b|e] eqn:Ea; [|discriminate]. cbn [bind] in H.
    destruct (mapM f l) as [bs|e]; [|discriminate]. cbn [bind] in H.
    injection H as <-. constructor; [exact Ea | apply IH; reflexivity].
Qed.

Lemma mapM_returns {A B : Type} (f : A -> result B) l :
  Forall (fun a => exists b, f a = Ok b) l -> exists l', mapM f l = Ok l'.
Proof.
  induction 1 as [|a l [b Ea] _ [bs Ebs]]; cbn [mapM].
  - eexists. reflexivity.
  - rewrite Ea. cbn [bind]. rewrite Ebs. cbn [bind]. eexists. reflexivity.
Qed.

Lemma score_article_returns a :
  word_count_in_range a -> exists b, score_article a = Ok b.
Proof.
  intros [H1 H2]. unfold score_article.
  destruct (int_truediv_returns (word_count a) (conj H1 H2)) as [r Hdiv].
  destruct (int_truediv_nonneg _ _ H1 Hdiv) as [r' [[= <-] Hr]].
  destruct (score_after_division a _ Hdiv Hr) as [q [Eq _]].
  rewrite Eq. cbn [bind]. eexists. reflexivity.
Qed.

Lemma scored_not_nan articles scored :
  Forall2 scored_as articles scored ->
  Forall (fun b => is_nan (quality_score b) = false) scored.
Proof.
  induction 1 as [|a b l l' Hab _ IH]; constructor; [|exact IH].
  unfold scored_as, score_article in Hab.
  destruct (calculate_quality_score a) as [s|e] eqn:Es; [|discriminate].
  cbn [bind] in Hab. injection Hab as <-. cbn [quality_score set_quality_score].
  eapply calculate_quality_score_not_nan, Es.
Qed.

Lemma slice_to_from {A : Type} (l : list A) i : slice_to l i ++ slice_from l i = l.
Proof. apply firstn_skipn. Qed.

Lemma slice_to_firstn {A : Type} (l : list A) i :
  (0 <= i)%Z -> slice_to l i = firstn (Z.to_nat i) l.
Proof.
  intros Hi. unfold slice_to, slice_index.
  destruct (Z.ltb_spec i 0); [lia|].
  destruct (Z.le_ge_cases i (Z.of_nat (List.length l))) as [L|G].
  - rewrite Z.min_l by exact L. reflexivity.
  - rewrite Z.min_r by lia. rewrite Nat2Z.id.
    rewrite firstn_all. symmetry. apply firstn_all2. lia.
Qed.

(** What a returned pair is made of. *)
Lemma select_top_articles_inv articles count featured others :
  select_top_articles articles count = Ok (featured, others) ->
  exists scored,
    Forall2 scored_as articles scored /\
    featured = slice_to (sorted_reverse flt quality_score scored) count /\
    others = slice_from (sorted_reverse flt quality_score scored) count.
Proof.
  unfold select_top_articles.
  destruct (mapM score_article articles) as [scored|e] eqn:E; [|discriminate].
  cbn [bind]. intros [= <- <-]. exists scored.
  split; [apply mapM_Forall2, E | split; reflexivity].
Qed.

Lemma select_top_articles_returns articles count :
  Forall word_count_in_range articles ->
  exists featured others, select_top_articles articles count = Ok (featured, others).
Proof.
  intros H. unfold select_top_articles.
  destruct (mapM_returns score_article articles) as [scored E].
  { eapply Forall_impl; [|exact H]. apply score_article_returns. }
  rewrite E. cbn [bind]. eexists. eexists. reflexivity.
Qed.

(** C2. When [select_top_articles] returns [(featured, others)],
    [featured ++ others] is a permutation of the input articles, each with
    its score filled in; it is sorted by non-increasing score; [featured] is
    its first [count] elements; and the articles of any one score stand in
    the order of the input.  It returns whenever every word count is in the
    range of floats. *)
Theorem select_top_articles_spec (articles : list Article) (count : Z) :
  (0 <= count)%Z ->
  (Forall word_count_in_range articles ->
   exists featured others,
     select_top_articles articles count = Ok (featured, others)) /\
  (forall featured others,
     select_top_articles articles count = Ok (featured, others) ->
     exists scored,
       Forall2 scored_as articles scored /\
       Permutation (featured ++ others) scored /\
       StronglySorted by_score_desc (featured ++ others) /\
       featured = firstn (Z.to_nat count) (featured ++ others) /\
       forall k, filter (has_score k) (featured ++ others)
                 = filter (has_score k) scored).
Proof.
  intros Hcount. split; [apply select_top_articles_returns|].
  intros featured others Hsel.
  destruct (select_top_articles_inv _ _ _ _ Hsel) as [scored [Hsc [Hf Ho]]].
  exists scored. split; [exact Hsc|].
  assert (Happ : featured ++ others = sorted_reverse flt quality_score scored).
  { subst. apply slice_to_from. }
  pose proof (scored_not_nan _ _ Hsc) as Hnan.
  rewrite Happ. split; [apply sorted_reverse_perm|]. split; [|split].
  - assert (Hs : StronglySorted (not_below flt quality_score)
                   (sorted_reverse flt quality_score scored)).
    { apply sorted_reverse_sorted with (good := fun x => is_nan x = false).
      - intros x y _ _. apply flt_asym.
      - intros x y z _ Hy _. apply flt_negtrans, Hy.
      - exact Hnan. }
    assert (Hn : Forall (fun b => is_nan (quality_score b) = false)
                   (sorted_reverse flt quality_score scored)).
    { eapply Permutation_Forall;
        [apply Permutation_sym, sorted_reverse_perm | exact Hnan]. }
    rewrite Forall_forall in Hn.
    eapply StronglySorted_impl_In; [|exact Hs].
    intros a b Ha Hb Hab. apply flt_false_fle; [apply Hn, Ha | apply Hn, Hb | exact Hab].
  - rewrite Hf. apply slice_to_firstn, Hcount.
  - intros k. apply sorted_reverse_stable.
    intros a b Ha Hb. eapply feq_not_flt; eassumption.
Qed.

Lemma select_top_articles_spec_witness :
  (Forall word_count_in_range sample_articles ->
   exists featured others,
     select_top_articles sample_articles 2 = Ok (featured, others)) /\
  (forall featured others,
     select_top_articles sample_articles 2 = Ok (featured, others) ->
     exists scored,
       Forall2 scored_as sample_articles scored /\
       Permutation (featured ++ others) scored /\
       StronglySorted by_score_desc (featured ++ others) /\
       featured = firstn (Z.to_nat 2) (featured ++ others) /\
       forall k, filter (has_score k) (featured ++ others)
                 = filter (has_score k) scored).
Proof. apply (select_top_articles_spec sample_articles 2). lia. Defined.

Lemma slice_from_skipn {A : Type} (l : list A) i :
  (0 <= i)%Z -> slice_from l i = skipn (Z.to_nat i) l.
Proof.
  intros Hi. unfold slice_from, slice_index.
  destruct (Z.ltb_spec i 0); [lia|].
  destruct (Z.le_ge_cases i (Z.of_nat (List.length l))) as [L|G].
  - rewrite Z.min_l by exact L. reflexivity.
  - rewrite Z.min_r by lia. rewrite Nat2Z.id.
    rewrite skipn_all. symmetry. apply skipn_all2. lia.
Qed.

(** C10. With [n] input articles and a count [N] that is not negative, the
    featured list has [min N n] elements and the others list the remaining
    [n - min N n]; when [N >= n] the others list is empty and every article
    is featured. *)
Theorem select_top_articles_lengths (articles : list Article) (count : Z) :
  (0 <= count)%Z ->
  (Forall word_count_in_range articles ->
   exists featured others,
     select_top_articles articles count = Ok (featured, others)) /\
  (forall featured others,
     select_top_articles articles count = Ok (featured, others) ->
     let n := List.length articles in
     List.length featured = Nat.min (Z.to_nat count) n /\
     List.length others = (n - Nat.min (Z.to_nat count) n)%nat /\
     ((Z.of_nat n <= count)%Z ->
      others = [] /\
      exists scored,
        Forall2 scored_as articles scored /\ Permutation featured scored)).
Proof.
  intros Hcount. split; [apply select_top_articles_returns|].
  intros featured others Hsel n.
  destruct (select_top_articles_inv _ _ _ _ Hsel) as [scored [Hsc [Hf Ho]]].
  rewrite slice_to_firstn in Hf by exact Hcount.
  rewrite slice_from_skipn in Ho by exact Hcount.
  assert (Hlen : List.length (sorted_reverse flt quality_score scored) = n).
  { rewrite sorted_reverse_length. symmetry. eapply Forall2_length, Hsc. }
  split; [|split].
  - rewrite Hf, length_firstn, Hlen. reflexivity.
  - rewrite Ho, length_skipn, Hlen. lia.
  - intros Hn. assert (Hall : (n <= Z.to_nat count)%nat) by lia.
    split.
    + rewrite Ho. apply skipn_all2. rewrite Hlen. exact Hall.
    + exists scored. split; [exact Hsc|].
      rewrite Hf, firstn_all2 by (rewrite Hlen; exact Hall).
      apply sorted_reverse_perm.
Qed.

Lemma select_top_articles_lengths_witness :
  (Forall word_count_in_range sample_articles ->
   exists featured others,
     select_top_articles sample_articles 7 = Ok (featured, others)) /\
  (forall featured others,
     select_top_articles sample_articles 7 = Ok (featured, others) ->
     let n := List.length sample_articles in
     List.length featured = Nat.min (Z.to_nat 7) n /\
     List.length others = (n - Nat.min (Z.to_nat 7) n)%nat /\
     ((Z.of_nat n <= 7)%Z ->
      others = [] /\
      exists scored,
        Forall2 scored_as sample_articles scored /\ Permutation featured scored)).
Proof. apply (select_top_articles_lengths sample_articles 7). lia. Defined.

(** ** The paywall heuristic *)

Lemma lower_append s t : lower (s ++ t)%string = (lower s ++ lower t)%string.
Proof.
  induction s as [|c s IH]; cbn [lower append]; [reflexivity|].
  rewrite IH. reflexivity.
Qed.

Lemma starts_with_append p s : starts_with p (p ++ s)%string = true.
Proof.
  induction p as [|c p IH]; cbn [starts_with append]; [reflexivity|].
  rewrite Ascii.eqb_refl, IH. reflexivity.
Qed.

Lemma starts_with_sound p s :
  starts_with p s = true -> exists post, s = (p ++ post)%string.
Proof.
  revert s. induction p as [|c p IH]; intros s H.
  - exists s. reflexivity.
  - destruct s as [|d s]; cbn [starts_with] in H; [discriminate|].
    apply andb_true_iff in H. destruct H as [Hc Hp].
    apply Ascii.eqb_eq in Hc. subst d.
    destruct (IH s Hp) as [post ->]. exists post. reflexivity.
Qed.

(** [str_in] decides the occurrence of a substring. *)
Lemma str_in_spec needle hay : str_in needle hay = true <-> occurs_in needle hay.
Proof.
  split.
  - induction hay as [|c hay IH]; cbn [str_in]; intros H;
      apply orb_true_iff in H; destruct H as [H|H]; try discriminate.
    + destruct (starts_with_sound _ _ H) as [post E].
      exists EmptyString, post. exact E.
    + destruct (starts_with_sound _ _ H) as [post E].
      exists EmptyString, post. exact E.
    + destruct (IH H) as [pre [post E]].
      exists (String c pre), post. rewrite E. reflexivity.
  - intros [pre [post ->]]. induction pre as [|c pre IH].
    + cbn [append]. destruct (needle ++ post)%string eqn:E;
        cbn [str_in]; rewrite <- E, starts_with_append; reflexivity.
    + cbn [append str_in]. rewrite IH. apply orb_true_r.
Qed.

Lemma lower_occurs_in needle hay :
  lower needle = needle -> occurs_in needle hay -> occurs_in needle (lower hay).
Proof.
  intros Hn [pre [post ->]]. exists (lower pre), (lower post).
  rewrite !lower_append, Hn. reflexivity.
Qed.

(** C5. [detect_paywall] is true whenever the content has fewer than 50
    words, and whenever the content contains the phrase
    "this post is for paid subscribers", whatever its length. *)
Theorem detect_paywall_flags (content title : string) :
  ((List.length (split content) < 50)%nat -> detect_paywall content title = true) /\
  (occurs_in "this post is for paid subscribers" content ->
   detect_paywall content title = true).
Proof.
  unfold detect_paywall. cbv zeta. split.
  - intros Hlen. destruct (existsb _ _); [reflexivity|].
    destruct (Z.ltb_spec (Z.of_nat (List.length (split content))) 50);
      [reflexivity | lia].
  - intros Hocc.
    assert (E : existsb
                  (fun indicator =>
                     str_in indicator (lower content) || str_in indicator (lower title))
                  paywall_indicators = true).
    { apply existsb_exists. exists "this post is for paid subscribers". split.
      - right. left. reflexivity.
      - apply orb_true_iff. left. apply str_in_spec.
        apply lower_occurs_in; [reflexivity | exact Hocc]. }
    rewrite E. reflexivity.
Qed.

Lemma detect_paywall_flags_witness :
  detect_paywall "short text" "title" = true /\
  detect_paywall "Note: this post is for paid subscribers only." "title" = true.
Proof.
  split.
  - apply (proj1 (detect_paywall_flags "short text" "title")). simpl. lia.
  - apply (proj2 (detect_paywall_flags
                    "Note: this post is for paid subscribers only." "title")).
    exists "Note: ", " only.". reflexivity.
Defined.

(** ** Categories *)

Lemma dict_get_absent {V : Type} (d : list (string * V)) k default :
  ~ In k (map fst d) -> dict_get d k default = default.
Proof.
  induction d as [|[k' v] d IH]; cbn [dict_get map fst In]; intros H.
  - reflexivity.
  - destruct (String.eqb_spec k' k) as [E|N].
    + exfalso. apply H. left. exact E.
    + apply IH. intros Hin. apply H. right. exact Hin.
Qed.

Lemma dict_get_present {V : Type} (d : list (string * V)) k v default :
  NoDup (map fst d) -> In (k, v) d -> dict_get d k default = v.
Proof.
  induction d as [|[k' v'] d IH]; cbn [dict_get map fst In]; intros Hnd Hin.
  - contradiction.
  - inversion Hnd as [|? ? Hk' Hnd']; subst.
    destruct Hin as [[= -> ->]|Hin].
    + rewrite String.eqb_refl. reflexivity.
    + destruct (String.eqb_spec k' k) as [E|N].
      * exfalso. apply Hk'. subst k'. apply (in_map fst) in Hin. exact Hin.
      * apply IH; assumption.
Qed.

(** The keys of the table are distinct, as the keys of a dict are. *)
Lemma source_categories_keys_distinct : NoDup (map fst source_categories).
Proof.
  cbn [source_categories map fst].
  repeat (constructor;
          [cbn [In]; intros H;
           repeat (destruct H as [H|H]; [discriminate H|]); exact H|]).
  constructor.
Qed.

(** A source of the table gets the category the table gives it. *)
Lemma categorize_newsletter_listed source category :
  In (source, category) source_categories ->
  categorize_newsletter source = category.
Proof. apply dict_get_present, source_categories_keys_distinct. Qed.

(** C8. A source name that is not in the table of [categorize_newsletter]
    gets the category "Other". *)
Theorem categorize_newsletter_fallback (source : string) :
  ~ In source (map fst source_categories) ->
  categorize_newsletter source = "Other".
Proof. apply dict_get_absent. Qed.

Lemma categorize_newsletter_fallback_witness :
  categorize_newsletter "Some Unlisted Newsletter" = "Other".
Proof.
  apply (categorize_newsletter_fallback "Some Unlisted Newsletter").
  cbn [source_categories map fst In]. intros H.
  repeat (destruct H as [H|H]; [discriminate H|]). exact H.
Defined.

(** ** The ledger *)

(** Induction on a value, with the hypothesis on every element of a list and
    every value of a dict. *)
Fixpoint pyval_rect_nested (P : pyval -> Prop)
  (HNone : P VNone) (HBool : forall b, P (VBool b)) (HInt : forall z, P (VInt z))
  (HFloat : forall x, P (VFloat x)) (HStr : forall s, P (VStr s))
  (HList : forall l, Forall P l -> P (VList l))
  (HDict : forall d, Forall (fun kv => P (snd kv)) d -> P (VDict d))
  (HDatetime : forall t, P (VDatetime t))
  (v : pyval) {struct v} : P v :=
  let rec := pyval_rect_nested P HNone HBool HInt HFloat HStr HList HDict HDatetime in
  match v with
  | VNone => HNone
  | VBool b => HBool b
  | VInt z => HInt z
  | VFloat x => HFloat x
  | VStr s => HStr s
  | VList l =>
      HList l ((fix go (l : list pyval) : Forall P l :=
                  match l with
                  | [] => Forall_nil P
                  | x :: l' => Forall_cons x (rec x) (go l')
                  end) l)
  | VDict d =>
      HDict d ((fix go (d : list (string * pyval))
                  : Forall (fun kv => P (snd kv)) d :=
                  match d with
                  | [] => Forall_nil _
                  | kv :: d' =>
                      @Forall_cons _ (fun kv => P (snd kv)) kv d' (rec (snd kv)) (go d')
                  end) d)
  | VDatetime t => HDatetime t
  end.

Lemma dict_set_fresh {V : Type} (d : list (string * V)) k v :
  ~ In k (map fst d) -> dict_set d k v = d ++ [(k, v)].
Proof.
  induction d as [|[k' v'] d IH]; cbn [dict_set map fst In app]; intros H.
  - reflexivity.
  - destruct (String.eqb_spec k' k) as [E|N].
    + exfalso. apply H. left. exact E.
    + rewrite IH; [reflexivity|]. intros Hin. apply H. right. exact Hin.
Qed.

Lemma fold_dict_set_distinct {V : Type} (items acc : list (string * V)) :
  NoDup (map fst (acc ++ items)) ->
  fold_left (fun d kv => dict_set d (fst kv) (snd kv)) items acc = acc ++ items.
Proof.
  revert acc. induction items as [|[k v] items IH]; intros acc Hnd; cbn [fold_left].
  - rewrite app_nil_r. reflexivity.
  - cbn [fst snd]. rewrite dict_set_fresh.
    + rewrite IH; rewrite <- app_assoc; [reflexivity | exact Hnd].
    + rewrite map_app in Hnd. cbn [map fst] in Hnd.
      apply NoDup_remove_2 in Hnd. intros Hin. apply Hnd.
      apply in_or_app. left. exact Hin.
Qed.

(** Reading the items of a dict back gives the dict. *)
Lemma dict_of_items_distinct {V : Type} (items : list (string * V)) :
  NoDup (map fst items) -> dict_of_items items = items.
Proof. intros H. unfold dict_of_items. apply fold_dict_set_distinct. exact H. Qed.

Section LedgerFacts.

Variable ext : Externals.

(** Every JSON-native value is read back as it was written. *)
Lemma json_round_trip (v : pyval) :
  json_native v -> of_json (to_json ext v) = v.
Proof.
  induction v as [| | | | |l IH|d IH|t] using pyval_rect_nested;
    cbn [to_json of_json json_native]; try reflexivity.
  - intros Hn. f_equal. rewrite map_map.
    induction IH as [|x l Hx _ IHl]; cbn [map fold_right] in *; [reflexivity|].
    destruct Hn as [Hn1 Hn2]. rewrite Hx by exact Hn1. rewrite IHl by exact Hn2.
    reflexivity.
  - intros [Hnd Hn]. f_equal. rewrite map_map. cbn [fst snd].
    assert (E : map (fun kv : string * pyval =>
                       (fst kv, of_json (to_json ext (snd kv)))) d = d).
    { clear Hnd. induction IH as [|[k x] d Hx _ IHd];
        cbn [map fold_right fst snd] in *; [reflexivity|].
      destruct Hn as [Hn1 Hn2]. rewrite Hx by exact Hn1. rewrite IHd by exact Hn2.
      reflexivity. }
    rewrite E. apply dict_of_items_distinct. exact Hnd.
  - contradiction.
Qed.

(** A datetime is read back as the string [str] gives for it. *)
Lemma json_datetime_as_string (t : datetime) :
  of_json (to_json ext (VDatetime t)) = VStr (datetime_str ext t).
Proof. reflexivity. Qed.

Lemma ledger_record_native t l d s : json_native (ledger_record t l d s).
Proof.
  cbn. split; [|tauto].
  repeat (constructor;
          [cbn [In]; intros H;
           repeat (destruct H as [H|H]; [discriminate H|]); exact H|]).
  constructor.
Qed.

Lemma records_native l :
  Forall is_ledger_record l ->
  fold_right (fun x P => json_native x /\ P) True l.
Proof.
  induction 1 as [|x l [t [k [d [s ->]]]] _ IH]; cbn [fold_right]; [exact I|].
  split; [apply ledger_record_native | exact IH].
Qed.

Lemma well_formed_ledger_native v : well_formed_ledger v -> json_native v.
Proof.
  intros [featured [reviewed [-> [Hf Hr]]]]. cbn [json_native map fst snd fold_right].
  split.
  - constructor; [cbn [In]; intros [H|[]]; discriminate H|].
    constructor; [intros []|constructor].
  - repeat split; apply records_native; assumption.
Qed.

Lemma load_after_save st :
  load_processed_articles ext (save_processed_articles ext st)
  = Ok (of_json (to_json ext (processed_articles st))).
Proof.
  unfold load_processed_articles, save_processed_articles, write_file.
  cbn [files processed_file]. rewrite String.eqb_refl. reflexivity.
Qed.

End LedgerFacts.

Lemma empty_ledger_well_formed : well_formed_ledger empty_ledger.
Proof. exists [], []. repeat split; constructor. Qed.

(** C4. Saving a well-formed ledger and loading it again gives the ledger
    back; so it is for the empty default.  (A datetime would come back as a
    string: lemma [json_datetime_as_string].) *)
Theorem ledger_round_trip (ext : Externals) (st : state) :
  well_formed_ledger (processed_articles st) ->
  load_processed_articles ext (save_processed_articles ext st)
  = Ok (processed_articles st).
Proof.
  intros Hwf. rewrite load_after_save. f_equal.
  apply json_round_trip, well_formed_ledger_native, Hwf.
Qed.

Lemma ledger_round_trip_witness :
  load_processed_articles offline (save_processed_articles offline sample_state)
  = Ok sample_ledger /\
  load_processed_articles offline
    (save_processed_articles offline
       (mkState "processed_articles.json" empty_ledger no_files))
  = Ok empty_ledger.
Proof.
  split.
  - apply (ledger_round_trip offline sample_state).
    exists [ledger_record "Seen" "https://example.com/seen"
                          "2024-12-25T00:00:00" (Fin 50)], [].
    split; [reflexivity|]. split; [|constructor].
    constructor; [|constructor]. eexists _, _, _, _. reflexivity.
  - apply (ledger_round_trip offline
             (mkState "processed_articles.json" empty_ledger no_files)).
    exact empty_ledger_well_formed.
Defined.

(** ** Deduplication against the ledger *)

Lemma dict_lookup_get {V : Type} (d : list (string * V)) k v default :
  dict_lookup d k = Some v -> dict_get d k default = v.
Proof.
  induction d as [|[k' v'] d IH]; cbn [dict_lookup dict_get]; [discriminate|].
  destruct (String.eqb k' k); [intros [= ->]; reflexivity | exact IH].
Qed.

Lemma mapM_In {A B : Type} (f : A -> result B) l l' x y :
  mapM f l = Ok l' -> In x l -> f x = Ok y -> In y l'.
Proof.
  intros H Hx Hy. apply mapM_Forall2 in H.
  induction H as [|a b l l' Hab _ IH]; [contradiction|].
  destruct Hx as [->|Hx].
  - left. congruence.
  - right. apply IH, Hx.
Qed.

Lemma str_in_list_In s l : In (VStr s) l -> str_in_list s l = true.
Proof.
  intros H. unfold str_in_list. apply existsb_exists.
  exists (VStr s). split; [exact H | apply String.eqb_refl].
Qed.

Section Deduplication.

Variable ext : Externals.
Variable processed : pyval.
Variable l : string.
Hypothesis in_ledger : ledger_has_link processed l.

(** The link is among the links the membership test goes through. *)
Lemma ledger_links_hold featured_links reviewed_links :
  ledger_links processed "featured" = Ok featured_links ->
  ledger_links processed "reviewed" = Ok reviewed_links ->
  str_in_list l (featured_links ++ reviewed_links) = true.
Proof.
  destruct in_ledger as [d [bucket [recs [r [-> [Hb [Hd [Hr Hl]]]]]]]].
  assert (Hin : forall links,
             ledger_links (VDict d) bucket = Ok links -> In (VStr l) links).
  { intros links. unfold ledger_links. cbn [py_get bind].
    rewrite (dict_lookup_get _ _ _ (VList []) Hd). cbn [py_iter bind]. intros Hm.
    eapply mapM_In; [exact Hm | exact Hr |]. cbn [py_getitem]. rewrite Hl. reflexivity. }
  intros Hf Hv. apply str_in_list_In, in_or_app.
  destruct Hb as [-> | ->]; [left; apply Hin, Hf | right; apply Hin, Hv].
Qed.

Lemma fetch_entry_excludes cutoff_date source_name entry article :
  fetch_entry ext processed cutoff_date source_name entry = Ok (Some article) ->
  link article <> l.
Proof.
  unfold fetch_entry.
  destruct (match entry_published_parsed entry with
            | Some (Some t) => Ok t
            | Some None => Raise TypeError
            | None => Ok (now ext)
            end) as [pub_date|e]; [|discriminate].
  cbn [bind]. destruct (pub_date <? cutoff_date)%Z; [discriminate|].
  destruct (getattr (entry_link entry)) as [entry_link'|e]; [|discriminate].
  cbn [bind].
  destruct (ledger_links processed "featured") as [fl|e] eqn:Hf; [|discriminate].
  cbn [bind].
  destruct (ledger_links processed "reviewed") as [rl|e] eqn:Hr; [|discriminate].
  cbn [bind].
  destruct (str_in_list entry_link' (fl ++ rl)) eqn:Hin; [discriminate|].
  destruct (extract_content ext entry) as [content|e]; [|discriminate].
  cbn [bind]. destruct (getattr (entry_title entry)) as [t|e]; [|discriminate].
  cbn [bind]. destruct (scrape_comments ext entry_link') as [c|e]; [|discriminate].
  cbn [bind]. intros [= <-]. cbn [link]. intros ->.
  rewrite (ledger_links_hold _ _ Hf Hr) in Hin. discriminate.
Qed.

Lemma fetch_entries_excludes cutoff_date source_name entries articles :
  Forall (fun a => link a <> l) articles ->
  Forall (fun a => link a <> l)
         (fst (fetch_entries ext processed cutoff_date source_name entries articles)).
Proof.
  revert articles. induction entries as [|entry entries IH]; intros articles Ha;
    cbn [fetch_entries]; [exact Ha|].
  destruct (fetch_entry ext processed cutoff_date source_name entry)
    as [[article|]|e] eqn:He.
  - apply IH. apply Forall_app. split; [exact Ha|].
    constructor; [|constructor]. eapply fetch_entry_excludes, He.
  - apply IH, Ha.
  - exact Ha.
Qed.

Lemma fetch_feed_excludes cutoff_date feed_url articles :
  Forall (fun a => link a <> l) articles ->
  Forall (fun a => link a <> l)
         (fst (fetch_feed ext processed cutoff_date feed_url articles)).
Proof.
  intros Ha. unfold fetch_feed. destruct (parse_feed ext feed_url) as [feed|e].
  - apply fetch_entries_excludes, Ha.
  - exact Ha.
Qed.

Lemma fetch_feeds_excludes cutoff_date feeds articles result :
  Forall (fun a => link a <> l) articles ->
  fetch_feeds ext processed cutoff_date feeds articles = Ok result ->
  Forall (fun a => link a <> l) result.
Proof.
  revert articles. induction feeds as [|feed_url feeds IH]; intros articles Ha;
    cbn [fetch_feeds].
  - intros [= <-]. exact Ha.
  - pose proof (fetch_feed_excludes cutoff_date feed_url articles Ha) as Hf.
    destruct (fetch_feed ext processed cutoff_date feed_url articles)
      as [articles' [e|]]; cbn [fst] in Hf.
    + destruct (is_Exception e); [apply IH, Hf | discriminate].
    + apply IH, Hf.
Qed.

End Deduplication.

Lemma fetch_recent_articles_excludes (ext : Externals) (st : state) (days_back : Z)
  (l : string) (articles : list Article) :
  ledger_has_link (processed_articles st) l ->
  fetch_recent_articles ext st days_back = Ok articles ->
  Forall (fun a => link a <> l) articles.
Proof.
  intros Hl. unfold fetch_recent_articles.
  destruct (timedelta_days days_back) as [delta|e]; [|discriminate]. cbn [bind].
  destruct (datetime_sub (now ext) delta) as [cutoff_date|e]; [|discriminate].
  cbn [bind]. intros Hf.
  eapply fetch_feeds_excludes; [exact Hl | constructor | exact Hf].
Qed.

(** C3. When the ledger holds the link [l] in its featured or its reviewed
    list, no article of the list [fetch_recent_articles] returns has the link
    [l]: an entry with that link is left out, whatever else it holds. *)
Theorem fetch_excludes_processed (ext : Externals) (st : state) (days_back : Z)
  (l : string) (articles : list Article) :
  ledger_has_link (processed_articles st) l ->
  fetch_recent_articles ext st days_back = Ok articles ->
  forall a, In a articles -> link a <> l.
Proof.
  intros Hl Hf. apply Forall_forall.
  eapply fetch_recent_articles_excludes; eassumption.
Qed.

Lemma fetch_excludes_processed_witness :
  exists articles,
    fetch_recent_articles offline sample_state 7 = Ok articles /\
    map link articles = ["https://example.com/new"] /\
    forall a, In a articles -> link a <> "https://example.com/seen".
Proof.
  eexists. split; [vm_compute; reflexivity|]. split; [reflexivity|].
  apply (fetch_excludes_processed offline sample_state 7 "https://example.com/seen").
  - exists [("featured",
             VList [ledger_record "Seen" "https://example.com/seen"
                                  "2024-12-25T00:00:00" (Fin 50)]);
            ("reviewed", VList [])],
      "featured",
      [ledger_record "Seen" "https://example.com/seen" "2024-12-25T00:00:00" (Fin 50)],
      [("title", VStr "Seen"); ("link", VStr "https://example.com/seen");
       ("date_processed", VStr "2024-12-25T00:00:00");
       ("quality_score", VFloat (Fin 50))].
    repeat split; try reflexivity; [left; reflexivity | left; reflexivity].
  - vm_compute. reflexivity.
Defined.

(** ** The categorised sections of the page *)

Section Grouping.

Lemma group_add_keys categorized category article k :
  In k (map fst (group_add categorized category article)) <->
  k = category \/ In k (map fst categorized).
Proof.
  induction categorized as [|[c l] rest IH]; cbn [group_add map fst In].
  - intuition congruence.
  - destruct (String.eqb_spec c category) as [E|N]; cbn [map fst In].
    + subst c. intuition congruence.
    + rewrite IH. intuition congruence.
Qed.

Lemma group_add_NoDup categorized category article :
  NoDup (map fst categorized) ->
  NoDup (map fst (group_add categorized category article)).
Proof.
  induction categorized as [|[c l] rest IH]; cbn [group_add map fst]; intros H.
  - constructor; [intros [] | constructor].
  - inversion H as [|? ? Hc Hrest]; subst.
    destruct (String.eqb_spec c category) as [E|N]; cbn [map fst].
    + constructor; assumption.
    + constructor; [|apply IH, Hrest].
      rewrite group_add_keys. intros [E|Hin]; [congruence | exact (Hc Hin)].
Qed.

Lemma group_add_sound categorized article :
  Forall sound_item categorized ->
  Forall sound_item
         (group_add categorized (categorize_newsletter (source article)) article).
Proof.
  induction 1 as [|[c l] rest [Hne Hcat] Hrest IH]; cbn [group_add].
  - constructor; [|constructor]. split; cbn [fst snd].
    + discriminate.
    + constructor; [reflexivity | constructor].
  - cbn [fst snd] in *. destruct (String.eqb_spec c (categorize_newsletter (source article))) as [E|N].
    + constructor; [|assumption]. split; cbn [fst snd].
      * intros Happ. apply app_eq_nil in Happ. destruct Happ as [_ Happ]. discriminate.
      * apply Forall_app. split; [exact Hcat|]. constructor; [symmetry; exact E | constructor].
    + constructor; [split; assumption | exact IH].
Qed.

Lemma group_add_articles categorized category article :
  Permutation (flat_map snd (group_add categorized category article))
              (article :: flat_map snd categorized).
Proof.
  induction categorized as [|[c l] rest IH]; cbn [group_add flat_map snd app].
  - apply Permutation_refl.
  - destruct (String.eqb c category); cbn [flat_map snd].
    + rewrite <- app_assoc. cbn [app].
      apply Permutation_sym, Permutation_middle.
    + eapply perm_trans; [apply Permutation_app_head, IH|].
      apply Permutation_sym, Permutation_middle.
Qed.

Lemma categorize_from_spec other_articles categorized :
  NoDup (map fst categorized) -> Forall sound_item categorized ->
  let result :=
    fold_left (fun categorized article =>
                 group_add categorized (categorize_newsletter (source article)) article)
              other_articles categorized in
  NoDup (map fst result) /\ Forall sound_item result /\
  Permutation (flat_map snd result) (flat_map snd categorized ++ other_articles).
Proof.
  revert categorized.
  induction other_articles as [|a l IH]; intros categorized Hnd Hs; cbn [fold_left].
  - rewrite app_nil_r. repeat split; [assumption | assumption | apply Permutation_refl].
  - destruct (IH (group_add categorized (categorize_newsletter (source a)) a))
      as [H1 [H2 H3]].
    + apply group_add_NoDup, Hnd.
    + apply group_add_sound, Hs.
    + repeat split; [exact H1 | exact H2 |].
      eapply perm_trans; [exact H3|].
      eapply perm_trans; [apply Permutation_app_tail, group_add_articles|].
      cbn [app]. apply Permutation_middle.
Qed.

Lemma categorize_all_spec other_articles :
  NoDup (map fst (categorize_all other_articles)) /\
  Forall sound_item (categorize_all other_articles) /\
  Permutation (flat_map snd (categorize_all other_articles)) other_articles.
Proof.
  apply (categorize_from_spec other_articles []); constructor.
Qed.

Lemma sorted_categories_perm other_articles :
  Permutation (sorted_categories other_articles) (categorize_all other_articles).
Proof. apply sorted_reverse_perm. Qed.

Lemma sorted_categories_sorted other_articles :
  StronglySorted by_size_desc (sorted_categories other_articles).
Proof.
  eapply StronglySorted_impl_In;
    [|apply sorted_reverse_sorted with (good := fun _ : nat => True)].
  - intros a b _ _ Hab. unfold not_below, section_size in Hab.
    apply Nat.ltb_ge in Hab. exact Hab.
  - intros x y _ _ H. apply Nat.ltb_lt in H. apply Nat.ltb_ge. lia.
  - intros x y z _ _ _ H1 H2. apply Nat.ltb_ge in H1, H2. apply Nat.ltb_ge. lia.
  - apply Forall_forall. intros; exact I.
Qed.

Lemma sort_by_score_perm articles : Permutation (sort_by_score articles) articles.
Proof. apply sorted_reverse_perm. Qed.

Lemma sort_by_score_sorted articles :
  Forall (fun a => is_nan (quality_score a) = false) articles ->
  StronglySorted by_score_desc (sort_by_score articles).
Proof.
  intros Hn.
  assert (Hn' : Forall (fun a => is_nan (quality_score a) = false)
                  (sort_by_score articles)).
  { eapply Permutation_Forall; [apply Permutation_sym, sort_by_score_perm | exact Hn]. }
  rewrite Forall_forall in Hn'.
  eapply StronglySorted_impl_In;
    [|apply sorted_reverse_sorted with (good := fun x => is_nan x = false)].
  - intros a b Ha Hb Hab.
    apply flt_false_fle; [apply Hn', Ha | apply Hn', Hb | exact Hab].
  - intros x y _ _. apply flt_asym.
  - intros x y z _ Hy _. apply flt_negtrans, Hy.
  - exact Hn.
Qed.

Lemma rendered_sections_keys other_articles :
  map fst (rendered_sections other_articles)
  = map fst (sorted_categories other_articles).
Proof. unfold rendered_sections. rewrite map_map. reflexivity. Qed.

Lemma rendered_sections_articles (l : list (string * list Article)) :
  Permutation (flat_map snd (map (fun item => (fst item, sort_by_score (snd item))) l))
              (flat_map snd l).
Proof.
  induction l as [|[c arts] l IH]; cbn [map flat_map fst snd]; [apply perm_nil|].
  apply Permutation_app; [apply sort_by_score_perm | exact IH].
Qed.

Lemma StronglySorted_map {A B : Type} (R : A -> A -> Prop) (S : B -> B -> Prop)
  (f : A -> B) l :
  (forall a b, R a b -> S (f a) (f b)) ->
  StronglySorted R l -> StronglySorted S (map f l).
Proof.
  intros H Hs. induction Hs as [|a l Hs IH Ha]; cbn [map]; constructor.
  - exact IH.
  - apply Forall_map. eapply Forall_impl; [|exact Ha]. intros b. apply H.
Qed.

End Grouping.

Lemma render_sections_sorted other_articles :
  map render_section (sorted_categories other_articles)
  = map render_sorted_section (rendered_sections other_articles).
Proof.
  unfold rendered_sections. rewrite map_map. apply map_ext. intros [c arts].
  unfold render_section, render_sorted_section, section_head. cbn [fst snd].
  unfold sort_by_score at 2. rewrite sorted_reverse_length. reflexivity.
Qed.

(** C9. The other articles are written in sections: every article stands in
    the section of the category of its source (the category is "Other" for a
    source that is not in the table), once; the sections stand in the order
    of non-increasing article count; and, the scores being numbers, the
    articles of a section stand in the order of non-increasing score.  The
    page is made of these sections in this order. *)
Theorem rendered_sections_spec (other_articles : list Article) :
  let sections := rendered_sections other_articles in
  (Forall sound_item sections /\
   NoDup (map fst sections) /\
   Permutation (flat_map snd sections) other_articles /\
   (forall a, In a other_articles ->
      exists articles,
        In (categorize_newsletter (source a), articles) sections /\ In a articles) /\
   (forall a, In a other_articles ->
      ~ In (source a) (map fst source_categories) ->
      exists articles, In ("Other", articles) sections /\ In a articles)) /\
  StronglySorted by_size_desc sections /\
  (Forall (fun a => is_nan (quality_score a) = false) other_articles ->
   Forall (fun item => StronglySorted by_score_desc (snd item)) sections) /\
  (forall ext featured_articles, other_articles <> [] ->
     generate_digest_html ext featured_articles other_articles
     = (page_head ext featured_articles other_articles
        ++ featured_heading
        ++ concat_strings (map (render_featured ext) featured_articles)
        ++ (other_open
            ++ concat_strings (map render_sorted_section sections)
            ++ "</div>")
        ++ page_foot)%string).
Proof.
  intros sections.
  destruct (categorize_all_spec other_articles) as [Hnd [Hsound Hperm]].
  pose proof (sorted_categories_perm other_articles) as Hsc.
  assert (Hs : Forall sound_item sections).
  { unfold sections, rendered_sections. apply Forall_map.
    eapply Forall_impl;
      [|eapply Permutation_Forall; [apply Permutation_sym, Hsc | exact Hsound]].
    intros [c arts] [Hne Hcat]. cbn [fst snd] in *. split; cbn [fst snd].
    - intros E. apply Hne.
      apply Permutation_nil. rewrite <- E. apply sort_by_score_perm.
    - eapply Permutation_Forall; [apply Permutation_sym, sort_by_score_perm | exact Hcat]. }
  assert (Hp : Permutation (flat_map snd sections) other_articles).
  { unfold sections, rendered_sections.
    eapply perm_trans; [apply rendered_sections_articles|].
    eapply perm_trans; [apply Permutation_flat_map, Hsc | exact Hperm]. }
  assert (Hin : forall a, In a other_articles ->
            exists articles,
              In (categorize_newsletter (source a), articles) sections /\
              In a articles).
  { intros a Ha. apply (Permutation_in _ (Permutation_sym Hp)) in Ha.
    apply in_flat_map in Ha. destruct Ha as [[c arts] [Hitem Ha]]. cbn [snd] in Ha.
    rewrite Forall_forall in Hs. destruct (Hs _ Hitem) as [_ Hcat].
    rewrite Forall_forall in Hcat. cbn [fst snd] in Hcat.
    rewrite (Hcat a Ha). exists arts. split; assumption. }
  repeat split.
  - exact Hs.
  - unfold sections. rewrite rendered_sections_keys.
    eapply Permutation_NoDup; [apply Permutation_map, Permutation_sym, Hsc | exact Hnd].
  - exact Hp.
  - exact Hin.
  - intros a Ha Hsrc.
    rewrite <- (dict_get_absent source_categories (source a) "Other" Hsrc).
    apply Hin, Ha.
  - unfold sections, rendered_sections.
    eapply StronglySorted_map; [|apply sorted_categories_sorted].
    intros [c1 a1] [c2 a2]. unfold by_size_desc, sort_by_score. cbn [fst snd].
    rewrite !sorted_reverse_length. exact (fun H => H).
  - intros Hn. unfold sections, rendered_sections. apply Forall_map.
    apply Forall_forall. intros [c arts] Hitem. cbn [snd].
    apply sort_by_score_sorted.
    apply Forall_forall. intros a Ha. rewrite Forall_forall in Hn. apply Hn.
    apply (Permutation_in a Hperm).
    apply (Permutation_in _ (Permutation_flat_map snd Hsc)).
    apply in_flat_map. exists (c, arts). split; assumption.
  - intros ext featured_articles Hne. unfold generate_digest_html.
    destruct other_articles as [|a l]; [congruence|].
    fold sections. unfold sections. rewrite render_sections_sorted. reflexivity.
Qed.

Lemma sample_others_are_numbers :
  Forall (fun a => is_nan (quality_score a) = false) sample_others.
Proof. repeat constructor. Qed.

Lemma rendered_sections_spec_witness :
  Forall (fun item => StronglySorted by_score_desc (snd item))
         (rendered_sections sample_others) /\
  map (fun item => (fst item, map title (snd item))) (rendered_sections sample_others)
  = [("Other", ["b"; "d"; "f"]); ("Strategy & Business", ["c"; "a"]);
     ("AI Research & Technical", ["e"])].
Proof.
  split.
  - apply (rendered_sections_spec sample_others). exact sample_others_are_numbers.
  - vm_compute. reflexivity.
Defined.

(** ** Exceptions through [bind] *)

Lemma bind_raises {A B : Type} (r : result A) (k : A -> result B) e :
  bind r k = Raise e -> r = Raise e \/ exists a, r = Ok a /\ k a = Raise e.
Proof.
  destruct r as [a|e']; cbn [bind]; intros H.
  - right. exists a. split; [reflexivity | exact H].
  - left. injection H as <-. reflexivity.
Qed.

Lemma bind_raises_ok {A B : Type} (r : result A) (k : A -> result B) b :
  bind r k = Ok b -> exists a, r = Ok a /\ k a = Ok b.
Proof.
  destruct r as [a|e]; cbn [bind]; [|discriminate].
  intros H. exists a. split; [reflexivity | exact H].
Qed.

Lemma getattr_raises {A : Type} (a : option A) e :
  getattr a = Raise e -> is_Exception e = true.
Proof. destruct a; cbn [getattr]; [discriminate | intros [= <-]; reflexivity]. Qed.

(** ** Summaries fail soft *)

(** A reply with a text gives that text. *)
Lemma summarize_article_text ext article message block blocks text :
  create_message ext "claude-3-5-sonnet-20241022" 200 (summary_prompt article)
  = Ok message ->
  message_content message = block :: blocks ->
  block_text block = Some text ->
  summarize_article ext article = Ok text.
Proof.
  intros Hc Hm Hb. unfold summarize_article, request_summary. cbv zeta.
  rewrite Hc. cbn [bind]. rewrite Hm. cbn [bind]. rewrite Hb. reflexivity.
Qed.

(** C7. When the call of the summarisation service raises an exception that
    [except Exception] catches (a network error, an error of the service), or
    returns a reply with no text in it, [summarize_article] returns the
    placeholder; it never raises such an exception, so a failed summary does
    not end the run. *)
Theorem summarize_article_fails_soft (ext : Externals) (article : Article) :
  let call :=
    create_message ext "claude-3-5-sonnet-20241022" 200 (summary_prompt article) in
  (forall e, call = Raise e -> is_Exception e = true ->
             summarize_article ext article = Ok summary_unavailable) /\
  (forall message, call = Ok message -> malformed message ->
                   summarize_article ext article = Ok summary_unavailable) /\
  (forall e, summarize_article ext article = Raise e -> is_Exception e = false) /\
  summary_unavailable = "Summary unavailable.".
Proof.
  intros call. unfold summarize_article, request_summary. cbv zeta. fold call.
  repeat split.
  - intros e Hc He. rewrite Hc. cbn [bind]. rewrite He. reflexivity.
  - intros message Hc Hm. rewrite Hc. cbn [bind]. unfold malformed in Hm.
    destruct (message_content message) as [|block blocks]; cbn [bind]; [reflexivity|].
    rewrite Hm. reflexivity.
  - intros e. destruct (bind call _) as [text|e'] eqn:E; [discriminate|].
    destruct (is_Exception e') eqn:He; [discriminate|].
    intros [= <-]. exact He.
Qed.

Lemma summarize_article_fails_soft_witness :
  summarize_article offline (sample_article 1000 2) = Ok "Summary unavailable." /\
  summarize_article (sample_ext (Ok (mkMessage []))) (sample_article 1000 2)
  = Ok "Summary unavailable.".
Proof.
  split.
  - apply (proj1 (summarize_article_fails_soft offline (sample_article 1000 2))
             ConnectionError); reflexivity.
  - apply (proj1 (proj2 (summarize_article_fails_soft
                           (sample_ext (Ok (mkMessage []))) (sample_article 1000 2)))
             (mkMessage [])); [reflexivity | exact I].
Defined.

(** With a service that raises nothing but what the handler catches, the
    loop over the featured articles gives every one of them a summary: no
    failed summary ends the run. *)
Lemma summarize_all_returns (ext : Externals) (featured : list Article) :
  (forall model max_tokens prompt e,
     create_message ext model max_tokens prompt = Raise e -> is_Exception e = true) ->
  exists featured', summarize_all ext featured = Ok featured'.
Proof.
  intros Hq. unfold summarize_all. apply mapM_returns.
  apply Forall_forall. intros article _.
  assert (Hs : exists s, summarize_article ext article = Ok s).
  { unfold summarize_article.
    destruct (request_summary ext article) as [text|e] eqn:E;
      [exists text; reflexivity|].
    assert (He : is_Exception e = true).
    { unfold request_summary in E. cbv zeta in E.
      apply bind_raises in E. destruct E as [E|[message [_ E]]];
        [eapply Hq, E|].
      apply bind_raises in E. destruct E as [E|[block [_ E]]].
      - destruct (message_content message); [|discriminate].
        injection E as <-. reflexivity.
      - eapply getattr_raises, E. }
    rewrite He. exists summary_unavailable. reflexivity. }
  destruct Hs as [s Hs]. rewrite Hs. cbn [bind]. eexists. reflexivity.
Qed.

(** ** A run with nothing new *)

(** C6. When [fetch_recent_articles] returns no article, [run_digest] ends
    with no file name and leaves the state as it was: no file is written, the
    ledger file and the ledger in memory are as before. *)
Theorem run_digest_nothing_new (ext : Externals) (st : state)
  (days_back featured_count : Z) :
  fetch_recent_articles ext st days_back = Ok [] ->
  run_digest ext st days_back featured_count = (st, Ok None) /\
  processed_articles (fst (run_digest ext st days_back featured_count))
  = processed_articles st /\
  forall name,
    files (fst (run_digest ext st days_back featured_count)) name = files st name.
Proof.
  intros Hf. unfold run_digest. rewrite Hf. cbn [fst]. repeat split.
Qed.

Lemma run_digest_nothing_new_witness :
  run_digest offline idle_state 7 7 = (idle_state, Ok None).
Proof.
  apply (run_digest_nothing_new offline idle_state 7 7). vm_compute. reflexivity.
Defined.

(** ** The fetch returns, and a run with something new *)

Lemma mapM_raises {A B : Type} (f : A -> result B) l e :
  mapM f l = Raise e -> exists x, In x l /\ f x = Raise e.
Proof.
  induction l as [|a l IH]; cbn [mapM]; [discriminate|].
  destruct (f a) as [b|e'] eqn:Ea; cbn [bind].
  - destruct (mapM f l) as [bs|e'']; cbn [bind]; [discriminate|].
    intros [= ->]. destruct (IH eq_refl) as [x [Hx Hfx]].
    exists x. split; [right; exact Hx | exact Hfx].
  - intros [= ->]. exists a. split; [left; reflexivity | exact Ea].
Qed.

Lemma ledger_links_raises processed bucket e :
  ledger_links processed bucket = Raise e -> is_Exception e = true.
Proof.
  unfold ledger_links.
  destruct (py_get processed bucket (VList [])) as [recs|e'] eqn:Hg; cbn [bind].
  - destruct (py_iter recs) as [arts|e''] eqn:Hi; cbn [bind].
    + intros Hm. apply mapM_raises in Hm. destruct Hm as [art [_ Hart]].
      destruct art; cbn [py_getitem] in Hart; try (injection Hart as <-; reflexivity).
      destruct (dict_lookup d "link"); [discriminate | injection Hart as <-; reflexivity].
    + intros [= <-]. destruct recs; cbn [py_iter] in Hi; try discriminate;
        injection Hi as <-; reflexivity.
  - intros [= <-]. destruct processed; cbn [py_get] in Hg; try discriminate;
      injection Hg as <-; reflexivity.
Qed.

Lemma timedelta_days_returns d :
  (0 <= d <= 999999999)%Z -> timedelta_days d = Ok (d * 86400000000)%Z.
Proof.
  intros H. unfold timedelta_days.
  destruct (Z.leb_spec (Z.abs d) 999999999); [reflexivity | lia].
Qed.

Lemma datetime_sub_returns t delta :
  (delta <= t <= datetime_max)%Z -> (0 <= delta)%Z ->
  datetime_sub t delta = Ok (t - delta)%Z.
Proof.
  intros H H0. unfold datetime_sub. cbv zeta.
  destruct (Z.leb_spec 0 (t - delta)); [|lia].
  destruct (Z.leb_spec (t - delta) datetime_max); [reflexivity | lia].
Qed.

Section FetchReturns.

Variable ext : Externals.
Hypothesis quiet : uninterrupted ext.

Lemma scrape_comments_returns url : exists n, scrape_comments ext url = Ok n.
Proof.
  unfold scrape_comments. destruct (scrape_page ext url) as [n|e] eqn:E.
  - exists n. reflexivity.
  - rewrite (proj2 quiet url e E). exists 0%Z. reflexivity.
Qed.

Lemma extract_content_raises entry e :
  extract_content ext entry = Raise e -> is_Exception e = true.
Proof.
  unfold extract_content.
  destruct (entry_content entry) as [[|value values]|];
    [intros [= <-]; reflexivity | discriminate |].
  destruct (entry_summary entry); [discriminate|].
  destruct (entry_description entry); discriminate.
Qed.

Lemma fetch_entry_raises processed cutoff_date source_name entry e :
  fetch_entry ext processed cutoff_date source_name entry = Raise e ->
  is_Exception e = true.
Proof.
  unfold fetch_entry. intros H.
  apply bind_raises in H. destruct H as [H|[pub_date [_ H]]].
  { destruct (entry_published_parsed entry) as [[t|]|]; try discriminate.
    injection H as <-. reflexivity. }
  destruct (pub_date <? cutoff_date)%Z; [discriminate|].
  apply bind_raises in H. destruct H as [H|[entry_link' [_ H]]].
  { eapply getattr_raises, H. }
  apply bind_raises in H. destruct H as [H|[fl [_ H]]].
  { eapply ledger_links_raises, H. }
  apply bind_raises in H. destruct H as [H|[rl [_ H]]].
  { eapply ledger_links_raises, H. }
  destruct (str_in_list entry_link' (fl ++ rl)); [discriminate|].
  apply bind_raises in H. destruct H as [H|[content [_ H]]].
  { eapply extract_content_raises, H. }
  apply bind_raises in H. destruct H as [H|[entry_title' [_ H]]].
  { eapply getattr_raises, H. }
  apply bind_raises in H. destruct H as [H|[n [_ H]]].
  { destruct (scrape_comments_returns entry_link') as [n E].
    rewrite E in H. discriminate. }
  discriminate.
Qed.

Lemma fetch_entries_raises processed cutoff_date source_name entries articles
  articles' e :
  fetch_entries ext processed cutoff_date source_name entries articles
  = (articles', Some e) ->
  is_Exception e = true.
Proof.
  revert articles. induction entries as [|entry entries IH]; intros articles;
    cbn [fetch_entries]; [discriminate|].
  destruct (fetch_entry ext processed cutoff_date source_name entry)
    as [[article|]|e'] eqn:He.
  - apply IH.
  - apply IH.
  - intros [= _ <-]. eapply fetch_entry_raises, He.
Qed.

Lemma fetch_feeds_returns processed cutoff_date feeds articles :
  exists result, fetch_feeds ext processed cutoff_date feeds articles = Ok result.
Proof.
  revert articles. induction feeds as [|feed_url feeds IH]; intros articles;
    cbn [fetch_feeds].
  - exists articles. reflexivity.
  - destruct (fetch_feed ext processed cutoff_date feed_url articles)
      as [articles' [e|]] eqn:Hf; [|apply IH].
    assert (He : is_Exception e = true).
    { unfold fetch_feed in Hf.
      destruct (parse_feed ext feed_url) as [feed|e'] eqn:Hp.
      - eapply fetch_entries_raises, Hf.
      - injection Hf as _ <-. apply (proj1 quiet feed_url e' Hp). }
    rewrite He. apply IH.
Qed.

(** With externals that raise nothing but what a feed's [except] catches,
    and a lookback that leaves the cutoff within the calendar, the fetch
    returns a list. *)
Lemma fetch_recent_articles_returns st days_back :
  (0 <= days_back <= 999999999)%Z ->
  (days_back * 86400000000 <= now ext <= datetime_max)%Z ->
  exists articles, fetch_recent_articles ext st days_back = Ok articles.
Proof.
  intros Hd Hn. unfold fetch_recent_articles.
  rewrite (timedelta_days_returns days_back Hd). cbn [bind].
  rewrite (datetime_sub_returns (now ext) (days_back * 86400000000)) by lia.
  cbn [bind]. apply fetch_feeds_returns.
Qed.

End FetchReturns.

(** A run that finds one new article: it is scored 15.12 (5 words, 3
    comments; the float next to 15.12), featured and summarised; the page is written, the article is
    recorded in the ledger, and the ledger file holds the new ledger. *)
Example run_digest_something_new :
  let st' := fst (run_digest online sample_state 7 7) in
  snd (run_digest online sample_state 7 7)
  = Ok (Some "ai_digest_20250101_000000.html") /\
  processed_articles st'
  = VDict [("featured",
            VList [ledger_record "Seen" "https://example.com/seen"
                                 "2024-12-25T00:00:00" (Fin 50);
                   ledger_record "An entry" "https://example.com/new"
                                 "2025-01-01T00:00:00" (Fin (8511803295730237 # 562949953421312))]);
           ("reviewed", VList [])] /\
  files st' "processed_articles.json"
  = Some (JsonText (to_json online (processed_articles st'))) /\
  files st' "ai_digest_20250101_000000.html"
  = Some (PlainText
            (generate_digest_html online
               [mkArticle "An entry" "https://example.com/new" sample_now
                          "An author" "a summary of the entry" "The Strategy Stack"
                          5 3 (Fin (8511803295730237 # 562949953421312)) "A summary." true] [])).
Proof. vm_compute. repeat split. Qed.

(** ** The ledger over a run *)

Section LedgerOverARun.

Variable ext : Externals.

Lemma record_of_is_record article : is_ledger_record (record_of ext article).
Proof. unfold record_of. eexists _, _, _, _. reflexivity. Qed.

Lemma record_all_featured featured reviewed articles :
  record_all ext (VDict [("featured", VList featured); ("reviewed", VList reviewed)])
             "featured" articles
  = (VDict [("featured", VList (featured ++ map (record_of ext) articles));
            ("reviewed", VList reviewed)], None).
Proof.
  revert featured. induction articles as [|a l IH]; intros featured;
    cbn [record_all map].
  - rewrite app_nil_r. reflexivity.
  - change (ledger_append
              (VDict [("featured", VList featured); ("reviewed", VList reviewed)])
              "featured" (record_of ext a))
      with (Ok (VDict [("featured", VList (featured ++ [record_of ext a]));
                       ("reviewed", VList reviewed)])).
    cbv beta iota. rewrite IH, <- app_assoc. reflexivity.
Qed.

Lemma record_all_reviewed featured reviewed articles :
  record_all ext (VDict [("featured", VList featured); ("reviewed", VList reviewed)])
             "reviewed" articles
  = (VDict [("featured", VList featured);
            ("reviewed", VList (reviewed ++ map (record_of ext) articles))], None).
Proof.
  revert reviewed. induction articles as [|a l IH]; intros reviewed;
    cbn [record_all map].
  - rewrite app_nil_r. reflexivity.
  - change (ledger_append
              (VDict [("featured", VList featured); ("reviewed", VList reviewed)])
              "reviewed" (record_of ext a))
      with (Ok (VDict [("featured", VList featured);
                       ("reviewed", VList (reviewed ++ [record_of ext a]))])).
    cbv beta iota. rewrite IH, <- app_assoc. reflexivity.
Qed.

Lemma records_are_records articles :
  Forall is_ledger_record (map (record_of ext) articles).
Proof. apply Forall_map, Forall_forall. intros a _. apply record_of_is_record. Qed.

(** A record of the ledger puts its link in the ledger. *)
Lemma recorded_link featured reviewed article :
  In (record_of ext article) featured \/ In (record_of ext article) reviewed ->
  ledger_has_link
    (VDict [("featured", VList featured); ("reviewed", VList reviewed)])
    (link article).
Proof.
  intros H. unfold ledger_has_link.
  destruct H as [H|H].
  - eexists _, "featured", _, _. split; [reflexivity|].
    split; [left; reflexivity|]. split; [reflexivity|].
    split; [exact H | reflexivity].
  - eexists _, "reviewed", _, _. split; [reflexivity|].
    split; [right; reflexivity|]. split; [reflexivity|].
    split; [exact H | reflexivity].
Qed.

(** A link of the ledger stays in it when records are appended. *)
Lemma ledger_has_link_grows featured reviewed featured' reviewed' l :
  ledger_has_link
    (VDict [("featured", VList featured); ("reviewed", VList reviewed)]) l ->
  ledger_has_link
    (VDict [("featured", VList (featured ++ featured'));
            ("reviewed", VList (reviewed ++ reviewed'))]) l.
Proof.
  intros [d [bucket [recs [r [Hd [Hb [Hl [Hr Hk]]]]]]]].
  injection Hd as <-.
  destruct Hb as [-> | ->]; cbn in Hl; injection Hl as <-.
  - eexists _, "featured", _, r. split; [reflexivity|].
    split; [left; reflexivity|]. split; [reflexivity|].
    split; [apply in_or_app; left; exact Hr | exact Hk].
  - eexists _, "reviewed", _, r. split; [reflexivity|].
    split; [right; reflexivity|]. split; [reflexivity|].
    split; [apply in_or_app; left; exact Hr | exact Hk].
Qed.

Lemma scored_as_link a b : scored_as a b -> link b = link a.
Proof.
  unfold scored_as, score_article.
  destruct (calculate_quality_score a); [|discriminate].
  cbn [bind]. intros [= <-]. reflexivity.
Qed.

Lemma select_top_articles_links articles count featured others :
  select_top_articles articles count = Ok (featured, others) ->
  Permutation (map link (featured ++ others)) (map link articles).
Proof.
  intros Hsel.
  destruct (select_top_articles_inv _ _ _ _ Hsel) as [scored [Hsc [-> ->]]].
  rewrite slice_to_from.
  eapply perm_trans; [apply Permutation_map, sorted_reverse_perm|].
  assert (E : map link scored = map link articles).
  { clear Hsel. induction Hsc as [|a b l l' Hab _ IH]; cbn [map]; [reflexivity|].
    rewrite (scored_as_link _ _ Hab), IH. reflexivity. }
  rewrite E. apply Permutation_refl.
Qed.

Lemma summarize_all_links featured featured' :
  summarize_all ext featured = Ok featured' ->
  map link featured' = map link featured.
Proof.
  intros H. unfold summarize_all in H. apply mapM_Forall2 in H.
  induction H as [|a b l l' Hab _ IH]; cbn [map]; [reflexivity|].
  rewrite IH. f_equal.
  destruct (summarize_article ext a); [|discriminate].
  cbn [bind] in Hab. injection Hab as <-. reflexivity.
Qed.

Lemma record_of_link_in article articles :
  In (link article) (map link articles) ->
  exists b, In (record_of ext b) (map (record_of ext) articles) /\
            link b = link article.
Proof.
  intros H. apply in_map_iff in H. destruct H as [b [Hl Hb]].
  exists b. split; [apply in_map, Hb | exact Hl].
Qed.

(** A run that returns a file name, from a well-formed ledger: the ledger
    is well-formed afterwards, the ledger file holds it, it has kept its
    links, and it holds the link of every article that was fetched. *)
Lemma run_digest_records st days_back featured_count st' name :
  well_formed_ledger (processed_articles st) ->
  run_digest ext st days_back featured_count = (st', Ok (Some name)) ->
  exists articles,
    fetch_recent_articles ext st days_back = Ok articles /\
    well_formed_ledger (processed_articles st') /\
    load_processed_articles ext st' = Ok (processed_articles st') /\
    (forall l, ledger_has_link (processed_articles st) l ->
               ledger_has_link (processed_articles st') l) /\
    (forall a, In a articles -> ledger_has_link (processed_articles st') (link a)).
Proof.
  intros [featured0 [reviewed0 [Hp [Hf0 Hr0]]]]. unfold run_digest.
  destruct (fetch_recent_articles ext st days_back) as [[|a0 articles]|e] eqn:Hfetch;
    try discriminate.
  destruct (select_top_articles (a0 :: articles) featured_count)
    as [[featured others]|e] eqn:Hsel; [|discriminate].
  destruct (summarize_all ext featured) as [featured'|e] eqn:Hsum; [|discriminate].
  cbv zeta. cbn [set_files processed_articles]. rewrite Hp.
  rewrite record_all_featured, record_all_reviewed.
  intros [= <- _]. exists (a0 :: articles). split; [reflexivity|].
  assert (Hwf : well_formed_ledger
                  (VDict [("featured",
                           VList (featured0 ++ map (record_of ext) featured'));
                          ("reviewed",
                           VList (reviewed0 ++ map (record_of ext) others))])).
  { eexists _, _. split; [reflexivity|].
    split; apply Forall_app; split;
      try assumption; apply records_are_records. }
  split; [exact Hwf|]. split; [|split].
  - rewrite load_after_save. cbn [processed_articles set_processed_articles].
    f_equal. apply json_round_trip, well_formed_ledger_native, Hwf.
  - intros l Hl. cbn [processed_articles save_processed_articles set_processed_articles].
    apply ledger_has_link_grows, Hl.
  - intros a Ha. cbn [processed_articles save_processed_articles set_processed_articles].
    pose proof (select_top_articles_links _ _ _ _ Hsel) as Hperm.
    assert (Hin : In (link a) (map link (featured' ++ others))).
    { rewrite map_app, (summarize_all_links _ _ Hsum), <- map_app.
      apply (Permutation_in _ (Permutation_sym Hperm)). apply in_map, Ha. }
    rewrite map_app in Hin. apply in_app_or in Hin.
    destruct Hin as [Hin|Hin];
      destruct (record_of_link_in _ _ Hin) as [b [Hb <-]];
      apply recorded_link; [left | right]; apply in_or_app; right; exact Hb.
Qed.

(** A run that returns a file name has written that file. *)
Lemma run_digest_writes st days_back featured_count st' name :
  run_digest ext st days_back featured_count = (st', Ok (Some name)) ->
  files st' name <> None.
Proof.
  unfold run_digest.
  destruct (fetch_recent_articles ext st days_back) as [[|a0 articles]|e];
    try discriminate.
  destruct (select_top_articles (a0 :: articles) featured_count)
    as [[featured others]|e]; [|discriminate].
  destruct (summarize_all ext featured) as [featured'|e]; [|discriminate].
  cbv zeta.
  destruct (record_all ext _ "featured" featured') as [p [e|]]; [discriminate|].
  destruct (record_all ext p "reviewed" others) as [p' [e|]]; [discriminate|].
  intros [= <- <-].
  cbn [files save_processed_articles set_processed_articles set_files
       processed_file processed_articles].
  unfold write_file.
  destruct (String.eqb _ (processed_file st)); [discriminate|].
  rewrite String.eqb_refl. discriminate.
Qed.

End LedgerOverARun.

(** What one run has fetched, a later run does not fetch again, whatever
    the feeds hold by then. *)
Corollary later_fetch_excludes_earlier (ext ext' : Externals) (st st' : state)
  (days_back featured_count days_back' : Z) (name : string)
  (articles articles' : list Article) :
  well_formed_ledger (processed_articles st) ->
  fetch_recent_articles ext st days_back = Ok articles ->
  run_digest ext st days_back featured_count = (st', Ok (Some name)) ->
  fetch_recent_articles ext' st' days_back' = Ok articles' ->
  forall a a', In a articles -> In a' articles' -> link a' <> link a.
Proof.
  intros Hwf Hfetch Hrun Hfetch' a a' Ha Ha'.
  destruct (run_digest_records ext st days_back featured_count st' name Hwf Hrun)
    as [fetched [Hf [_ [_ [_ Hlinks]]]]].
  rewrite Hfetch in Hf. injection Hf as <-.
  pose proof (fetch_recent_articles_excludes ext' st' days_back' (link a) articles'
                (Hlinks a Ha) Hfetch') as Hex.
  rewrite Forall_forall in Hex. apply Hex, Ha'.
Qed.

(** X15. The next run, a new object made from the files the first run
    left: it fetches none of the articles the first run fetched, whatever the
    feeds hold by then. *)
Corollary next_run_excludes_earlier (ext ext' : Externals) (st st' st2 : state)
  (days_back featured_count days_back' : Z) (name : string)
  (articles articles' : list Article) :
  well_formed_ledger (processed_articles st) ->
  fetch_recent_articles ext st days_back = Ok articles ->
  run_digest ext st days_back featured_count = (st', Ok (Some name)) ->
  init_digest ext' (processed_file st') (files st') = Ok st2 ->
  fetch_recent_articles ext' st2 days_back' = Ok articles' ->
  forall a a', In a articles -> In a' articles' -> link a' <> link a.
Proof.
  intros Hwf Hfetch Hrun Hinit Hfetch' a a' Ha Ha'.
  destruct (run_digest_records ext st days_back featured_count st' name Hwf Hrun)
    as [fetched [Hf [Hwf' [Hload [_ Hlinks]]]]].
  rewrite Hfetch in Hf. injection Hf as <-.
  assert (Hst2 : processed_articles st2 = processed_articles st').
  { unfold init_digest in Hinit.
    destruct (claude_api_key ext') as [[|c k]|]; try discriminate.
    assert (Hl : load_processed_articles ext'
                   (mkState (processed_file st') VNone (files st'))
                 = Ok (processed_articles st')).
    { unfold load_processed_articles in *. cbn [files processed_file].
      destruct (files st' (processed_file st')) as [[j|t]|]; try discriminate;
        [|exact Hload].
      injection Hload as Hj. rewrite <- Hj. reflexivity. }
    rewrite Hl in Hinit. cbn [bind] in Hinit. injection Hinit as <-. reflexivity. }
  pose proof (fetch_recent_articles_excludes ext' st2 days_back' (link a) articles')
    as Hex.
  rewrite Hst2 in Hex. specialize (Hex (Hlinks a Ha) Hfetch').
  rewrite Forall_forall in Hex. apply Hex, Ha'.
Qed.

(* ================================================================== *)
(** * Part III: further properties of the code *)
(* ================================================================== *)

(** ** The comment count of a page *)

Lemma str_append_assoc (a b c : string) :
  ((a ++ b) ++ c)%string = (a ++ b ++ c)%string.
Proof. induction a as [|x a IH]; cbn [append]; [reflexivity | rewrite IH; reflexivity]. Qed.

Lemma str_append_nil_r (a : string) : (a ++ "")%string = a.
Proof. induction a as [|x a IH]; cbn [append]; [reflexivity | rewrite IH; reflexivity]. Qed.

Lemma occurs_in_suffix needle pre s :
  occurs_in needle s -> occurs_in needle (pre ++ s)%string.
Proof.
  intros [a [b ->]]. exists (pre ++ a)%string, b. symmetry. apply str_append_assoc.
Qed.

Lemma occurs_in_prefix needle post : occurs_in needle (needle ++ post)%string.
Proof. exists EmptyString, post. reflexivity. Qed.

Lemma occurs_in_tail needle c s : occurs_in needle s -> occurs_in needle (String c s).
Proof. apply (occurs_in_suffix needle (String c EmptyString)). Qed.

Lemma span_digits_spec s :
  s = (fst (span_digits s) ++ snd (span_digits s))%string /\
  all_digits (fst (span_digits s)).
Proof.
  induction s as [|c s [IH1 IH2]]; cbn [span_digits].
  - split; [reflexivity | constructor].
  - destruct (is_digit c) eqn:Hc.
    + destruct (span_digits s) as [d r]. cbn [fst snd append] in *. split.
      * rewrite <- IH1. reflexivity.
      * constructor; assumption.
    + split; [reflexivity | constructor].
Qed.

Lemma skip_spaces_spec s : exists sp, s = (sp ++ skip_spaces s)%string.
Proof.
  induction s as [|c s [sp IH]]; cbn [skip_spaces].
  - exists EmptyString. reflexivity.
  - destruct (is_space c).
    + exists (String c sp). cbn [append]. rewrite <- IH. reflexivity.
    + exists EmptyString. reflexivity.
Qed.

Lemma strip_word_spec word s r :
  strip_word word s = Some r -> exists p, s = (p ++ r)%string.
Proof.
  revert s. induction word as [|w word IH]; intros s; cbn [strip_word].
  - intros [= ->]. exists EmptyString. reflexivity.
  - destruct s as [|c s]; [discriminate|].
    destruct (Ascii.eqb (lower_ascii c) w); [|discriminate].
    intros H. destruct (IH s H) as [p ->]. exists (String c p). reflexivity.
Qed.

Lemma strip_optional_s_spec s : exists p, s = (p ++ strip_optional_s s)%string.
Proof.
  destruct s as [|c s]; cbn [strip_optional_s].
  - exists EmptyString. reflexivity.
  - destruct (Ascii.eqb (lower_ascii c) "s").
    + exists (String c EmptyString). reflexivity.
    + exists EmptyString. reflexivity.
Qed.

Lemma match_count_word_group word s d n :
  match_count_word word s = Some (d, n) -> digits_of s d.
Proof.
  unfold match_count_word. destruct (span_digits_spec s) as [Hs Hd].
  destruct (span_digits s) as [d' r1]. cbn [fst snd] in *.
  destruct d' as [|c d']; [discriminate|].
  destruct (starts_with_space r1); [|discriminate].
  destruct (strip_word word (skip_spaces r1)) as [r3|]; [|discriminate].
  assert (Hocc : digits_of s (String c d')).
  { split; [exact Hd|]. rewrite Hs. apply occurs_in_prefix. }
  destruct (strip_optional_s r3) as [|c5 r5]; [intros [= <- _]; exact Hocc|].
  destruct (is_space c5); [intros [= <- _]; exact Hocc | discriminate].
Qed.

Lemma match_word_count_group word s d n :
  match_word_count word s = Some (d, n) -> digits_of s d.
Proof.
  unfold match_word_count.
  destruct (strip_word word s) as [r1|] eqn:Hw; [|discriminate].
  destruct (strip_word_spec _ _ _ Hw) as [p1 ->].
  destruct (strip_optional_s_spec r1) as [p2 E2].
  destruct (skip_spaces_spec (strip_optional_s r1)) as [p3 E3].
  destruct (skip_spaces (strip_optional_s r1)) as [|c r3]; [discriminate|].
  destruct (Ascii.eqb_spec c "("%char) as [->|N].
  - destruct (span_digits_spec r3) as [Hs Hd].
    destruct (span_digits r3) as [d' r4]. cbn [fst snd] in *.
    destruct d' as [|c' d']; [discriminate|].
    destruct r4 as [|c4 r5]; [discriminate|].
    assert (Hocc : digits_of (p1 ++ r1) (String c' d')).
    { split; [exact Hd|]. apply occurs_in_suffix. rewrite E2.
      apply occurs_in_suffix. rewrite E3. apply occurs_in_suffix.
      apply occurs_in_tail. rewrite Hs. apply occurs_in_prefix. }
    destruct (Ascii.eqb_spec c4 ")"%char) as [->|N]; [intros [= <- _]; exact Hocc|].
    destruct c4 as [[] [] [] [] [] [] [] []]; try discriminate; contradiction.
  - destruct c as [[] [] [] [] [] [] [] []]; try discriminate; contradiction.
Qed.

Lemma findall_from_groups pattern skip s d :
  (forall s d n, pattern s = Some (d, n) -> digits_of s d) ->
  In d (findall_from pattern skip s) -> digits_of s d.
Proof.
  intros Hp. revert skip. induction s as [|c s IH]; intros skip; cbn [findall_from].
  - intros [].
  - assert (Hlift : forall d, digits_of s d -> digits_of (String c s) d).
    { intros d' [H1 H2]. split; [exact H1 | apply occurs_in_tail, H2]. }
    destruct skip as [|k]; [|intros H; apply Hlift, (IH k), H].
    destruct (pattern (String c s)) as [[d' len]|] eqn:Hm.
    + intros [<-|H]; [eapply Hp, Hm | apply Hlift; eapply IH, H].
    + intros H. apply Hlift. eapply IH, H.
Qed.

Lemma comment_patterns_groups pattern s d :
  In pattern comment_patterns -> In d (findall pattern s) -> digits_of s d.
Proof.
  intros Hin. apply findall_from_groups.
  cbn [comment_patterns In] in Hin.
  destruct Hin as [<-|[<-|[<-|[<-|[]]]]];
    first [apply match_count_word_group | apply match_word_count_group].
Qed.

Lemma search_digits_group s d : search_digits s = Some d -> digits_of s d.
Proof.
  induction s as [|c s IH]; cbn [search_digits]; [discriminate|].
  destruct (is_digit c) eqn:Hc.
  - intros [= <-]. destruct (span_digits_spec (String c s)) as [Hs Hd].
    split; [exact Hd|]. rewrite Hs at 2. apply occurs_in_prefix.
  - intros H. destruct (IH H) as [H1 H2]. split; [exact H1 | apply occurs_in_tail, H2].
Qed.

Lemma int_of_digits_nonneg s : (0 <= int_of_digits s)%Z.
Proof.
  unfold int_of_digits.
  assert (H : forall l n, (0 <= n)%Z ->
            (0 <= fold_left (fun n c => 10 * n + digit_value c) l n)%Z).
  { induction l as [|c l IH]; intros n Hn; cbn [fold_left]; [exact Hn|].
    apply IH. unfold digit_value. lia. }
  apply H. lia.
Qed.

Lemma py_int_value limit s n : py_int limit s = Ok n -> n = int_of_digits s.
Proof.
  unfold py_int. destruct (_ && _); [discriminate | intros [= <-]; reflexivity].
Qed.

Lemma py_int_raises limit s e : py_int limit s = Raise e -> is_Exception e = true.
Proof.
  unfold py_int. destruct (_ && _); [intros [= <-]; reflexivity | discriminate].
Qed.

Lemma py_max_int_In x l : py_max_int x l = x \/ In (py_max_int x l) l.
Proof.
  unfold py_max_int. revert x. induction l as [|y l IH]; intros x; cbn [fold_left].
  - left. reflexivity.
  - destruct (IH (if (x <? y)%Z then y else x)) as [H|H].
    + rewrite H. destruct (x <? y)%Z; [right; left; reflexivity | left; reflexivity].
    + right. right. exact H.
Qed.

Lemma mapM_In_inv {A B : Type} (f : A -> result B) l l' y :
  mapM f l = Ok l' -> In y l' -> exists x, In x l /\ f x = Ok y.
Proof.
  intros H. apply mapM_Forall2 in H.
  induction H as [|a b l l' Hab _ IH]; [intros []|].
  intros [<-|Hin].
  - exists a. split; [left; reflexivity | exact Hab].
  - destruct (IH Hin) as [x [Hx1 Hx2]]. exists x. split; [right|]; assumption.
Qed.

(** A count found by the patterns is written by a run of digits of the text. *)
Lemma first_pattern_count_found limit patterns text n :
  (forall p, In p patterns -> In p comment_patterns) ->
  first_pattern_count limit patterns text = Ok (Some n) ->
  exists d, digits_of text d /\ int_of_digits d = n.
Proof.
  induction patterns as [|pattern patterns IH]; intros Hsub; cbn [first_pattern_count];
    [discriminate|].
  destruct (findall pattern text) as [|m ms] eqn:Hf.
  - apply IH. intros p Hp. apply Hsub. right. exact Hp.
  - intros H. apply bind_raises_ok in H. destruct H as [n0 [Hn0 H]].
    apply bind_raises_ok in H. destruct H as [ns [Hns H]]. injection H as <-.
    assert (Hg : forall d, In d (m :: ms) -> digits_of text d).
    { intros d Hd. apply (comment_patterns_groups pattern).
      - apply Hsub. left. reflexivity.
      - rewrite Hf. exact Hd. }
    destruct (py_max_int_In n0 ns) as [E|Hin].
    + exists m. split; [apply Hg; left; reflexivity|].
      rewrite E. symmetry. eapply py_int_value, Hn0.
    + destruct (mapM_In_inv _ _ _ _ Hns Hin) as [d [Hd1 Hd2]].
      exists d. split; [apply Hg; right; exact Hd1|].
      symmetry. eapply py_int_value, Hd2.
Qed.

Lemma first_link_count_found limit texts n :
  first_link_count limit texts = Ok (Some n) ->
  exists t d, In t texts /\ digits_of t d /\ int_of_digits d = n.
Proof.
  induction texts as [|t texts IH]; cbn [first_link_count]; [discriminate|].
  destruct (search_digits t) as [d|] eqn:Hs.
  - intros H. apply bind_raises_ok in H. destruct H as [n0 [Hn0 [= <-]]].
    exists t, d. split; [left; reflexivity|].
    split; [apply search_digits_group, Hs | symmetry; eapply py_int_value, Hn0].
  - intros H. destruct (IH H) as [t' [d [H1 H2]]].
    exists t', d. split; [right; exact H1 | exact H2].
Qed.

Section ScrapeComments.

Variables (ext : Externals) (scraper : Scraper).
Hypothesis scraped : scrapes ext scraper.

Lemma scrape_try_nonneg url n : scrape_try scraper url = Ok n -> (0 <= n)%Z.
Proof.
  unfold scrape_try. intros H.
  apply bind_raises_ok in H. destruct H as [page [_ H]].
  apply bind_raises_ok in H. destruct H as [[c|] [Hc H]].
  - injection H as <-.
    destruct (first_pattern_count_found _ _ _ _ (fun p Hp => Hp) Hc) as [d [_ <-]].
    apply int_of_digits_nonneg.
  - apply bind_raises_ok in H. destruct H as [[c|] [Hl H]]; injection H as <-; [|lia].
    destruct (first_link_count_found _ _ _ Hl) as [t [d [_ [_ <-]]]].
    apply int_of_digits_nonneg.
Qed.

Lemma first_pattern_count_raises limit patterns text e :
  first_pattern_count limit patterns text = Raise e -> is_Exception e = true.
Proof.
  induction patterns as [|pattern patterns IH]; cbn [first_pattern_count];
    [discriminate|].
  destruct (findall pattern text) as [|m ms]; [exact IH|].
  intros H. apply bind_raises in H. destruct H as [H|[n0 [_ H]]];
    [eapply py_int_raises, H|].
  apply bind_raises in H. destruct H as [H|[ns [_ H]]]; [|discriminate].
  apply mapM_raises in H. destruct H as [x [_ H]]. eapply py_int_raises, H.
Qed.

Lemma first_link_count_raises limit texts e :
  first_link_count limit texts = Raise e -> is_Exception e = true.
Proof.
  induction texts as [|t texts IH]; cbn [first_link_count]; [discriminate|].
  destruct (search_digits t); [|exact IH].
  intros H. apply bind_raises in H. destruct H as [H|[n0 [_ H]]];
    [eapply py_int_raises, H | discriminate].
Qed.

(** What the [try] raises is what the request raised, or a [ValueError] of
    [int]. *)
Lemma scrape_try_raises url e :
  scrape_try scraper url = Raise e ->
  get_page scraper url = Raise e \/ is_Exception e = true.
Proof.
  unfold scrape_try. intros H.
  apply bind_raises in H. destruct H as [H|[page [_ H]]]; [left; exact H|]. right.
  apply bind_raises in H. destruct H as [H|[[c|] [_ H]]];
    [eapply first_pattern_count_raises, H | discriminate |].
  apply bind_raises in H. destruct H as [H|[[c|] [_ H]]];
    [eapply first_link_count_raises, H | discriminate | discriminate].
Qed.

(** X1. [scrape_comments] never returns a negative count; when the request
    for the page raises an exception that [except Exception] catches, it
    returns 0; and the only exception it lets through is one of the request
    that the handler does not catch. *)
Theorem scrape_comments_fails_soft (url : string) :
  (forall n, scrape_comments ext url = Ok n -> (0 <= n)%Z) /\
  (forall e, get_page scraper url = Raise e -> is_Exception e = true ->
             scrape_comments ext url = Ok 0%Z) /\
  (forall e, scrape_comments ext url = Raise e ->
             get_page scraper url = Raise e /\ is_Exception e = false).
Proof.
  unfold scrape_comments. rewrite (scraped url). repeat split.
  - intros n. destruct (scrape_try scraper url) as [m|e] eqn:E.
    + intros [= <-]. eapply scrape_try_nonneg, E.
    + destruct (is_Exception e); [intros [= <-]; lia | discriminate].
  - intros e He Hx. unfold scrape_try. rewrite He. cbn [bind]. rewrite Hx. reflexivity.
  - destruct (scrape_try scraper url) as [m|e'] eqn:E; [discriminate|].
    destruct (is_Exception e') eqn:Hx; [discriminate|]. injection H as <-.
    destruct (scrape_try_raises _ _ E) as [Hg|Hx']; [exact Hg | congruence].
  - destruct (scrape_try scraper url) as [m|e'] eqn:E; [discriminate|].
    destruct (is_Exception e') eqn:Hx; [discriminate|]. injection H as <-. exact Hx.
Qed.

(** X2. A count above 0 that [scrape_comments] returns is written in the
    page: it is the number of a run of digits that stands in the text of the
    page or in the text of one of its comment links. *)
Theorem scrape_comments_reads_page (url : string) (page : Page) (n : Z) :
  get_page scraper url = Ok page ->
  scrape_comments ext url = Ok n -> (0 < n)%Z ->
  exists d,
    int_of_digits d = n /\
    (digits_of (page_text page) d \/
     exists t, In t (comment_link_texts page) /\ digits_of t d).
Proof.
  intros Hp. unfold scrape_comments. rewrite (scraped url). unfold scrape_try.
  rewrite Hp. cbn [bind].
  destruct (first_pattern_count _ _ _) as [[c|]|e] eqn:Hc; cbn [bind].
  - intros [= <-] _.
    destruct (first_pattern_count_found _ _ _ _ (fun p Hp => Hp) Hc) as [d [Hd E]].
    exists d. split; [exact E | left; exact Hd].
  - destruct (first_link_count _ _) as [[c|]|e] eqn:Hl; cbn [bind].
    + intros [= <-] _.
      destruct (first_link_count_found _ _ _ Hl) as [t [d [Ht [Hd E]]]].
      exists d. split; [exact E | right; exists t; split; assumption].
    + intros [= <-]. lia.
    + destruct (is_Exception e); [intros [= <-]; lia | discriminate].
  - destruct (is_Exception e); [intros [= <-]; lia | discriminate].
Qed.

End ScrapeComments.

Lemma sample_scraping : scrapes scraping sample_scraper.
Proof. intros url. reflexivity. Qed.

Lemma scrape_comments_fails_soft_witness :
  scrape_comments scraping "https://example.com/absent" = Ok 0%Z /\
  scrape_comments scraping "https://example.com/new" = Ok 12%Z.
Proof.
  split.
  - apply (proj1 (proj2 (scrape_comments_fails_soft scraping sample_scraper
                           sample_scraping "https://example.com/absent"))
             ConnectionError); reflexivity.
  - vm_compute. reflexivity.
Defined.

Lemma scrape_comments_reads_page_witness :
  exists d,
    int_of_digits d = 12%Z /\
    (digits_of (page_text sample_page) d \/
     exists t, In t (comment_link_texts sample_page) /\ digits_of t d).
Proof.
  apply (scrape_comments_reads_page scraping sample_scraper sample_scraping
           "https://example.com/new" sample_page 12);
    [reflexivity | vm_compute; reflexivity | lia].
Defined.

(** ** The score: order and saturation *)

Section ScoreOrder.

Import Float64Facts.
Open Scope Q_scope.

(** A finite result is the rounded value, in lowest terms. *)
Lemma of_Q_fin q r : of_Q q = Fin r -> r = Qred (rnd q).
Proof.
  unfold of_Q. cbv zeta.
  destruct (Qle_bool (pow2 1024) (Qred (rnd q))); [discriminate|].
  destruct (Qle_bool (Qred (rnd q)) (- pow2 1024)); [discriminate|].
  intros [= <-]. reflexivity.
Qed.

Lemma of_Q_mono x y a b :
  0 <= x -> x <= y -> of_Q x = Fin a -> of_Q y = Fin b -> a <= b.
Proof.
  intros Hx Hxy Ha Hb. rewrite (of_Q_fin _ _ Ha), (of_Q_fin _ _ Hb).
  rewrite !Qred_correct. apply rnd_mono; assumption.
Qed.

Lemma int_truediv_fin a x :
  int_truediv a 2000 = Ok x -> of_Q (inject_Z a / inject_Z 2000) = x.
Proof.
  unfold int_truediv. cbn [Z.eqb]. cbv zeta.
  destruct (is_inf (of_Q (inject_Z a / inject_Z 2000))); [discriminate|].
  intros [= <-]. reflexivity.
Qed.

Lemma float_of_int_fin z x : float_of_int z = Ok x -> of_Q (inject_Z z) = x.
Proof.
  unfold float_of_int. cbv zeta.
  destruct (is_inf (of_Q (inject_Z z))); [discriminate|].
  intros [= <-]. reflexivity.
Qed.

Lemma py_round_fin t x :
  py_round (Fin t) 2 = Ok x ->
  of_Q (inject_Z (round_half_even (t * 100)) / 100) = x.
Proof.
  unfold py_round. cbv zeta. change (inject_Z (10 ^ 2)) with 100.
  destruct (is_inf (of_Q (inject_Z (round_half_even (t * 100)) / 100)));
    [discriminate|].
  intros [= <-]. reflexivity.
Qed.

Lemma py_min_unit_mono ra rb ma mb :
  ra <= rb ->
  py_min (Fin ra) (Fin 1) = Fin ma -> py_min (Fin rb) (Fin 1) = Fin mb ->
  ma <= mb.
Proof.
  intros Hr. unfold py_min, flt.
  destruct (Qle_bool ra 1) eqn:Ba; destruct (Qle_bool rb 1) eqn:Bb; cbn [negb];
    intros [= <-] [= <-].
  - exact Hr.
  - apply Qle_bool_iff, Ba.
  - assert (N : ~ ra <= 1) by (intros H; apply Qle_bool_iff in H; congruence). lra.
  - lra.
Qed.

Lemma comment_score_mono ca cb :
  (ca <= cb)%Z ->
  ((if (0 <? ca)%Z then py_min_int (ca * 5) 50 else 0%Z)
   <= (if (0 <? cb)%Z then py_min_int (cb * 5) 50 else 0%Z))%Z.
Proof.
  intros H. unfold py_min_int.
  destruct (Z.ltb_spec 0 ca); destruct (Z.ltb_spec 0 cb);
    try destruct (Z.ltb_spec 50 (ca * 5)); try destruct (Z.ltb_spec 50 (cb * 5)); lia.
Qed.

(** The steps of a score, once the division has returned. *)
Lemma score_steps article r :
  int_truediv (word_count article) 2000 = Ok (Fin r) -> 0 <= r ->
  exists m l v t s,
    py_min (Fin r) (Fin 1) = Fin m /\ 0 <= m <= 1 /\
    of_Q (m * 50) = Fin l /\ 0 <= l <= 50 /\
    of_Q (inject_Z (if (0 <? comments article)%Z
                    then py_min_int (comments article * 5) 50 else 0%Z)) = Fin v /\
    0 <= v <= 50 /\
    of_Q (l + v) = Fin t /\ 0 <= t <= 100 /\
    of_Q (inject_Z (round_half_even (t * 100)) / 100) = Fin s /\
    calculate_quality_score article = Ok (Fin s).
Proof.
  intros Hdiv Hr. unfold calculate_quality_score.
  rewrite Hdiv. cbn [bind]. rewrite float_of_int_50. cbn [bind].
  destruct (py_min_unit r Hr) as [m [Em Hm]]. rewrite Em.
  destruct (float_of_int_between _ (comment_score_range (comments article)))
    as [v [Ev Hv]].
  rewrite Ev. cbn [bind fmul fadd].
  destruct (of_Q_between 0 50 (m * 50)) as [l [El Hl]];
    try lra; try exact rnd_0; try exact rnd_50; try exact lt_50_max.
  rewrite El. cbn [fadd].
  destruct (of_Q_between 0 100 (l + v)) as [t [Et Ht]];
    try lra; try exact rnd_0; try exact rnd_100; try exact lt_100_max.
  rewrite Et. destruct (py_round_between t Ht) as [s [Es _]].
  exists m, l, v, t, s.
  pose proof (float_of_int_fin _ _ Ev) as Ev'. pose proof (py_round_fin _ _ Es) as Es'.
  tauto.
Qed.

(** X3. More words or more comments never lower the score: for word counts
    within the range of floats, an article with at least as many words and at
    least as many comments as another gets a score that is at least the
    other's, the roundings of the float operations and of [round]
    notwithstanding.  Both scores are returned. *)
Theorem calculate_quality_score_monotone (a b : Article) :
  (0 <= word_count a <= word_count b)%Z -> (word_count b < 2 ^ 1024)%Z ->
  (comments a <= comments b)%Z ->
  exists sa sb,
    calculate_quality_score a = Ok (Fin sa) /\
    calculate_quality_score b = Ok (Fin sb) /\ (sa <= sb)%Q.
Proof.
  intros [Ha Hab] Hb Hc.
  destruct (int_truediv_returns (word_count a)) as [ra Hda]; [lia|].
  destruct (int_truediv_returns (word_count b)) as [rb Hdb]; [lia|].
  destruct (int_truediv_nonneg _ _ Ha Hda) as [ra' [[= <-] Hra]].
  assert (Hb0 : (0 <= word_count b)%Z) by lia.
  destruct (int_truediv_nonneg _ _ Hb0 Hdb) as [rb' [[= <-] Hrb]].
  assert (Hr : ra <= rb).
  { eapply of_Q_mono; [| |apply int_truediv_fin, Hda | apply int_truediv_fin, Hdb].
    - apply inject_Z_div_nonneg; lia.
    - apply Qmult_le_compat_r; [rewrite <- Zle_Qle; exact Hab | vm_compute; discriminate]. }
  destruct (score_steps a ra Hda Hra)
    as [ma [la [va [ta [sa [Ema [Hma [Ela [Hla [Eva [Hva [Eta [Hta [Esa Ea]]]]]]]]]]]]]].
  destruct (score_steps b rb Hdb Hrb)
    as [mb [lb [vb [tb [sb [Emb [Hmb [Elb [Hlb [Evb [Hvb [Etb [Htb [Esb Eb]]]]]]]]]]]]]].
  exists sa, sb. split; [exact Ea|]. split; [exact Eb|].
  pose proof (py_min_unit_mono _ _ _ _ Hr Ema Emb) as Hm.
  assert (Hl : la <= lb) by (eapply of_Q_mono; [| |exact Ela | exact Elb]; lra).
  assert (Hv : va <= vb).
  { eapply of_Q_mono; [| |exact Eva | exact Evb].
    - rewrite <- (Zle_Qle 0). apply comment_score_range.
    - rewrite <- Zle_Qle. apply comment_score_mono, Hc. }
  assert (Ht : ta <= tb) by (eapply of_Q_mono; [| |exact Eta | exact Etb]; lra).
  assert (Hz : (0 <= round_half_even (ta * 100))%Z).
  { rewrite <- (round_half_even_inject 0) at 1. apply round_half_even_mono.
    change (inject_Z 0) with 0. lra. }
  assert (Hk : (round_half_even (ta * 100) <= round_half_even (tb * 100))%Z).
  { apply round_half_even_mono. lra. }
  rewrite Zle_Qle in Hz, Hk. change (inject_Z 0) with 0 in Hz.
  eapply of_Q_mono; [| |exact Esa | exact Esb].
  - apply Qle_shift_div_l; [reflexivity | lra].
  - apply Qmult_le_compat_r; [exact Hk | vm_compute; discriminate].
Qed.

(** From 2000 words on, the length counts for one. *)
Lemma int_truediv_saturated wc :
  (2000 <= wc < 2 ^ 1024)%Z ->
  exists r, int_truediv wc 2000 = Ok (Fin r) /\ py_min (Fin r) (Fin 1) = Fin 1.
Proof.
  intros [H1 H2].
  destruct (int_truediv_returns wc) as [r Hdiv]; [lia|].
  exists r. split; [exact Hdiv|].
  pose proof (int_truediv_fin _ _ Hdiv) as E.
  pose proof (of_Q_fin _ _ E) as Er.
  assert (Hge : 1 <= rnd (inject_Z wc / inject_Z 2000)).
  { rewrite <- rnd_1 at 1. apply rnd_mono; [lra|].
    apply Qle_shift_div_l; [reflexivity|].
    change (1 * inject_Z 2000) with (inject_Z 2000). rewrite <- Zle_Qle. exact H1. }
  unfold py_min, flt. destruct (Qle_bool r 1) eqn:B; cbn [negb]; [|reflexivity].
  apply Qle_bool_iff in B. f_equal. rewrite Er.
  change 1 with (Qred 1). apply Qred_complete.
  rewrite Er, Qred_correct in B. lra.
Qed.

Lemma score_length_saturated a b :
  (2000 <= word_count a < 2 ^ 1024)%Z -> (2000 <= word_count b < 2 ^ 1024)%Z ->
  comments a = comments b ->
  calculate_quality_score a = calculate_quality_score b.
Proof.
  intros Ha Hb Hc.
  destruct (int_truediv_saturated _ Ha) as [ra [Hda Hma]].
  destruct (int_truediv_saturated _ Hb) as [rb [Hdb Hmb]].
  unfold calculate_quality_score. rewrite Hda, Hdb. cbn [bind].
  rewrite Hma, Hmb, Hc. reflexivity.
Qed.

Lemma score_comments_saturated a b :
  word_count a = word_count b ->
  ((10 <= comments a)%Z /\ (10 <= comments b)%Z) \/
  ((comments a <= 0)%Z /\ (comments b <= 0)%Z) ->
  calculate_quality_score a = calculate_quality_score b.
Proof.
  intros Hw Hc. unfold calculate_quality_score. rewrite Hw.
  assert (E : (if (0 <? comments a)%Z then py_min_int (comments a * 5) 50 else 0%Z)
              = (if (0 <? comments b)%Z then py_min_int (comments b * 5) 50 else 0%Z)).
  { unfold py_min_int.
    destruct (Z.ltb_spec 0 (comments a)); destruct (Z.ltb_spec 0 (comments b));
      try destruct (Z.ltb_spec 50 (comments a * 5));
      try destruct (Z.ltb_spec 50 (comments b * 5)); lia. }
  rewrite E. reflexivity.
Qed.

End ScoreOrder.

Lemma calculate_quality_score_monotone_witness :
  exists sa sb,
    calculate_quality_score (sample_article 100 1) = Ok (Fin sa) /\
    calculate_quality_score (sample_article 1501 3) = Ok (Fin sb) /\ (sa <= sb)%Q.
Proof.
  apply (calculate_quality_score_monotone (sample_article 100 1)
           (sample_article 1501 3)); cbn [word_count comments sample_article]; lia.
Defined.

(** X4. The score saturates: all the word counts from 2000 up (within the
    range of floats) give the same score for a given comment count; all the
    comment counts from 10 up give the same score for a given word count, and
    so do all the comment counts that are zero or negative; 2000 words and 10
    comments, or any more of either, give exactly 100.0. *)
Theorem calculate_quality_score_saturates (a b : Article) :
  ((2000 <= word_count a < 2 ^ 1024)%Z -> (2000 <= word_count b < 2 ^ 1024)%Z ->
   comments a = comments b ->
   calculate_quality_score a = calculate_quality_score b) /\
  (word_count a = word_count b ->
   (10 <= comments a)%Z -> (10 <= comments b)%Z ->
   calculate_quality_score a = calculate_quality_score b) /\
  (word_count a = word_count b ->
   (comments a <= 0)%Z -> (comments b <= 0)%Z ->
   calculate_quality_score a = calculate_quality_score b) /\
  ((2000 <= word_count a < 2 ^ 1024)%Z -> (10 <= comments a)%Z ->
   calculate_quality_score a = Ok (Fin 100)).
Proof.
  split; [apply score_length_saturated|].
  split; [intros Hw Ha Hb; apply score_comments_saturated; [exact Hw | left; split; assumption]|].
  split; [intros Hw Ha Hb; apply score_comments_saturated; [exact Hw | right; split; assumption]|].
  intros Hw Hc.
  rewrite (score_comments_saturated a (sample_article (word_count a) 10));
    [|reflexivity | left; split; [exact Hc | cbn; lia]].
  rewrite (score_length_saturated (sample_article (word_count a) 10)
             (sample_article 2000 10)); [|exact Hw | cbn; lia | reflexivity].
  vm_compute. reflexivity.
Qed.

Lemma calculate_quality_score_saturates_witness :
  calculate_quality_score (sample_article 123456 3)
  = calculate_quality_score (sample_article 2000 3) /\
  calculate_quality_score (sample_article 123456 77) = Ok (Fin 100).
Proof.
  split.
  - apply (proj1 (calculate_quality_score_saturates (sample_article 123456 3)
                    (sample_article 2000 3)));
      cbn [word_count comments sample_article]; try lia; reflexivity.
  - apply (proj2 (proj2 (proj2 (calculate_quality_score_saturates
                                  (sample_article 123456 77)
                                  (sample_article 123456 77)))));
      cbn [word_count comments sample_article]; lia.
Defined.

(** ** Selection with any count *)

Lemma StronglySorted_app_inv {A : Type} (R : A -> A -> Prop) l1 l2 :
  StronglySorted R (l1 ++ l2) ->
  forall x y, In x l1 -> In y l2 -> R x y.
Proof.
  induction l1 as [|a l1 IH]; cbn [app]; intros Hs x y Hx Hy; [contradiction|].
  apply StronglySorted_inv in Hs. destruct Hs as [Hs Ha].
  destruct Hx as [<-|Hx].
  - rewrite Forall_forall in Ha. apply Ha, in_or_app. right. exact Hy.
  - eapply IH; eassumption.
Qed.

(** The scored articles stand in the order of non-increasing score. *)
Lemma scored_sorted articles scored :
  Forall2 scored_as articles scored ->
  StronglySorted by_score_desc (sorted_reverse flt quality_score scored).
Proof.
  intros Hsc. pose proof (scored_not_nan _ _ Hsc) as Hnan.
  assert (Hs : StronglySorted (not_below flt quality_score)
                 (sorted_reverse flt quality_score scored)).
  { apply sorted_reverse_sorted with (good := fun x => is_nan x = false).
    - intros x y _ _. apply flt_asym.
    - intros x y z _ Hy _. apply flt_negtrans, Hy.
    - exact Hnan. }
  assert (Hn : Forall (fun b => is_nan (quality_score b) = false)
                 (sorted_reverse flt quality_score scored)).
  { eapply Permutation_Forall;
      [apply Permutation_sym, sorted_reverse_perm | exact Hnan]. }
  rewrite Forall_forall in Hn.
  eapply StronglySorted_impl_In; [|exact Hs].
  intros a b Ha Hb Hab. apply flt_false_fle; [apply Hn, Ha | apply Hn, Hb | exact Hab].
Qed.

Lemma slice_index_negative len i :
  (i < 0)%Z -> slice_index len i = (len - Z.to_nat (- i))%nat.
Proof.
  intros Hi. unfold slice_index. destruct (Z.ltb_spec i 0); lia.
Qed.

(** X5. Whatever the count, a negative one included, the two lists that
    [select_top_articles] returns are the sorted list cut in two: no article
    of the others has a higher score than a featured one.  A negative count
    [-k] does not select nothing: it leaves the last [k] articles to the
    others and features all the rest. *)
Theorem select_top_articles_any_count (articles : list Article) (count : Z)
  (featured others : list Article) :
  select_top_articles articles count = Ok (featured, others) ->
  StronglySorted by_score_desc (featured ++ others) /\
  (forall f o, In f featured -> In o others ->
               fle (quality_score o) (quality_score f) = true) /\
  List.length (featured ++ others) = List.length articles /\
  ((count < 0)%Z ->
   List.length featured = (List.length articles - Z.to_nat (- count))%nat /\
   List.length others = Nat.min (Z.to_nat (- count)) (List.length articles)).
Proof.
  intros Hsel.
  destruct (select_top_articles_inv _ _ _ _ Hsel) as [scored [Hsc [Hf Ho]]].
  assert (Happ : featured ++ others = sorted_reverse flt quality_score scored).
  { subst. apply slice_to_from. }
  assert (Hs : StronglySorted by_score_desc (featured ++ others)).
  { rewrite Happ. eapply scored_sorted, Hsc. }
  assert (Hlen : List.length (sorted_reverse flt quality_score scored)
                 = List.length articles).
  { rewrite sorted_reverse_length. symmetry. eapply Forall2_length, Hsc. }
  split; [exact Hs|]. split; [|split].
  - intros f o Hin Hio. exact (StronglySorted_app_inv _ _ _ Hs f o Hin Hio).
  - rewrite Happ. exact Hlen.
  - intros Hneg. unfold slice_to in Hf. unfold slice_from in Ho.
    rewrite slice_index_negative in Hf, Ho by exact Hneg.
    rewrite Hf, Ho, length_firstn, length_skipn, Hlen. lia.
Qed.

Lemma select_top_articles_any_count_witness :
  exists featured others,
    select_top_articles sample_articles (-1) = Ok (featured, others) /\
    map title featured = ["b"; "d"; "a"] /\ map title others = ["c"] /\
    forall f o, In f featured -> In o others ->
                fle (quality_score o) (quality_score f) = true.
Proof.
  eexists. eexists. split; [vm_compute; reflexivity|].
  split; [reflexivity|]. split; [reflexivity|].
  apply (select_top_articles_any_count sample_articles (-1)). vm_compute. reflexivity.
Defined.

(** ** The paywall heuristic, in full *)

Lemma occurs_in_lower needle hay :
  occurs_in needle hay -> occurs_in (lower needle) (lower hay).
Proof.
  intros [pre [post ->]]. exists (lower pre), (lower post).
  rewrite !lower_append. reflexivity.
Qed.

Lemma indicator_found content title :
  existsb (fun indicator =>
             str_in indicator (lower content) || str_in indicator (lower title))
          paywall_indicators = true <->
  exists indicator,
    In indicator paywall_indicators /\
    (occurs_in indicator (lower content) \/ occurs_in indicator (lower title)).
Proof.
  rewrite existsb_exists. split; intros [i [Hi H]]; exists i; (split; [exact Hi|]).
  - apply orb_true_iff in H. rewrite !str_in_spec in H. exact H.
  - apply orb_true_iff. rewrite !str_in_spec. exact H.
Qed.

(** X6. [detect_paywall] in full.  Any of the ten phrases flags the article,
    in the content or in the title, and in any mix of upper and lower case;
    and an article is not flagged exactly when its content has 50 words or
    more and none of the phrases stands in the lowered content or title. *)
Theorem detect_paywall_iff (content title : string) :
  (forall phrase,
     In (lower phrase) paywall_indicators ->
     occurs_in phrase content \/ occurs_in phrase title ->
     detect_paywall content title = true) /\
  (detect_paywall content title = false <->
   (50 <= List.length (split content))%nat /\
   forall indicator,
     In indicator paywall_indicators ->
     ~ occurs_in indicator (lower content) /\ ~ occurs_in indicator (lower title)).
Proof.
  unfold detect_paywall. cbv zeta. split.
  - intros phrase Hin Hocc.
    assert (E : existsb
                  (fun indicator =>
                     str_in indicator (lower content) || str_in indicator (lower title))
                  paywall_indicators = true).
    { apply indicator_found. exists (lower phrase). split; [exact Hin|].
      destruct Hocc as [H|H]; [left | right]; apply occurs_in_lower, H. }
    rewrite E. reflexivity.
  - pose proof (indicator_found content title) as Hfound.
    destruct (existsb _ paywall_indicators).
    + split; [discriminate|]. intros [_ Hnone].
      destruct (proj1 Hfound eq_refl) as [i [Hi Hocc]].
      destruct (Hnone i Hi) as [Hc Ht]. tauto.
    + destruct (Z.ltb_spec (Z.of_nat (List.length (split content))) 50) as [L|G].
      * split; [discriminate | intros [Hlen _]; lia].
      * split; [|reflexivity]. intros _. split; [lia|].
        intros i Hi. split; intros Hocc.
        -- assert (Hex : exists indicator,
                      In indicator paywall_indicators /\
                      (occurs_in indicator (lower content) \/
                       occurs_in indicator (lower title)))
             by (exists i; tauto).
           apply Hfound in Hex. discriminate.
        -- assert (Hex : exists indicator,
                      In indicator paywall_indicators /\
                      (occurs_in indicator (lower content) \/
                       occurs_in indicator (lower title)))
             by (exists i; tauto).
           apply Hfound in Hex. discriminate.
Qed.

Lemma detect_paywall_iff_witness :
  detect_paywall long_text "Behind the PayWall" = true.
Proof.
  apply (proj1 (detect_paywall_iff long_text "Behind the PayWall") "PayWall").
  - vm_compute. tauto.
  - right. exists "Behind the ", "". reflexivity.
Defined.

(** ** What the fetch returns *)

Section Fetched.

Variables (ext : Externals) (processed : pyval) (cutoff_date : datetime).

Lemma fetch_entry_inv source_name entry article :
  fetch_entry ext processed cutoff_date source_name entry = Ok (Some article) ->
  made_from ext source_name entry article /\ as_fetched ext cutoff_date article.
Proof.
  unfold fetch_entry, made_from, as_fetched.
  destruct (entry_published_parsed entry) as [[t|]|]; cbn [bind]; try discriminate.
  - destruct (Z.ltb_spec t cutoff_date) as [L|G]; [discriminate|].
    destruct (entry_link entry) as [lk|]; cbn [getattr bind]; [|discriminate].
    destruct (ledger_links processed "featured") as [fl|e]; [|discriminate].
    cbn [bind].
    destruct (ledger_links processed "reviewed") as [rl|e]; [|discriminate].
    cbn [bind]. destruct (str_in_list lk (fl ++ rl)); [discriminate|].
    destruct (extract_content ext entry) as [c|e]; [|discriminate]. cbn [bind].
    destruct (entry_title entry) as [ti|]; cbn [getattr bind]; [|discriminate].
    destruct (scrape_comments ext lk) as [n|e] eqn:Hn; [|discriminate]. cbn [bind].
    intros [= <-]. cbn. repeat split; try assumption; lia.
  - destruct (Z.ltb_spec (now ext) cutoff_date) as [L|G]; [discriminate|].
    destruct (entry_link entry) as [lk|]; cbn [getattr bind]; [|discriminate].
    destruct (ledger_links processed "featured") as [fl|e]; [|discriminate].
    cbn [bind].
    destruct (ledger_links processed "reviewed") as [rl|e]; [|discriminate].
    cbn [bind]. destruct (str_in_list lk (fl ++ rl)); [discriminate|].
    destruct (extract_content ext entry) as [c|e]; [|discriminate]. cbn [bind].
    destruct (entry_title entry) as [ti|]; cbn [getattr bind]; [|discriminate].
    destruct (scrape_comments ext lk) as [n|e] eqn:Hn; [|discriminate]. cbn [bind].
    intros [= <-]. cbn. repeat split; try assumption; lia.
Qed.

(** What holds of every article an entry gives holds of every article of
    the list. *)
Lemma fetch_entries_Forall (P : Article -> Prop) source_name entries articles :
  Forall P articles ->
  (forall entry a, In entry entries ->
     fetch_entry ext processed cutoff_date source_name entry = Ok (Some a) -> P a) ->
  Forall P (fst (fetch_entries ext processed cutoff_date source_name entries articles)).
Proof.
  revert articles. induction entries as [|entry entries IH]; intros articles Ha HP;
    cbn [fetch_entries]; [exact Ha|].
  destruct (fetch_entry ext processed cutoff_date source_name entry)
    as [[article|]|e] eqn:He.
  - apply IH.
    + apply Forall_app. split; [exact Ha|]. constructor; [|constructor].
      apply (HP entry); [left; reflexivity | exact He].
    + intros entry' a Hin. apply HP. right. exact Hin.
  - apply IH; [exact Ha|]. intros entry' a Hin. apply HP. right. exact Hin.
  - exact Ha.
Qed.

Lemma fetch_feeds_Forall (P : Article -> Prop) feeds articles result :
  Forall P articles ->
  (forall source_name entry a,
     entry_of_feeds ext feeds source_name entry ->
     fetch_entry ext processed cutoff_date source_name entry = Ok (Some a) -> P a) ->
  fetch_feeds ext processed cutoff_date feeds articles = Ok result ->
  Forall P result.
Proof.
  revert articles. induction feeds as [|feed_url feeds IH]; intros articles Ha HP;
    cbn [fetch_feeds].
  - intros [= <-]. exact Ha.
  - assert (Hf : Forall P (fst (fetch_feed ext processed cutoff_date feed_url articles))).
    { unfold fetch_feed. destruct (parse_feed ext feed_url) as [feed|e] eqn:Hp;
        [|exact Ha].
      apply fetch_entries_Forall; [exact Ha|].
      intros entry a Hin. apply HP. exists feed_url, feed.
      split; [left; reflexivity|]. split; [exact Hp|]. split; [exact Hin | reflexivity]. }
    assert (HP' : forall source_name entry a,
               entry_of_feeds ext feeds source_name entry ->
               fetch_entry ext processed cutoff_date source_name entry = Ok (Some a) ->
               P a).
    { intros source_name entry a [u [f [Hu H]]]. apply HP. exists u, f.
      split; [right; exact Hu | exact H]. }
    destruct (fetch_feed ext processed cutoff_date feed_url articles)
      as [articles' [e|]]; cbn [fst] in Hf.
    + destruct (is_Exception e); [apply IH; assumption | discriminate].
    + apply IH; assumption.
Qed.

(** The list so far only stands in front of what the loop appends. *)
Lemma fetch_entries_app source_name entries articles :
  fetch_entries ext processed cutoff_date source_name entries articles
  = (articles ++ fst (fetch_entries ext processed cutoff_date source_name entries []),
     snd (fetch_entries ext processed cutoff_date source_name entries [])).
Proof.
  revert articles. induction entries as [|entry entries IH]; intros articles;
    cbn [fetch_entries].
  - rewrite app_nil_r. reflexivity.
  - destruct (fetch_entry ext processed cutoff_date source_name entry)
      as [[article|]|e].
    + rewrite (IH (articles ++ [article])), (IH ([] ++ [article])).
      cbn [fst snd app]. rewrite <- app_assoc. reflexivity.
    + apply IH.
    + cbn [fst snd]. rewrite app_nil_r. reflexivity.
Qed.

Lemma fetch_feed_app feed_url articles :
  fetch_feed ext processed cutoff_date feed_url articles
  = (articles ++ fst (fetch_feed ext processed cutoff_date feed_url []),
     snd (fetch_feed ext processed cutoff_date feed_url [])).
Proof.
  unfold fetch_feed. destruct (parse_feed ext feed_url) as [feed|e].
  - apply fetch_entries_app.
  - cbn [fst snd]. rewrite app_nil_r. reflexivity.
Qed.

Lemma fetch_feeds_flat_map feeds articles result :
  fetch_feeds ext processed cutoff_date feeds articles = Ok result ->
  result = articles
           ++ flat_map (fun feed_url =>
                          fst (fetch_feed ext processed cutoff_date feed_url []))
                       feeds.
Proof.
  revert articles. induction feeds as [|feed_url feeds IH]; intros articles;
    cbn [fetch_feeds flat_map].
  - intros [= <-]. rewrite app_nil_r. reflexivity.
  - rewrite (fetch_feed_app feed_url articles).
    destruct (snd (fetch_feed ext processed cutoff_date feed_url [])) as [e|].
    + destruct (is_Exception e); [|discriminate].
      intros H. rewrite (IH _ H), <- app_assoc. reflexivity.
    + intros H. rewrite (IH _ H), <- app_assoc. reflexivity.
Qed.

(** An entry that raises ends the loop over its feed. *)
Lemma fetch_entries_stop source_name before entry after articles e :
  snd (fetch_entries ext processed cutoff_date source_name before articles) = None ->
  fetch_entry ext processed cutoff_date source_name entry = Raise e ->
  fetch_entries ext processed cutoff_date source_name (before ++ entry :: after)
                articles
  = (fst (fetch_entries ext processed cutoff_date source_name before articles),
     Some e).
Proof.
  revert articles. induction before as [|b before IH]; intros articles;
    cbn [fetch_entries app fst snd].
  - intros _ He. rewrite He. reflexivity.
  - destruct (fetch_entry ext processed cutoff_date source_name b) as [[a|]|e'].
    + apply IH.
    + apply IH.
    + discriminate.
Qed.

End Fetched.

Lemma fetch_recent_articles_Forall (P : Article -> Prop) ext st days_back articles :
  (forall delta cutoff_date source_name entry a,
     timedelta_days days_back = Ok delta ->
     datetime_sub (now ext) delta = Ok cutoff_date ->
     entry_of_feeds ext newsletter_feeds source_name entry ->
     fetch_entry ext (processed_articles st) cutoff_date source_name entry
     = Ok (Some a) ->
     P a) ->
  fetch_recent_articles ext st days_back = Ok articles ->
  Forall P articles.
Proof.
  intros HP H. unfold fetch_recent_articles in H.
  apply bind_raises_ok in H. destruct H as [delta [Hd H]].
  apply bind_raises_ok in H. destruct H as [cutoff_date [Hc H]].
  eapply fetch_feeds_Forall; [constructor | | exact H].
  intros source_name entry a. apply (HP delta cutoff_date); assumption.
Qed.

(** X7. Every article that [fetch_recent_articles] returns comes from an
    entry of a feed of the list, a feed that was read: it has the link and
    the title of the entry, its author or "Unknown", the name of the feed
    (the address of the feed when it has no title) for source, and for
    content the text that [extract_content] gives of the entry. *)
Theorem fetched_article_provenance (ext : Externals) (st : state) (days_back : Z)
  (articles : list Article) :
  fetch_recent_articles ext st days_back = Ok articles ->
  forall a, In a articles ->
    exists source_name entry,
      entry_of_feeds ext newsletter_feeds source_name entry /\
      made_from ext source_name entry a.
Proof.
  intros Hf. apply Forall_forall.
  eapply fetch_recent_articles_Forall; [|exact Hf].
  intros delta cutoff_date source_name entry a _ _ Hin He.
  exists source_name, entry. split; [exact Hin|].
  eapply fetch_entry_inv, He.
Qed.

Lemma fetched_article_provenance_witness :
  exists articles,
    fetch_recent_articles scraping sample_state 7 = Ok articles /\
    forall a, In a articles ->
      exists source_name entry,
        entry_of_feeds scraping newsletter_feeds source_name entry /\
        made_from scraping source_name entry a.
Proof.
  eexists. split; [vm_compute; reflexivity|].
  apply (fetched_article_provenance scraping sample_state 7).
  vm_compute. reflexivity.
Defined.

(** X8. Every article that [fetch_recent_articles] returns has for word
    count the number of words of its content, for comment count what
    [scrape_comments] returned for its link, the paywall flag that
    [detect_paywall] gives its content and title, the score 0.0 and an empty
    summary; and it was published within the window: not before the time of
    the fetch less [days_back] days. *)
Theorem fetched_article_fields (ext : Externals) (st : state) (days_back : Z)
  (articles : list Article) :
  fetch_recent_articles ext st days_back = Ok articles ->
  forall a, In a articles ->
    as_fetched ext (now ext - days_back * 86400000000)%Z a /\
    (0 <= word_count a)%Z.
Proof.
  intros Hf. apply Forall_forall.
  eapply fetch_recent_articles_Forall; [|exact Hf].
  intros delta cutoff_date source_name entry a Hd Hc _ He.
  assert (E : cutoff_date = (now ext - days_back * 86400000000)%Z).
  { unfold timedelta_days in Hd.
    destruct (Z.abs days_back <=? 999999999)%Z; [|discriminate].
    injection Hd as <-. unfold datetime_sub in Hc. cbv zeta in Hc.
    destruct ((0 <=? now ext - days_back * 86400000000)%Z
              && (now ext - days_back * 86400000000 <=? datetime_max)%Z);
      [|discriminate].
    injection Hc as <-. reflexivity. }
  destruct (fetch_entry_inv _ _ _ _ _ _ He) as [_ Ha]. rewrite <- E.
  split; [exact Ha|]. destruct Ha as [-> _]. lia.
Qed.

Lemma fetched_article_fields_witness :
  exists articles,
    fetch_recent_articles scraping sample_state 7 = Ok articles /\
    map word_count articles = [5%Z] /\ map comments articles = [12%Z] /\
    forall a, In a articles ->
      as_fetched scraping (now scraping - 7 * 86400000000)%Z a /\
      (0 <= word_count a)%Z.
Proof.
  eexists. split; [vm_compute; reflexivity|].
  split; [reflexivity|]. split; [reflexivity|].
  apply (fetched_article_fields scraping sample_state 7).
  vm_compute. reflexivity.
Defined.

(** ** One feed and the others *)

Lemma scraping_uninterrupted : uninterrupted scraping.
Proof.
  split; intros url e.
  - cbn. destruct (String.eqb url _); [discriminate | intros [= <-]; reflexivity].
  - cbn [scrape_page scraping with_scraper]. unfold scrape_try.
    cbn [get_page sample_scraper].
    destruct (String.eqb url "https://example.com/new").
    + vm_compute. discriminate.
    + cbn [bind]. intros [= <-]. reflexivity.
Qed.

Lemma fetch_feeds_all ext processed cutoff_date feeds :
  uninterrupted ext ->
  fetch_feeds ext processed cutoff_date feeds []
  = Ok (flat_map (fun feed_url =>
                    fst (fetch_feed ext processed cutoff_date feed_url []))
                 feeds).
Proof.
  intros Hq.
  destruct (fetch_feeds_returns ext Hq processed cutoff_date feeds []) as [result H].
  rewrite H. f_equal. apply fetch_feeds_flat_map in H. exact H.
Qed.

(** X9. With externals that raise nothing but what the handler of a feed
    catches, and a lookback that leaves the cutoff within the calendar,
    [fetch_recent_articles] returns, and what it returns is, feed after feed
    in the order of the list, what each feed gives when it is fetched on its
    own: a feed that fails takes nothing from the other feeds and adds
    nothing to them. *)
Theorem fetch_feeds_independent (ext : Externals) (st : state) (days_back : Z) :
  uninterrupted ext ->
  (0 <= days_back <= 999999999)%Z ->
  (days_back * 86400000000 <= now ext <= datetime_max)%Z ->
  fetch_recent_articles ext st days_back
  = Ok (flat_map
          (fun feed_url =>
             fst (fetch_feed ext (processed_articles st)
                             (now ext - days_back * 86400000000)%Z feed_url []))
          newsletter_feeds).
Proof.
  intros Hq Hd Hn. unfold fetch_recent_articles.
  rewrite (timedelta_days_returns days_back Hd). cbn [bind].
  rewrite (datetime_sub_returns (now ext) (days_back * 86400000000)) by lia.
  cbn [bind]. apply fetch_feeds_all. exact Hq.
Qed.

Lemma fetch_feeds_independent_witness :
  fetch_recent_articles scraping sample_state 7
  = Ok (flat_map
          (fun feed_url =>
             fst (fetch_feed scraping (processed_articles sample_state)
                             (now scraping - 7 * 86400000000)%Z feed_url []))
          newsletter_feeds).
Proof.
  apply (fetch_feeds_independent scraping sample_state 7).
  - exact scraping_uninterrupted.
  - lia.
  - vm_compute. split; discriminate.
Defined.

(** X10. An entry whose [published_parsed] is there and is [None] (a date
    that was not parsed) ends the loop over its feed with a [TypeError]: the
    articles of the entries before it stay in the list, the entries after it
    are not looked at, and the fetch goes on with the next feed.  So does, in
    the same way, any entry on which the body of the loop raises. *)
Theorem failing_entry_ends_feed (ext : Externals) (processed : pyval)
  (cutoff_date : datetime) (feed_url : string) (feed : Feed)
  (before after : list Entry) (entry : Entry) (articles : list Article) :
  let source_name := source_name_of feed feed_url in
  let kept :=
    fst (fetch_entries ext processed cutoff_date source_name before articles) in
  parse_feed ext feed_url = Ok feed ->
  feed_entries feed = before ++ entry :: after ->
  snd (fetch_entries ext processed cutoff_date source_name before articles) = None ->
  (entry_published_parsed entry = Some None ->
   fetch_feed ext processed cutoff_date feed_url articles = (kept, Some TypeError) /\
   forall feeds,
     fetch_feeds ext processed cutoff_date (feed_url :: feeds) articles
     = fetch_feeds ext processed cutoff_date feeds kept) /\
  (forall e,
     fetch_entry ext processed cutoff_date source_name entry = Raise e ->
     fetch_feed ext processed cutoff_date feed_url articles = (kept, Some e)).
Proof.
  intros source_name kept Hp He Hb.
  assert (Hstop : forall e,
             fetch_entry ext processed cutoff_date source_name entry = Raise e ->
             fetch_feed ext processed cutoff_date feed_url articles = (kept, Some e)).
  { intros e Hr. unfold fetch_feed. rewrite Hp. fold (source_name_of feed feed_url).
    fold source_name. rewrite He. apply fetch_entries_stop; assumption. }
  split; [|exact Hstop].
  intros Hd.
  assert (Hr : fetch_entry ext processed cutoff_date source_name entry
               = Raise TypeError).
  { unfold fetch_entry. rewrite Hd. reflexivity. }
  split; [apply Hstop, Hr|].
  intros feeds. cbn [fetch_feeds]. rewrite (Hstop _ Hr). reflexivity.
Qed.

Lemma failing_entry_ends_feed_witness :
  map link
      (fst (fetch_feed undated empty_ledger 0
                       "https://thestrategystack.substack.com/feed" []))
  = ["https://example.com/first"] /\
  snd (fetch_feed undated empty_ledger 0
                  "https://thestrategystack.substack.com/feed" [])
  = Some TypeError.
Proof.
  assert (H : fetch_feed undated empty_ledger 0
                         "https://thestrategystack.substack.com/feed" []
              = (fst (fetch_entries undated empty_ledger 0
                        (source_name_of undated_feed
                           "https://thestrategystack.substack.com/feed")
                        [sample_entry "https://example.com/first"] []),
                 Some TypeError)).
  { apply (failing_entry_ends_feed undated empty_ledger 0
             "https://thestrategystack.substack.com/feed" undated_feed
             [sample_entry "https://example.com/first"]
             [sample_entry "https://example.com/last"] undated_entry []);
      vm_compute; reflexivity. }
  rewrite H. split; vm_compute; reflexivity.
Defined.

(** ** Every article is in the page *)

Lemma occurs_in_app_l needle s post :
  occurs_in needle s -> occurs_in needle (s ++ post)%string.
Proof.
  intros [a [b ->]]. exists a, (b ++ post)%string.
  rewrite !str_append_assoc. reflexivity.
Qed.

Lemma occurs_in_eq needle post hay :
  hay = (needle ++ post)%string -> occurs_in needle hay.
Proof. intros ->. apply occurs_in_prefix. Qed.

Lemma occurs_in_concat needle (render : Article -> string) a l :
  In a l -> occurs_in needle (render a) ->
  occurs_in needle (concat_strings (map render l)).
Proof.
  intros Hin Hocc. induction l as [|b l IH]; [contradiction|].
  cbn [map concat_strings fold_right]. destruct Hin as [->|Hin].
  - apply occurs_in_app_l, Hocc.
  - apply occurs_in_suffix, IH, Hin.
Qed.

(** The text is found at the head of what is left, or further on. *)
Ltac found_here :=
  eapply occurs_in_eq; unfold anchor, summary_block;
  rewrite !str_append_assoc; reflexivity.

Ltac scan_for :=
  first [ solve [found_here]
        | apply occurs_in_tail; scan_for
        | apply occurs_in_suffix; scan_for ].

Lemma anchor_in_featured ext a : occurs_in (anchor a) (render_featured ext a).
Proof.
  unfold render_featured. cbv zeta. do 12 apply occurs_in_suffix. scan_for.
Qed.

Lemma summary_in_featured ext a : occurs_in (summary_block a) (render_featured ext a).
Proof.
  unfold render_featured. cbv zeta. do 34 apply occurs_in_suffix. scan_for.
Qed.

Lemma anchor_in_other a : occurs_in (anchor a) (render_other a).
Proof.
  unfold render_other. cbv zeta. do 8 apply occurs_in_suffix. scan_for.
Qed.

Lemma other_in_section a other_articles :
  In a other_articles ->
  exists item,
    In item (sorted_categories other_articles) /\ In a (sort_by_score (snd item)).
Proof.
  intros Ha.
  destruct (categorize_all_spec other_articles) as [_ [_ Hperm]].
  apply (Permutation_in _ (Permutation_sym Hperm)) in Ha.
  apply in_flat_map in Ha. destruct Ha as [item [Hitem Ha]].
  exists item. split.
  - apply (Permutation_in _ (Permutation_sym (sorted_categories_perm other_articles))).
    exact Hitem.
  - apply (Permutation_in _ (Permutation_sym (sort_by_score_perm (snd item)))).
    exact Ha.
Qed.

Lemma occurs_in_sections needle item items :
  In item items -> occurs_in needle (render_section item) ->
  occurs_in needle (concat_strings (map render_section items)).
Proof.
  intros Hin Hocc. induction items as [|b l IH]; [contradiction|].
  cbn [map concat_strings fold_right]. destruct Hin as [->|Hin].
  - apply occurs_in_app_l, Hocc.
  - apply occurs_in_suffix, IH, Hin.
Qed.

(** X11. The page links every article it is given: for each featured
    article and each other article the page holds the anchor with its link
    and its title, written as they are (nothing is escaped); for each
    featured article it also holds the block with its summary. *)
Theorem page_links_every_article (ext : Externals)
  (featured_articles other_articles : list Article) (a : Article) :
  let page := generate_digest_html ext featured_articles other_articles in
  (In a featured_articles \/ In a other_articles -> occurs_in (anchor a) page) /\
  (In a featured_articles -> occurs_in (summary_block a) page).
Proof.
  cbv zeta. unfold generate_digest_html. split.
  - intros [Ha|Ha]; do 2 apply occurs_in_suffix.
    + apply occurs_in_app_l.
      apply (occurs_in_concat _ (render_featured ext) a); [exact Ha|].
      apply anchor_in_featured.
    + apply occurs_in_suffix, occurs_in_app_l.
      destruct other_articles as [|b l] eqn:E; [contradiction|]. rewrite <- E in *.
      apply occurs_in_suffix, occurs_in_app_l.
      destruct (other_in_section a other_articles Ha) as [item [Hitem Hin]].
      apply (occurs_in_sections _ item); [exact Hitem|].
      unfold render_section. cbv zeta.
      apply occurs_in_suffix, occurs_in_app_l.
      apply (occurs_in_concat _ render_other a); [exact Hin|].
      apply anchor_in_other.
  - intros Ha. do 2 apply occurs_in_suffix. apply occurs_in_app_l.
    apply (occurs_in_concat _ (render_featured ext) a); [exact Ha|].
    apply summary_in_featured.
Qed.

Lemma page_links_every_article_witness :
  occurs_in
    (anchor (sample_other "e" "The Algorithmic Bridge" 40))
    (generate_digest_html offline [sample_article 1000 2] sample_others).
Proof.
  apply (proj1 (page_links_every_article offline [sample_article 1000 2]
                  sample_others (sample_other "e" "The Algorithmic Bridge" 40))).
  right. cbn. tauto.
Defined.

(** ** A run, whatever its outcome *)

Lemma dict_lookup_set_same {V : Type} (d : list (string * V)) k v :
  dict_lookup (dict_set d k v) k = Some v.
Proof.
  induction d as [|[k' v'] d IH]; cbn [dict_set dict_lookup].
  - rewrite String.eqb_refl. reflexivity.
  - destruct (String.eqb k' k) eqn:E; cbn [dict_lookup].
    + rewrite String.eqb_refl. reflexivity.
    + rewrite E. exact IH.
Qed.

Lemma dict_lookup_set_other {V : Type} (d : list (string * V)) k k' v :
  k <> k' -> dict_lookup (dict_set d k v) k' = dict_lookup d k'.
Proof.
  intros N. induction d as [|[k0 v0] d IH]; cbn [dict_set dict_lookup].
  - destruct (String.eqb_spec k k'); [contradiction | reflexivity].
  - destruct (String.eqb_spec k0 k) as [->|N0]; cbn [dict_lookup].
    + destruct (String.eqb_spec k k'); [contradiction | reflexivity].
    + destruct (String.eqb k0 k'); [reflexivity | exact IH].
Qed.

(** Appending a record takes no link out of the ledger. *)
Lemma ledger_append_keeps processed bucket record processed' l :
  ledger_append processed bucket record = Ok processed' ->
  ledger_has_link processed l -> ledger_has_link processed' l.
Proof.
  unfold ledger_append. destruct processed as [| | | | | |d|]; try discriminate.
  destruct (dict_lookup d bucket) as [[| | | | |lst| |]|] eqn:Hb; try discriminate.
  intros [= <-] [d0 [bucket0 [recs [r [Hd [Hb0 [Hl [Hr Hk]]]]]]]].
  injection Hd as <-.
  destruct (String.eqb_spec bucket bucket0) as [E|N].
  - subst bucket0. rewrite Hb in Hl. injection Hl as <-.
    exists (dict_set d bucket (VList (lst ++ [record]))), bucket, (lst ++ [record]), r.
    split; [reflexivity|]. split; [exact Hb0|].
    split; [apply dict_lookup_set_same|].
    split; [apply in_or_app; left; exact Hr | exact Hk].
  - exists (dict_set d bucket (VList (lst ++ [record]))), bucket0, recs, r.
    split; [reflexivity|]. split; [exact Hb0|].
    split; [rewrite dict_lookup_set_other by exact N; exact Hl|].
    split; [exact Hr | exact Hk].
Qed.

Lemma record_all_keeps ext processed bucket articles l :
  ledger_has_link processed l ->
  ledger_has_link (fst (record_all ext processed bucket articles)) l.
Proof.
  revert processed. induction articles as [|a articles IH]; intros processed Hl;
    cbn [record_all]; [exact Hl|].
  destruct (ledger_append processed bucket (record_of ext a)) as [processed'|e] eqn:E.
  - apply IH. eapply ledger_append_keeps; eassumption.
  - exact Hl.
Qed.

(** X12. Whatever the outcome of a run (a file name, an early end, an
    exception at any step) and whatever the ledger holds, no link leaves the
    ledger in memory: a link that was in it before the run is in it after. *)
Theorem run_digest_keeps_links (ext : Externals) (st : state)
  (days_back featured_count : Z) (l : string) :
  ledger_has_link (processed_articles st) l ->
  ledger_has_link
    (processed_articles (fst (run_digest ext st days_back featured_count))) l.
Proof.
  intros Hl. unfold run_digest.
  destruct (fetch_recent_articles ext st days_back) as [[|a0 articles]|e];
    try exact Hl.
  destruct (select_top_articles (a0 :: articles) featured_count)
    as [[featured others]|e]; [|exact Hl].
  destruct (summarize_all ext featured) as [featured'|e]; [|exact Hl].
  cbv zeta. cbn [processed_articles set_files].
  pose proof (record_all_keeps ext (processed_articles st) "featured" featured' l Hl)
    as H1.
  destruct (record_all ext (processed_articles st) "featured" featured')
    as [p [e|]]; cbn [fst] in H1; [exact H1|].
  pose proof (record_all_keeps ext p "reviewed" others l H1) as H2.
  destruct (record_all ext p "reviewed" others) as [p' [e|]]; cbn [fst] in H2;
    exact H2.
Qed.

Lemma sample_ledger_has_seen :
  ledger_has_link sample_ledger "https://example.com/seen".
Proof.
  eexists _, "featured", _, _. split; [reflexivity|].
  split; [left; reflexivity|]. split; [reflexivity|].
  split; [left; reflexivity | reflexivity].
Qed.

Lemma run_digest_keeps_links_witness :
  ledger_has_link
    (processed_articles (fst (run_digest online sample_state 7 7)))
    "https://example.com/seen".
Proof.
  apply (run_digest_keeps_links online sample_state 7 7 "https://example.com/seen").
  exact sample_ledger_has_seen.
Defined.

(** X13. A run writes at most two files: whatever its outcome, every file
    but the digest file [ai_digest_<timestamp>.html] and the ledger file is
    as it was, and the object keeps the name of its ledger file.  The ledger
    file is written only by a run that returns a file name: after any other
    outcome it is as it was (the digest file not bearing its name). *)
Theorem run_digest_frame (ext : Externals) (st : state)
  (days_back featured_count : Z) :
  let st' := fst (run_digest ext st days_back featured_count) in
  let digest_filename :=
    ("ai_digest_" ++ format_timestamp ext (now ext) ++ ".html")%string in
  processed_file st' = processed_file st /\
  (forall name,
     name <> digest_filename -> name <> processed_file st ->
     files st' name = files st name) /\
  ((forall name, snd (run_digest ext st days_back featured_count) <> Ok (Some name)) ->
   processed_file st <> digest_filename ->
   files st' (processed_file st) = files st (processed_file st)).
Proof.
  cbv zeta. unfold run_digest.
  set (fn := ("ai_digest_" ++ format_timestamp ext (now ext) ++ ".html")%string).
  destruct (fetch_recent_articles ext st days_back) as [[|a0 articles]|e];
    try (cbn [fst snd]; repeat split; reflexivity).
  destruct (select_top_articles (a0 :: articles) featured_count)
    as [[featured others]|e]; [|cbn [fst snd]; repeat split; reflexivity].
  destruct (summarize_all ext featured) as [featured'|e];
    [|cbn [fst snd]; repeat split; reflexivity].
  cbv zeta. fold fn.
  destruct (record_all ext _ "featured" featured') as [p [e|]].
  - cbn [fst snd processed_file files set_processed_articles set_files].
    unfold write_file. split; [reflexivity|]. split.
    + intros name N _. destruct (String.eqb_spec name fn); [contradiction | reflexivity].
    + intros _ N. destruct (String.eqb_spec (processed_file st) fn);
        [contradiction | reflexivity].
  - destruct (record_all ext p "reviewed" others) as [p' [e|]].
    + cbn [fst snd processed_file files set_processed_articles set_files].
      unfold write_file. split; [reflexivity|]. split.
      * intros name N _. destruct (String.eqb_spec name fn); [contradiction | reflexivity].
      * intros _ N. destruct (String.eqb_spec (processed_file st) fn);
          [contradiction | reflexivity].
    + cbn [fst snd processed_file files set_processed_articles set_files
           save_processed_articles processed_articles].
      unfold write_file. split; [reflexivity|]. split.
      * intros name N1 N2.
        destruct (String.eqb_spec name (processed_file st)); [contradiction|].
        destruct (String.eqb_spec name fn); [contradiction | reflexivity].
      * intros H. exfalso. eapply H. reflexivity.
Qed.

Lemma run_digest_frame_witness :
  files (fst (run_digest online sample_state 7 7)) "notes.txt"
  = files sample_state "notes.txt".
Proof.
  apply (proj1 (proj2 (run_digest_frame online sample_state 7 7)));
    vm_compute; discriminate.
Defined.

(** ** A run that returns a file name, and one that cannot record *)

(** X14. What a run that returns a file name has done, for a ledger of two
    lists: the name is [ai_digest_<timestamp>.html]; the file of that name
    holds the page of the featured articles, summarised, and the others; the
    ledger has got, in order, a record of every featured article at the end
    of its featured list and a record of every other article at the end of
    its reviewed list, nothing else in it has changed; and the ledger file
    holds this ledger. *)
Theorem run_digest_effects (ext : Externals) (st st' : state)
  (days_back featured_count : Z) (name : string)
  (featured0 reviewed0 : list pyval) :
  processed_articles st
  = VDict [("featured", VList featured0); ("reviewed", VList reviewed0)] ->
  run_digest ext st days_back featured_count = (st', Ok (Some name)) ->
  exists articles featured others featured',
    fetch_recent_articles ext st days_back = Ok articles /\
    select_top_articles articles featured_count = Ok (featured, others) /\
    summarize_all ext featured = Ok featured' /\
    name = ("ai_digest_" ++ format_timestamp ext (now ext) ++ ".html")%string /\
    processed_articles st'
    = VDict [("featured", VList (featured0 ++ map (record_of ext) featured'));
             ("reviewed", VList (reviewed0 ++ map (record_of ext) others))] /\
    files st' (processed_file st)
    = Some (JsonText (to_json ext (processed_articles st'))) /\
    (name <> processed_file st ->
     files st' name = Some (PlainText (generate_digest_html ext featured' others))).
Proof.
  intros Hp. unfold run_digest.
  set (fn := ("ai_digest_" ++ format_timestamp ext (now ext) ++ ".html")%string).
  destruct (fetch_recent_articles ext st days_back) as [[|a0 articles]|e] eqn:Hfetch;
    try discriminate.
  destruct (select_top_articles (a0 :: articles) featured_count)
    as [[featured others]|e] eqn:Hsel; [|discriminate].
  destruct (summarize_all ext featured) as [featured'|e] eqn:Hsum; [|discriminate].
  cbv zeta. fold fn. cbn [set_files processed_articles]. rewrite Hp.
  rewrite record_all_featured, record_all_reviewed.
  intros [= <- <-]. exists (a0 :: articles), featured, others, featured'.
  split; [reflexivity|]. split; [exact Hsel|]. split; [exact Hsum|].
  split; [reflexivity|]. split; [reflexivity|].
  cbn [files save_processed_articles set_processed_articles set_files
       processed_file processed_articles].
  unfold write_file. split.
  - rewrite String.eqb_refl. reflexivity.
  - intros N. destruct (String.eqb_spec fn (processed_file st)); [contradiction|].
    rewrite String.eqb_refl. reflexivity.
Qed.

Lemma run_digest_effects_witness :
  exists articles featured others featured',
    fetch_recent_articles online sample_state 7 = Ok articles /\
    select_top_articles articles 7 = Ok (featured, others) /\
    summarize_all online featured = Ok featured' /\
    "ai_digest_20250101_000000.html"
    = ("ai_digest_" ++ format_timestamp online (now online) ++ ".html")%string /\
    processed_articles (fst (run_digest online sample_state 7 7))
    = VDict [("featured",
              VList ([ledger_record "Seen" "https://example.com/seen"
                                    "2024-12-25T00:00:00" (Fin 50)]
                     ++ map (record_of online) featured'));
             ("reviewed", VList ([] ++ map (record_of online) others))] /\
    files (fst (run_digest online sample_state 7 7)) (processed_file sample_state)
    = Some (JsonText
              (to_json online
                 (processed_articles (fst (run_digest online sample_state 7 7))))) /\
    ("ai_digest_20250101_000000.html" <> processed_file sample_state ->
     files (fst (run_digest online sample_state 7 7)) "ai_digest_20250101_000000.html"
     = Some (PlainText (generate_digest_html online featured' others))).
Proof.
  apply (run_digest_effects online sample_state
           (fst (run_digest online sample_state 7 7)) 7 7
           "ai_digest_20250101_000000.html"); vm_compute; reflexivity.
Defined.

Lemma next_run_excludes_earlier_witness :
  exists st' st2 articles articles',
    run_digest online sample_state 7 7
    = (st', Ok (Some "ai_digest_20250101_000000.html")) /\
    fetch_recent_articles online sample_state 7 = Ok articles /\
    init_digest undated (processed_file st') (files st') = Ok st2 /\
    fetch_recent_articles undated st2 7 = Ok articles' /\
    map link articles = ["https://example.com/new"] /\
    map link articles' = ["https://example.com/first"] /\
    forall a a', In a articles -> In a' articles' -> link a' <> link a.
Proof.
  eexists. eexists. eexists. eexists.
  split; [vm_compute; reflexivity|].
  split; [vm_compute; reflexivity|].
  split; [vm_compute; reflexivity|].
  split; [vm_compute; reflexivity|].
  split; [reflexivity|]. split; [reflexivity|].
  eapply (next_run_excludes_earlier online undated sample_state _ _ 7 7 7
            "ai_digest_20250101_000000.html").
  - eexists _, _. split; [reflexivity|]. split; [|constructor].
    constructor; [|constructor]. eexists _, _, _, _. reflexivity.
  - vm_compute. reflexivity.
  - vm_compute. reflexivity.
  - vm_compute. reflexivity.
  - vm_compute. reflexivity.
Defined.

Lemma mapM_length {A B : Type} (f : A -> result B) l l' :
  mapM f l = Ok l' -> List.length l' = List.length l.
Proof.
  intros H. apply mapM_Forall2 in H. symmetry. eapply Forall2_length, H.
Qed.

(** A positive count features an article when there is one. *)
Lemma select_top_articles_features articles count featured others :
  (0 < count)%Z -> articles <> [] ->
  select_top_articles articles count = Ok (featured, others) ->
  featured <> [].
Proof.
  intros Hc Hne Hsel.
  destruct (select_top_articles_inv _ _ _ _ Hsel) as [scored [Hsc [Hf _]]].
  rewrite slice_to_firstn in Hf by lia.
  assert (Hlen : List.length (sorted_reverse flt quality_score scored)
                 = List.length articles).
  { rewrite sorted_reverse_length. symmetry. eapply Forall2_length, Hsc. }
  intros E. rewrite E in Hf. apply (f_equal (@List.length Article)) in Hf.
  rewrite length_firstn, Hlen in Hf. cbn [List.length] in Hf.
  destruct articles; [congruence|]. cbn [List.length] in Hf. lia.
Qed.

(** X16. A ledger that has no "featured" list (a ledger file that holds
    the empty object, say) does not stop the fetch, which reads the ledger
    with [get]; but the run cannot record: with an article to feature it
    writes the page and then raises [KeyError], leaving the ledger in memory
    and the ledger file as they were. *)
Theorem run_digest_ledger_without_featured (ext : Externals) (st : state)
  (days_back featured_count : Z) (d : list (string * pyval))
  (articles featured others featured' : list Article) :
  processed_articles st = VDict d -> dict_lookup d "featured" = None ->
  (0 < featured_count)%Z ->
  fetch_recent_articles ext st days_back = Ok articles -> articles <> [] ->
  select_top_articles articles featured_count = Ok (featured, others) ->
  summarize_all ext featured = Ok featured' ->
  run_digest ext st days_back featured_count
  = (set_files st
       (write_file (files st)
          ("ai_digest_" ++ format_timestamp ext (now ext) ++ ".html")%string
          (PlainText (generate_digest_html ext featured' others))),
     Raise KeyError).
Proof.
  intros Hp Hd Hc Hfetch Hne Hsel Hsum.
  pose proof (select_top_articles_features _ _ _ _ Hc Hne Hsel) as Hf.
  assert (Hf' : featured' <> []).
  { intros E. apply Hf. apply mapM_length in Hsum. rewrite E in Hsum.
    destruct featured; [reflexivity | discriminate]. }
  unfold run_digest. rewrite Hfetch.
  destruct articles as [|a0 rest]; [congruence|].
  rewrite Hsel, Hsum. cbv zeta. cbn [set_files processed_articles]. rewrite Hp.
  destruct featured' as [|f fs]; [congruence|].
  cbn [record_all]. unfold ledger_append. rewrite Hd.
  unfold set_processed_articles, set_files. cbn [processed_file processed_articles files].
  rewrite Hp. reflexivity.
Qed.

Lemma run_digest_ledger_without_featured_witness :
  exists featured' others,
    run_digest online bare_state 7 7
    = (set_files bare_state
         (write_file (files bare_state)
            ("ai_digest_" ++ format_timestamp online (now online) ++ ".html")%string
            (PlainText (generate_digest_html online featured' others))),
       Raise KeyError).
Proof.
  eexists. eexists.
  eapply (run_digest_ledger_without_featured online bare_state 7 7 []).
  - reflexivity.
  - reflexivity.
  - lia.
  - vm_compute. reflexivity.
  - discriminate.
  - vm_compute. reflexivity.
  - vm_compute. reflexivity.
Defined.

(** ** The scores of a run *)

Lemma Forall2_In_r {A B : Type} (R : A -> B -> Prop) l l' y :
  Forall2 R l l' -> In y l' -> exists x, In x l /\ R x y.
Proof.
  induction 1 as [|a b l l' Hab _ IH]; [contradiction|].
  intros [<-|Hy].
  - exists a. split; [left; reflexivity | exact Hab].
  - destruct (IH Hy) as [x [Hx Hr]]. exists x. split; [right; exact Hx | exact Hr].
Qed.

Lemma score_bounds a s :
  (0 <= word_count a)%Z -> calculate_quality_score a = Ok s ->
  exists q, s = Fin q /\ (0 <= q <= 100)%Q.
Proof.
  intros Hw Hs.
  destruct (int_truediv (word_count a) 2000) as [x|e] eqn:Hdiv.
  - destruct (int_truediv_nonneg _ _ Hw Hdiv) as [r [-> Hr]].
    destruct (score_after_division a _ Hdiv Hr) as [q [Eq Hq]].
    rewrite Eq in Hs. injection Hs as <-. exists q. split; [reflexivity | exact Hq].
  - unfold calculate_quality_score in Hs. rewrite Hdiv in Hs. discriminate.
Qed.

(** X17. The scores of a run: every article that [select_top_articles]
    returns, featured or not, for the list that [fetch_recent_articles]
    returned has a score that is a number between 0 and 100; no hypothesis on
    the feeds or on the comment counts is needed. *)
Theorem fetched_scores_in_range (ext : Externals) (st : state)
  (days_back count : Z) (articles featured others : list Article) :
  fetch_recent_articles ext st days_back = Ok articles ->
  select_top_articles articles count = Ok (featured, others) ->
  forall a, In a (featured ++ others) ->
    exists q, quality_score a = Fin q /\ (0 <= q <= 100)%Q.
Proof.
  intros Hfetch Hsel a Ha.
  destruct (select_top_articles_inv _ _ _ _ Hsel) as [scored [Hsc [Hf Ho]]].
  assert (Happ : featured ++ others = sorted_reverse flt quality_score scored).
  { subst. apply slice_to_from. }
  rewrite Happ in Ha. apply (Permutation_in _ (sorted_reverse_perm _ _ _ _ scored)) in Ha.
  destruct (Forall2_In_r _ _ _ _ Hsc Ha) as [a0 [Ha0 Hab]].
  assert (Hw : (0 <= word_count a0)%Z).
  { assert (HF : Forall (fun x => (0 <= word_count x)%Z) articles).
    { eapply fetch_recent_articles_Forall; [|exact Hfetch].
      intros delta cutoff_date source_name entry x _ _ _ He.
      destruct (fetch_entry_inv _ _ _ _ _ _ He) as [_ [-> _]]. lia. }
    rewrite Forall_forall in HF. apply HF, Ha0. }
  unfold scored_as, score_article in Hab.
  destruct (calculate_quality_score a0) as [s|e] eqn:Es; [|discriminate].
  cbn [bind] in Hab. injection Hab as <-. cbn [quality_score set_quality_score].
  eapply score_bounds; eassumption.
Qed.

Lemma fetched_scores_in_range_witness :
  exists articles featured others,
    fetch_recent_articles scraping sample_state 7 = Ok articles /\
    select_top_articles articles 7 = Ok (featured, others) /\
    forall a, In a (featured ++ others) ->
      exists q, quality_score a = Fin q /\ (0 <= q <= 100)%Q.
Proof.
  eexists. eexists. eexists.
  split; [vm_compute; reflexivity|]. split; [vm_compute; reflexivity|].
  eapply (fetched_scores_in_range scraping sample_state 7 7);
    [vm_compute; reflexivity | vm_compute; reflexivity].
Defined.

(** ** The summaries of the featured articles *)

Lemma summarize_article_source ext a s :
  summarize_article ext a = Ok s ->
  s = summary_unavailable \/
  exists message block blocks,
    create_message ext "claude-3-5-sonnet-20241022" 200 (summary_prompt a)
    = Ok message /\
    message_content message = block :: blocks /\
    block_text block = Some s.
Proof.
  unfold summarize_article.
  destruct (request_summary ext a) as [text|e] eqn:E.
  - intros [= <-]. right. unfold request_summary in E. cbv zeta in E.
    apply bind_raises_ok in E. destruct E as [message [Hm E]].
    apply bind_raises_ok in E. destruct E as [block [Hb E]].
    destruct (message_content message) as [|b blocks] eqn:Hc; [discriminate|].
    injection Hb as ->. exists message, block, blocks.
    split; [exact Hm|]. split; [exact Hc|].
    destruct (block_text block); [|discriminate]. injection E as ->. reflexivity.
  - destruct (is_Exception e); [|discriminate]. intros [= <-]. left. reflexivity.
Qed.

(** X18. The loop that summarises the featured articles changes nothing but
    the summaries: it returns the same articles, in the same order, each with
    a summary that is the text of the first block of the reply to its own
    prompt, as it is, or else the placeholder.  With a service that raises
    nothing but what the handler catches, the loop returns. *)
Theorem summarize_all_spec (ext : Externals) (featured : list Article) :
  (quiet_service ext -> exists featured', summarize_all ext featured = Ok featured') /\
  (forall featured',
     summarize_all ext featured = Ok featured' ->
     Forall2 (summarised ext) featured featured').
Proof.
  split; [apply summarize_all_returns|].
  intros featured' H. unfold summarize_all in H. apply mapM_Forall2 in H.
  induction H as [|a b l l' Hab _ IH]; constructor; [|exact IH].
  destruct (summarize_article ext a) as [s|e] eqn:Es; [|discriminate].
  cbn [bind] in Hab. injection Hab as <-. split; [reflexivity|].
  cbn [summary set_summary]. apply summarize_article_source, Es.
Qed.

Lemma summarize_all_spec_witness :
  exists featured', summarize_all online [sample_article 1000 2] = Ok featured'.
Proof.
  apply (proj1 (summarize_all_spec online [sample_article 1000 2])).
  intros model max_tokens prompt e. cbn. discriminate.
Defined.

(** ** A ledger that was loaded *)

(** Induction on JSON documents, with the hypothesis for every element of
    an array and every member of an object. *)
Fixpoint json_rect_nested (P : json -> Prop)
  (HNull : P JNull) (HBool : forall b, P (JBool b)) (HInt : forall z, P (JInt z))
  (HFloat : forall x, P (JFloat x)) (HString : forall s, P (JString s))
  (HArray : forall l, Forall P l -> P (JArray l))
  (HObject : forall m, Forall (fun kv => P (snd kv)) m -> P (JObject m))
  (j : json) {struct j} : P j :=
  let rec := json_rect_nested P HNull HBool HInt HFloat HString HArray HObject in
  match j with
  | JNull => HNull
  | JBool b => HBool b
  | JInt z => HInt z
  | JFloat x => HFloat x
  | JString s => HString s
  | JArray l =>
      HArray l ((fix go (l : list json) : Forall P l :=
                   match l with
                   | [] => Forall_nil P
                   | x :: l' => Forall_cons x (rec x) (go l')
                   end) l)
  | JObject m =>
      HObject m ((fix go (m : list (string * json))
                    : Forall (fun kv => P (snd kv)) m :=
                    match m with
                    | [] => Forall_nil _
                    | kv :: m' =>
                        @Forall_cons _ (fun kv => P (snd kv)) kv m' (rec (snd kv)) (go m')
                    end) m)
  end.

Lemma dict_set_keys {V : Type} (d : list (string * V)) k v k' :
  In k' (map fst (dict_set d k v)) -> k' = k \/ In k' (map fst d).
Proof.
  induction d as [|[k0 v0] d IH]; cbn [dict_set map fst In].
  - intros [<-|[]]. left. reflexivity.
  - destruct (String.eqb_spec k0 k) as [->|N]; cbn [map fst In].
    + intros [<-|H]; [left; reflexivity | right; right; exact H].
    + intros [<-|H]; [right; left; reflexivity|].
      destruct (IH H) as [E|Hin]; [left; exact E | right; right; exact Hin].
Qed.

Lemma dict_set_NoDup {V : Type} (d : list (string * V)) k v :
  NoDup (map fst d) -> NoDup (map fst (dict_set d k v)).
Proof.
  induction d as [|[k0 v0] d IH]; cbn [dict_set map fst]; intros Hnd.
  - constructor; [intros [] | constructor].
  - apply NoDup_cons_iff in Hnd. destruct Hnd as [Hk Hnd].
    destruct (String.eqb_spec k0 k) as [->|N]; cbn [map fst].
    + constructor; assumption.
    + constructor; [|apply IH, Hnd].
      intros Hin. apply dict_set_keys in Hin. destruct Hin as [E|Hin];
        [apply N; exact E | apply Hk, Hin].
Qed.

Lemma dict_set_Forall {V : Type} (P : V -> Prop) (d : list (string * V)) k v :
  Forall (fun kv => P (snd kv)) d -> P v ->
  Forall (fun kv => P (snd kv)) (dict_set d k v).
Proof.
  intros Hd Hv. induction Hd as [|[k0 v0] d H0 Hd IH]; cbn [dict_set].
  - constructor; [exact Hv | constructor].
  - destruct (String.eqb k0 k); constructor; assumption.
Qed.

Lemma dict_of_items_spec {V : Type} (P : V -> Prop) (items : list (string * V)) :
  Forall (fun kv => P (snd kv)) items ->
  NoDup (map fst (dict_of_items items)) /\
  Forall (fun kv => P (snd kv)) (dict_of_items items).
Proof.
  unfold dict_of_items. intros H.
  assert (G : forall acc,
             NoDup (map fst acc) -> Forall (fun kv => P (snd kv)) acc ->
             NoDup (map fst (fold_left (fun d kv => dict_set d (fst kv) (snd kv))
                                       items acc)) /\
             Forall (fun kv => P (snd kv))
                    (fold_left (fun d kv => dict_set d (fst kv) (snd kv)) items acc)).
  { induction H as [|kv items Hkv _ IH]; intros acc Hnd Hacc; cbn [fold_left].
    - split; assumption.
    - apply IH; [apply dict_set_NoDup, Hnd | apply dict_set_Forall; assumption]. }
  apply G; constructor.
Qed.

Lemma native_list l :
  Forall json_native l -> fold_right (fun x P => json_native x /\ P) True l.
Proof. induction 1; cbn [fold_right]; [exact I | split; assumption]. Qed.

Lemma native_items (d : list (string * pyval)) :
  Forall (fun kv => json_native (snd kv)) d ->
  fold_right (fun kv P => json_native (snd kv) /\ P) True d.
Proof. induction 1; cbn [fold_right]; [exact I | split; assumption]. Qed.

(** What [json.load] returns is written back as it is. *)
Lemma of_json_native (j : json) : json_native (of_json j).
Proof.
  induction j as [| | | | |l IH|m IH] using json_rect_nested;
    cbn [of_json json_native]; try exact I.
  - apply native_list, Forall_map. exact IH.
  - destruct (dict_of_items_spec json_native
                (map (fun kv : string * json => (fst kv, of_json (snd kv))) m))
      as [Hnd Hall].
    { apply Forall_map. cbn [snd]. exact IH. }
    split; [exact Hnd | apply native_items, Hall].
Qed.

Lemma load_native ext st v :
  load_processed_articles ext st = Ok v -> json_native v.
Proof.
  unfold load_processed_articles.
  destruct (files st (processed_file st)) as [[j|t]|]; try discriminate.
  - intros [= <-]. apply of_json_native.
  - intros [= <-]. apply well_formed_ledger_native, empty_ledger_well_formed.
Qed.

(** X19. Whatever the ledger file holds, as long as it is a JSON document,
    the ledger a new object starts with is written back and read again as it
    is: saving and loading gives the same ledger, well-formed or not.  (A
    key that stands twice in an object of the file has been merged by the
    first load.) *)
Theorem loaded_ledger_round_trip (ext : Externals) (processed_articles_file : string)
  (fs : filesystem) (st : state) :
  init_digest ext processed_articles_file fs = Ok st ->
  json_native (processed_articles st) /\
  load_processed_articles ext (save_processed_articles ext st)
  = Ok (processed_articles st).
Proof.
  unfold init_digest.
  destruct (claude_api_key ext) as [[|c k]|]; try discriminate.
  destruct (load_processed_articles ext (mkState processed_articles_file VNone fs))
    as [v|e] eqn:Hl; [|discriminate].
  cbn [bind]. intros [= <-]. cbn [processed_articles].
  pose proof (load_native _ _ _ Hl) as Hn. split; [exact Hn|].
  rewrite load_after_save. cbn [processed_articles]. f_equal.
  apply json_round_trip, Hn.
Qed.

Lemma loaded_ledger_round_trip_witness :
  exists st,
    init_digest online "processed_articles.json" twice_files = Ok st /\
    processed_articles st = VDict [("featured", VStr "twice"); ("extra", VNone)] /\
    load_processed_articles online (save_processed_articles online st)
    = Ok (processed_articles st).
Proof.
  eexists. split; [reflexivity|]. split; [reflexivity|].
  apply (loaded_ledger_round_trip online "processed_articles.json" twice_files).
  reflexivity.
Defined.

(** ** The categories of the page *)

Lemma dict_get_In {V : Type} (d : list (string * V)) k default :
  dict_get d k default = default \/ In (k, dict_get d k default) d.
Proof.
  induction d as [|[k' v'] d IH]; cbn [dict_get]; [left; reflexivity|].
  destruct (String.eqb_spec k' k) as [->|N].
  - right. left. reflexivity.
  - destruct IH as [E|Hin]; [left; exact E | right; right; exact Hin].
Qed.

Lemma table_categories : incl (map snd source_categories) all_categories.
Proof.
  intros c Hc. cbn in Hc. unfold all_categories. cbn [In].
  repeat (destruct Hc as [<-|Hc]; [tauto|]). contradiction.
Qed.

Lemma categorize_newsletter_in source :
  In (categorize_newsletter source) all_categories.
Proof.
  unfold categorize_newsletter.
  destruct (dict_get_In source_categories source "Other") as [E|Hin].
  - rewrite E. unfold all_categories. cbn [In]. tauto.
  - apply table_categories. apply in_map_iff.
    exists (source, dict_get source_categories source "Other").
    split; [reflexivity | exact Hin].
Qed.

Lemma categorize_all_keys other_articles :
  incl (map fst (categorize_all other_articles)) all_categories.
Proof.
  destruct (categorize_all_spec other_articles) as [_ [Hsound _]].
  intros c Hc. apply in_map_iff in Hc. destruct Hc as [[c' arts] [<- Hitem]].
  rewrite Forall_forall in Hsound. destruct (Hsound _ Hitem) as [Hne Hcat].
  cbn [fst snd] in *. destruct arts as [|a arts]; [congruence|].
  apply Forall_inv in Hcat. rewrite <- Hcat. apply categorize_newsletter_in.
Qed.

(** X20. The categories.  A source of the table gets the category the table
    gives it (no source stands twice in the table), and every source gets
    one of eight categories or "Other"; so the page has at most nine
    sections of other articles, each under one of these nine names, and the
    sizes the section titles show add up to the number of other articles. *)
Theorem page_sections_bound (other_articles : list Article) :
  (forall source category,
     In (source, category) source_categories ->
     categorize_newsletter source = category) /\
  (forall source, In (categorize_newsletter source) all_categories) /\
  (List.length (rendered_sections other_articles) <= 9)%nat /\
  (forall item, In item (rendered_sections other_articles) ->
                In (fst item) all_categories) /\
  list_sum (map section_size (rendered_sections other_articles))
  = List.length other_articles.
Proof.
  split; [apply categorize_newsletter_listed|].
  split; [apply categorize_newsletter_in|].
  destruct (categorize_all_spec other_articles) as [Hnd [_ Hperm]].
  pose proof (sorted_categories_perm other_articles) as Hsc.
  split; [|split].
  - unfold rendered_sections. rewrite length_map.
    rewrite (Permutation_length Hsc), <- (length_map fst).
    change 9%nat with (List.length all_categories).
    apply NoDup_incl_length; [exact Hnd | apply categorize_all_keys].
  - intros item Hitem. apply (categorize_all_keys other_articles).
    apply (Permutation_in _ (Permutation_map fst Hsc)).
    rewrite <- rendered_sections_keys. apply in_map, Hitem.
  - rewrite <- (Permutation_length Hperm).
    rewrite <- (Permutation_length (Permutation_flat_map snd Hsc)).
    unfold rendered_sections. rewrite map_map. clear Hsc Hperm Hnd.
    induction (sorted_categories other_articles) as [|[c arts] l IH];
      cbn [map flat_map list_sum fold_right section_size fst snd]; [reflexivity|].
    fold (list_sum (map (fun x => section_size (fst x, sort_by_score (snd x))) l)).
    rewrite length_app, <- IH. unfold section_size at 1. cbn [snd].
    unfold sort_by_score. rewrite sorted_reverse_length. reflexivity.
Qed.

Lemma page_sections_bound_witness :
  categorize_newsletter "The Algorithmic Bridge" = "AI Research & Technical" /\
  map section_size (rendered_sections sample_others) = [3; 2; 1]%nat.
Proof.
  split.
  - apply (proj1 (page_sections_bound sample_others)). cbn. tauto.
  - reflexivity.
Defined.

(** ** The entries of a feed, one by one *)

Section EntryByEntry.

Variables (ext : Externals) (processed : pyval) (cutoff_date : datetime)
          (source_name : string).

Lemma fetch_entries_flat_map entries articles :
  snd (fetch_entries ext processed cutoff_date source_name entries articles) = None ->
  fst (fetch_entries ext processed cutoff_date source_name entries articles)
  = articles
    ++ flat_map (articles_of_entry ext processed cutoff_date source_name) entries.
Proof.
  revert articles. induction entries as [|entry entries IH]; intros articles;
    cbn [fetch_entries flat_map].
  - intros _. rewrite app_nil_r. reflexivity.
  - unfold articles_of_entry at 1.
    destruct (fetch_entry ext processed cutoff_date source_name entry)
      as [[article|]|e].
    + intros H. rewrite (IH _ H), <- app_assoc. reflexivity.
    + intros H. rewrite (IH _ H). reflexivity.
    + discriminate.
Qed.

End EntryByEntry.

(** X21. Within a feed whose loop ends with no exception, every entry is
    handled on its own: the articles appended are, entry after entry, what
    each entry gives.  The ledger is read and not written during the fetch;
    so an entry that gives an article and stands twice in the feed gives the
    article twice. *)
Theorem fetch_entries_one_by_one (ext : Externals) (processed : pyval)
  (cutoff_date : datetime) (source_name : string) (entries : list Entry)
  (articles : list Article) :
  snd (fetch_entries ext processed cutoff_date source_name entries articles) = None ->
  fst (fetch_entries ext processed cutoff_date source_name entries articles)
  = articles
    ++ flat_map (articles_of_entry ext processed cutoff_date source_name) entries /\
  forall entry article,
    fetch_entry ext processed cutoff_date source_name entry = Ok (Some article) ->
    forall before between after,
      entries = before ++ entry :: between ++ entry :: after ->
      exists l1 l2 l3,
        fst (fetch_entries ext processed cutoff_date source_name entries articles)
        = articles ++ l1 ++ article :: l2 ++ article :: l3.
Proof.
  intros H. pose proof (fetch_entries_flat_map _ _ _ _ _ _ H) as E.
  split; [exact E|].
  intros entry article He before between after ->. rewrite E.
  rewrite flat_map_app. cbn [flat_map]. rewrite flat_map_app. cbn [flat_map].
  unfold articles_of_entry at 2 4. rewrite He. cbn [app].
  eexists _, _, _. reflexivity.
Qed.

Lemma fetch_entries_one_by_one_witness :
  map link
    (fst (fetch_entries online empty_ledger 0 "A feed"
            [sample_entry "https://example.com/new";
             sample_entry "https://example.com/new"] []))
  = ["https://example.com/new"; "https://example.com/new"].
Proof.
  rewrite (proj1 (fetch_entries_one_by_one online empty_ledger 0 "A feed"
                    [sample_entry "https://example.com/new";
                     sample_entry "https://example.com/new"] [] eq_refl)).
  reflexivity.
Defined.

(** ** A run and a well-formed ledger *)

(** X22. With a well-formed ledger the recording cannot fail, so a run is
    all or nothing: when it raises, it has written no file and the ledger in
    memory is as it was; whatever its outcome the ledger is well-formed
    afterwards; and when it returns a file name the ledger file reads back as
    the ledger in memory.  (The two writes are taken to succeed, as everywhere
    in this model of the files.) *)
Theorem run_digest_well_formed (ext : Externals) (st : state)
  (days_back featured_count : Z) :
  well_formed_ledger (processed_articles st) ->
  let run := run_digest ext st days_back featured_count in
  well_formed_ledger (processed_articles (fst run)) /\
  (forall e, snd run = Raise e -> fst run = st) /\
  (forall name, snd run = Ok (Some name) ->
     load_processed_articles ext (fst run) = Ok (processed_articles (fst run))).
Proof.
  intros Hwf. cbv zeta.
  assert (Hkeep : forall r : result (option string),
             well_formed_ledger (processed_articles (fst (st, r))) /\
                            (forall e, snd (st, r) = Raise e -> fst (st, r) = st)).
  { intros r. split; [exact Hwf | reflexivity]. }
  unfold run_digest.
  destruct (fetch_recent_articles ext st days_back) as [[|a0 articles]|e].
  - destruct (Hkeep (Ok None)) as [H1 H2]. split; [exact H1|].
    split; [exact H2 | discriminate].
  - destruct (select_top_articles (a0 :: articles) featured_count)
      as [[featured others]|e].
    + destruct (summarize_all ext featured) as [featured'|e].
      * destruct Hwf as [featured0 [reviewed0 [Hp [Hf0 Hr0]]]].
        cbv zeta. cbn [set_files processed_articles]. rewrite Hp.
        rewrite record_all_featured, record_all_reviewed. cbn [fst snd].
        assert (Hwf' : well_formed_ledger
                  (VDict [("featured",
                           VList (featured0 ++ map (record_of ext) featured'));
                          ("reviewed",
                           VList (reviewed0 ++ map (record_of ext) others))])).
        { eexists _, _. split; [reflexivity|].
          split; apply Forall_app; split;
            try assumption; apply records_are_records. }
        split; [exact Hwf'|]. split; [discriminate|].
        intros name _. rewrite load_after_save.
        cbn [processed_articles set_processed_articles save_processed_articles].
        f_equal. apply json_round_trip, well_formed_ledger_native, Hwf'.
      * destruct (Hkeep (Raise e)) as [H1 H2]. split; [exact H1|].
        split; [exact H2 | discriminate].
    + destruct (Hkeep (Raise e)) as [H1 H2]. split; [exact H1|].
      split; [exact H2 | discriminate].
  - destruct (Hkeep (Raise e)) as [H1 H2]. split; [exact H1|].
    split; [exact H2 | discriminate].
Qed.

Lemma sample_ledger_well_formed : well_formed_ledger sample_ledger.
Proof.
  eexists _, _. split; [reflexivity|]. split; [|constructor].
  constructor; [|constructor]. eexists _, _, _, _. reflexivity.
Qed.

Lemma run_digest_well_formed_witness :
  well_formed_ledger (processed_articles (fst (run_digest online sample_state 7 7))).
Proof.
  apply (run_digest_well_formed online sample_state 7 7).
  exact sample_ledger_well_formed.
Defined.

(** X23. A run returns: with externals and a service that raise nothing but
    what the handlers catch, a lookback that leaves the cutoff within the
    calendar, a well-formed ledger, and word counts within the range of
    floats, [run_digest] raises nothing; it ends early or returns the name
    of the digest file, however many feeds, pages and summaries failed.  (The
    two writes are taken to succeed, as everywhere in this model of the
    files.) *)
Theorem run_digest_returns (ext : Externals) (st : state)
  (days_back featured_count : Z) :
  uninterrupted ext -> quiet_service ext ->
  well_formed_ledger (processed_articles st) ->
  (0 <= days_back <= 999999999)%Z ->
  (days_back * 86400000000 <= now ext <= datetime_max)%Z ->
  (forall articles,
     fetch_recent_articles ext st days_back = Ok articles ->
     Forall word_count_in_range articles) ->
  snd (run_digest ext st days_back featured_count) = Ok None \/
  snd (run_digest ext st days_back featured_count)
  = Ok (Some ("ai_digest_" ++ format_timestamp ext (now ext) ++ ".html")%string).
Proof.
  intros Hq Hs [featured0 [reviewed0 [Hp _]]] Hd Hn Hw.
  destruct (fetch_recent_articles_returns ext Hq st days_back Hd Hn) as [articles Hf].
  specialize (Hw articles Hf). unfold run_digest. rewrite Hf.
  destruct articles as [|a0 articles]; [left; reflexivity|]. right.
  destruct (select_top_articles_returns (a0 :: articles) featured_count Hw)
    as [featured [others Hsel]].
  rewrite Hsel.
  destruct (summarize_all_returns ext featured Hs) as [featured' Hsum].
  rewrite Hsum. cbv zeta. cbn [set_files processed_articles]. rewrite Hp.
  rewrite record_all_featured, record_all_reviewed. reflexivity.
Qed.

Lemma run_digest_returns_witness :
  snd (run_digest scraping sample_state 7 7) = Ok None \/
  snd (run_digest scraping sample_state 7 7)
  = Ok (Some ("ai_digest_" ++ format_timestamp scraping (now scraping) ++ ".html")%string).
Proof.
  apply (run_digest_returns scraping sample_state 7 7).
  - exact scraping_uninterrupted.
  - intros model max_tokens prompt e. cbn. discriminate.
  - exact sample_ledger_well_formed.
  - lia.
  - vm_compute. split; discriminate.
  - intros articles H. vm_compute in H. injection H as <-.
    constructor; [|constructor]. split; [cbn; lia | reflexivity].
Defined.

(** ** The count that [scrape_comments] takes *)

Lemma py_max_int_ge x l :
  (x <= py_max_int x l)%Z /\ Forall (fun y => (y <= py_max_int x l)%Z) l.
Proof.
  unfold py_max_int. revert x. induction l as [|y l IH]; intros x; cbn [fold_left].
  - split; [lia | constructor].
  - destruct (Z.ltb_spec x y) as [L|G].
    + destruct (IH y) as [H1 H2]. split; [lia|]. constructor; assumption.
    + destruct (IH x) as [H1 H2]. split; [exact H1|]. constructor; [lia | exact H2].
Qed.

Lemma py_int_within limit m :
  within_int_limit limit m -> py_int limit m = Ok (int_of_digits m).
Proof.
  intros H. unfold py_int.
  destruct (Nat.ltb_spec 0 limit) as [L|G]; cbn [andb]; [|reflexivity].
  destruct (Nat.ltb_spec limit (String.length m)) as [L'|G']; [|reflexivity].
  destruct H as [H|H]; lia.
Qed.

Lemma mapM_py_int_within limit ms :
  Forall (within_int_limit limit) ms ->
  mapM (py_int limit) ms = Ok (map int_of_digits ms).
Proof.
  induction 1 as [|m ms Hm _ IH]; cbn [mapM map]; [reflexivity|].
  rewrite (py_int_within _ _ Hm). cbn [bind]. rewrite IH. reflexivity.
Qed.

Lemma first_pattern_count_skip limit before rest text :
  Forall (fun p => findall p text = []) before ->
  first_pattern_count limit (before ++ rest) text
  = first_pattern_count limit rest text.
Proof.
  induction 1 as [|p before Hp _ IH]; cbn [app first_pattern_count]; [reflexivity|].
  rewrite Hp. exact IH.
Qed.

(** X24. The count [scrape_comments] takes is that of the first of its four
    patterns that matches in the text of the page, in the order of the list:
    the largest of the numbers that this pattern matches (each within the
    limit [int] puts on the number of digits).  The patterns further down
    the list and the links of the page are then not looked at. *)
Theorem scrape_comments_takes_maximum (ext : Externals) (scraper : Scraper)
  (url : string) (page : Page) (pattern : string -> option (string * nat))
  (matches : list string) :
  scrapes ext scraper ->
  get_page scraper url = Ok page ->
  first_matching pattern (page_text page) matches ->
  Forall (within_int_limit (int_max_str_digits scraper)) matches ->
  exists n,
    scrape_comments ext url = Ok n /\
    In n (map int_of_digits matches) /\
    Forall (fun m => (int_of_digits m <= n)%Z) matches.
Proof.
  intros Hs Hp [before [after [Hpat [Hbefore [Hfind Hne]]]]] Hlim.
  destruct matches as [|m ms]; [congruence|].
  apply Forall_cons_iff in Hlim. destruct Hlim as [Hm Hms].
  exists (py_max_int (int_of_digits m) (map int_of_digits ms)). split; [|split].
  - unfold scrape_comments. rewrite (Hs url). unfold scrape_try. rewrite Hp.
    cbn [bind]. rewrite Hpat, (first_pattern_count_skip _ _ _ _ Hbefore).
    cbn [first_pattern_count]. rewrite Hfind.
    rewrite (py_int_within _ _ Hm). cbn [bind].
    rewrite (mapM_py_int_within _ _ Hms). reflexivity.
  - cbn [map]. destruct (py_max_int_In (int_of_digits m) (map int_of_digits ms))
      as [E|Hin]; [left; symmetry; exact E | right; exact Hin].
  - destruct (py_max_int_ge (int_of_digits m) (map int_of_digits ms)) as [H1 H2].
    constructor; [exact H1|]. rewrite Forall_map in H2. exact H2.
Qed.

Lemma scrape_comments_takes_maximum_witness :
  exists n,
    scrape_comments scraping "https://example.com/new" = Ok n /\
    In n (map int_of_digits ["12"; "7"]) /\
    Forall (fun m => (int_of_digits m <= n)%Z) ["12"; "7"].
Proof.
  apply (scrape_comments_takes_maximum scraping sample_scraper
           "https://example.com/new" sample_page (match_count_word "comment")).
  - exact sample_scraping.
  - reflexivity.
  - exists [], [match_count_word "replie"; match_word_count "comment";
               match_word_count "replie"].
    split; [reflexivity|]. split; [constructor|].
    split; [vm_compute; reflexivity | discriminate].
  - constructor; [right; cbn; lia|]. constructor; [right; cbn; lia | constructor].
Defined.

(** ** What of the content reaches the service *)




